(** * ASI MS-2000-500-CP stage controller: a shallow embedding

    The Python class [Controller] of [asi_MS_2000_500_CP.py] is embedded as
    functions over an explicit controller record.  Conventions:

    - Python [int] and [float] values are exact rationals ([Q]); binary
      floating point rounding error is not modelled, except in the
      module [Binary64], which embeds the two conversions between
      encoder counts and positions in the arithmetic of [float].
    - Python [str] and [bytes] are [string]s of 8-bit characters.
    - A method is a function [Controller -> result A * Controller]: the
      controller is threaded through, and a raised exception keeps every
      mutation made before it, as in Python.  Exceptions carry the source
      line of the statement that raises them.
    - The serial port is a record holding the log of written lines, the
      receive buffer and the replies the attached device will give; each
      write makes the device deliver its next reply into the buffer.
    - Console output ([print]) is not modelled. *)

From Stdlib Require Import String Ascii List Bool Arith ZArith NArith QArith Qround Qabs Qpower Lia Lqa.
From Stdlib Require Import DecimalString DecimalN DecimalFacts.
Import ListNotations.

Local Close Scope Q_scope.
Local Open Scope nat_scope.
Local Open Scope string_scope.
Local Open Scope list_scope.

(** ** Characters and strings, as Python's [str] methods use them *)

Definition CR : ascii := "013"%char.
Definition LF : ascii := "010"%char.

(** [c in chars] *)
Fixpoint in_chars (chars : string) (c : ascii) : bool :=
  match chars with
  | EmptyString => false
  | String d rest => Ascii.eqb c d || in_chars rest c
  end.

(** Whitespace of [str.split()] and [str.strip()] within ASCII. *)
Definition is_space (c : ascii) : bool :=
  let n := nat_of_ascii c in
  ((9 <=? n)%nat && (n <=? 13)%nat) || ((28 <=? n)%nat && (n <=? 32)%nat).

Definition is_ascii_char (c : ascii) : bool := (nat_of_ascii c <? 128)%nat.

Fixpoint string_forallb (p : ascii -> bool) (s : string) : bool :=
  match s with
  | EmptyString => true
  | String c rest => p c && string_forallb p rest
  end.

Definition is_ascii (s : string) : bool := string_forallb is_ascii_char s.

Definition is_empty (s : string) : bool :=
  match s with EmptyString => true | _ => false end.

(** [s.lstrip(chars)], [s.rstrip(chars)] and [s.strip(chars)] for a
    predicate on the characters to remove. *)
Fixpoint lstrip_by (p : ascii -> bool) (s : string) : string :=
  match s with
  | EmptyString => EmptyString
  | String c rest => if p c then lstrip_by p rest else s
  end.

Fixpoint rstrip_by (p : ascii -> bool) (s : string) : string :=
  match s with
  | EmptyString => EmptyString
  | String c rest =>
      let r := rstrip_by p rest in
      if is_empty r && p c then EmptyString else String c r
  end.

Definition strip (chars : string) (s : string) : string :=
  rstrip_by (in_chars chars) (lstrip_by (in_chars chars) s).

(** [s.rstrip()] *)
Definition rstrip_ws (s : string) : string := rstrip_by is_space s.

(** [s.strip()] *)
Definition strip_ws (s : string) : string :=
  rstrip_by is_space (lstrip_by is_space s).

(** [s.split()]: the maximal runs of non-whitespace characters. *)
Fixpoint split_ws (s : string) : list string :=
  match s with
  | EmptyString => []
  | String c rest =>
      if is_space c then split_ws rest
      else
        match rest with
        | EmptyString => [String c EmptyString]
        | String c' _ =>
            if is_space c' then String c EmptyString :: split_ws rest
            else
              match split_ws rest with
              | t :: ts => String c t :: ts
              | [] => [String c EmptyString]
              end
        end
  end.

(** [s.split(sep)] for a one-character separator. *)
Fixpoint split_on (sep : ascii) (s : string) : list string :=
  match s with
  | EmptyString => [EmptyString]
  | String c rest =>
      if Ascii.eqb c sep then EmptyString :: split_on sep rest
      else
        match split_on sep rest with
        | t :: ts => String c t :: ts
        | [] => [String c EmptyString]
        end
  end.

(** [sep.join(parts)] *)
Fixpoint join (sep : string) (parts : list string) : string :=
  match parts with
  | [] => EmptyString
  | [p] => p
  | p :: rest => p ++ sep ++ join sep rest
  end.

(** [''.join(parts)] *)
Definition concat_all (parts : list string) : string := String.concat "" parts.

Fixpoint list_eqb {A : Type} (eqb : A -> A -> bool) (l1 l2 : list A) : bool :=
  match l1, l2 with
  | [], [] => true
  | x :: r1, y :: r2 => eqb x y && list_eqb eqb r1 r2
  | _, _ => false
  end.

(** A [dict] with string keys and values, written as a literal in the
    source: lookup by key. *)
Fixpoint dict_get (d : list (string * string)) (k : string) : option string :=
  match d with
  | [] => None
  | (k', v) :: rest => if String.eqb k k' then Some v else dict_get rest k
  end.

(** ** Numbers *)

(** Python's [round(x)]: the nearest integer, ties to the even one. *)
Definition py_round (x : Q) : Z :=
  let f := Qfloor x in
  match Qcompare (x - inject_Z f)%Q (1 # 2)%Q with
  | Lt => f
  | Gt => (f + 1)%Z
  | Eq => if Z.even f then f else (f + 1)%Z
  end.

Fixpoint pow10 (n : nat) : positive :=
  match n with
  | O => 1%positive
  | S m => (10 * pow10 m)%positive
  end.

(** Python's [round(x, n)] for [n >= 0]. *)
Definition py_round_n (n : nat) (x : Q) : Q :=
  Qmake (py_round (x * inject_Z (Zpos (pow10 n)))%Q) (pow10 n).

(** [int(x)] of a number: truncation towards zero. *)
Definition py_trunc (x : Q) : Z := Z.quot (Qnum x) (Zpos (Qden x)).

(** Decimal digits of a natural number, ["0"] for zero. *)
Definition digits_of_N (n : N) : string :=
  NilEmpty.string_of_uint (N.to_uint n).

(** The number a string of decimal digits denotes; [None] when some
    character is not a digit.  The empty string denotes [0]. *)
Definition digits_value (s : string) : option N :=
  option_map N.of_uint (NilEmpty.uint_of_string s).

Fixpoint zeros (n : nat) : string :=
  match n with
  | O => EmptyString
  | S m => String "0" (zeros m)
  end.

(** ['%d' % z] *)
Definition format_d (z : Z) : string :=
  (if (z <? 0)%Z then "-" else "") ++ digits_of_N (Z.abs_N z).

(** ['%0.6f' % x]: sign, integer digits, a point and six decimals, the
    value rounded to the sixth decimal.  A negative value that rounds to
    zero keeps its sign, as in C's [printf]. *)
Definition format_f6 (x : Q) : string :=
  let k := Z.abs_N (py_round (x * inject_Z 1000000)%Q) in
  let ip := digits_of_N (k / 1000000)%N in
  let fp := digits_of_N (k mod 1000000)%N in
  (if Qle_bool 0%Q x then "" else "-") ++ ip ++ "."
     ++ zeros (6 - String.length fp) ++ fp.

Definition split_sign (s : string) : bool * string :=
  match s with
  | String "-" rest => (true, rest)
  | String "+" rest => (false, rest)
  | _ => (false, s)
  end.

Definition apply_sign (neg : bool) (n : N) : Z :=
  if neg then Z.opp (Z.of_N n) else Z.of_N n.

(** [float(s)] for the fixed-point literals the controller sends: an
    optional sign, digits, optionally a point and more digits, with a
    digit on at least one side of the point.  [None] stands for
    [ValueError].  Exponents, infinities, NaN and digit-group underscores
    are outside the model and are rejected here. *)
Definition float_of_string (s : string) : option Q :=
  let (neg, body) := split_sign s in
  match split_on "." body with
  | [ip] =>
      if is_empty ip then None
      else option_map (fun n => inject_Z (apply_sign neg n)) (digits_value ip)
  | [ip; fp] =>
      if is_empty ip && is_empty fp then None
      else
        match digits_value ip, digits_value fp with
        | Some i, Some f =>
            let d := pow10 (String.length fp) in
            Some (Qmake (apply_sign neg (i * Npos d + f)%N) d)
        | _, _ => None
        end
  | _ => None
  end.

(** [int(s)] for a string: surrounding whitespace, an optional sign and at
    least one digit.  [None] stands for [ValueError]. *)
Definition int_of_string (s : string) : option Z :=
  let (neg, body) := split_sign (strip_ws s) in
  if is_empty body then None
  else option_map (apply_sign neg) (digits_value body).

Definition Qle_between (lo x hi : Q) : bool := Qle_bool lo x && Qle_bool x hi.

(** ** Python values, exceptions and results *)

(** An argument entry: [None], an [int] or a [float]. *)
Inductive value : Type :=
| VNone
| VInt (n : Z)
| VFloat (x : Q).

(** [type(v) is int or type(v) is float] *)
Definition is_number (v : value) : bool :=
  match v with
  | VNone => false
  | VInt _ | VFloat _ => true
  end.

(** What the methods return from [_send]: [None], a [str] or a tuple of
    floats. *)
Inductive response : Type :=
| RNone
| RStr (s : string)
| RTuple (vs : list Q).

(** Exceptions, each with the source line that raises it.  [OutOfFuel] is
    not a Python exception: it marks a polling loop cut off by the
    model's iteration bound. *)
Inductive exn : Type :=
| AssertionError (line : nat)
| ValueError (line : nat)
| KeyError (line : nat)
| IndexError (line : nat)
| AttributeError (line : nat)
| TypeError (line : nat)
| ZeroDivisionError (line : nat)
| OverflowError (line : nat)
| UnicodeError (line : nat)
| PortNotOpenError (line : nat)
| OutOfFuel.

Inductive result (A : Type) : Type :=
| Ok (a : A)
| Raise (e : exn).

Arguments Ok {A} a.
Arguments Raise {A} e.

Definition rbind {A B : Type} (r : result A) (f : A -> result B) : result B :=
  match r with
  | Ok a => f a
  | Raise e => Raise e
  end.

(** [obj.attr] where the attribute may not be set, and [seq[i]]. *)
Definition attr {A : Type} (line : nat) (field : option A) : result A :=
  match field with
  | Some a => Ok a
  | None => Raise (AttributeError line)
  end.

Definition index {A : Type} (line : nat) (l : list A) (i : nat) : result A :=
  match nth_error l i with
  | Some a => Ok a
  | None => Raise (IndexError line)
  end.

(** ** The serial port *)

(** [written] logs every byte string passed to [write], oldest first;
    [in_buffer] holds the received bytes not yet read; [device] lists the
    replies the attached controller will give to the coming writes, one
    per command line (a silent device has none left). *)
Record Serial : Type := mkSerial {
  is_open : bool;
  written : list string;
  in_buffer : string;
  device : list string
}.

Definition Serial_write (p : Serial) (data : string) : Serial :=
  {| is_open := is_open p;
     written := written p ++ [data];
     in_buffer := in_buffer p ++ hd EmptyString (device p);
     device := tl (device p) |}.

(** The bytes up to and including the first line feed, and the rest; all
    of the buffer when no line feed arrives before the read timeout. *)
Fixpoint take_line (s : string) : string * string :=
  match s with
  | EmptyString => (EmptyString, EmptyString)
  | String c rest =>
      if Ascii.eqb c LF then (String c EmptyString, rest)
      else let (l, r) := take_line rest in (String c l, r)
  end.

Definition Serial_readline (p : Serial) : string * Serial :=
  let (line, rest) := take_line (in_buffer p) in
  (line,
   {| is_open := is_open p; written := written p;
      in_buffer := rest; device := device p |}).

Definition in_waiting (p : Serial) : nat := String.length (in_buffer p).

Definition Serial_close (p : Serial) : Serial :=
  {| is_open := false; written := written p;
     in_buffer := EmptyString; device := device p |}.

(** ** The controller object *)

(** The attributes of a [Controller] instance.  An attribute that
    [__init__] sets only for a controller with axes, or that a later call
    sets, is an [option]: [None] while it does not exist. *)
Record Controller : Type := mkController {
  port : Serial;
  version : string;
  _ttl_in_mode : option string;
  _ttl_out_mode : option string;
  state : option string;
  pwm_intensity : option Z;
  axes : option (list string);
  pitch_mm : option (list Q);
  resolution_nm : option (list Q);
  max_velocity_mmps : option (list Q);
  min_position_um : option (list Q);
  max_position_um : option (list Q);
  encoder_counts_per_um : option (list Z);
  min_acceleration_ms : option (list Q);
  max_acceleration_ms : option (list Q);
  max_settle_time_ms : option (list Q);
  tol_settle_time_ms : option (list Q);
  min_precision_um : option (list Q);
  max_precision_um : option (list Q);
  velocity_mmps : option (list Q);
  acceleration_ms : option (list Q);
  settle_time_ms : option (list Q);
  precision_um : option (list Q);
  position_um : option (list Q);
  _moving : option bool;
  _target_move_um : option (list Q)
}.

Definition set_port (p : Serial) (c : Controller) : Controller :=
  mkController p (version c) (_ttl_in_mode c) (_ttl_out_mode c) (state c)
    (pwm_intensity c) (axes c) (pitch_mm c) (resolution_nm c)
    (max_velocity_mmps c) (min_position_um c) (max_position_um c)
    (encoder_counts_per_um c) (min_acceleration_ms c) (max_acceleration_ms c)
    (max_settle_time_ms c) (tol_settle_time_ms c) (min_precision_um c)
    (max_precision_um c) (velocity_mmps c) (acceleration_ms c)
    (settle_time_ms c) (precision_um c) (position_um c) (_moving c)
    (_target_move_um c).

Definition set_ttl_in_mode (m : option string) (c : Controller) : Controller :=
  mkController (port c) (version c) m (_ttl_out_mode c) (state c)
    (pwm_intensity c) (axes c) (pitch_mm c) (resolution_nm c)
    (max_velocity_mmps c) (min_position_um c) (max_position_um c)
    (encoder_counts_per_um c) (min_acceleration_ms c) (max_acceleration_ms c)
    (max_settle_time_ms c) (tol_settle_time_ms c) (min_precision_um c)
    (max_precision_um c) (velocity_mmps c) (acceleration_ms c)
    (settle_time_ms c) (precision_um c) (position_um c) (_moving c)
    (_target_move_um c).

Definition set_ttl_out_mode (m : option string) (c : Controller) : Controller :=
  mkController (port c) (version c) (_ttl_in_mode c) m (state c)
    (pwm_intensity c) (axes c) (pitch_mm c) (resolution_nm c)
    (max_velocity_mmps c) (min_position_um c) (max_position_um c)
    (encoder_counts_per_um c) (min_acceleration_ms c) (max_acceleration_ms c)
    (max_settle_time_ms c) (tol_settle_time_ms c) (min_precision_um c)
    (max_precision_um c) (velocity_mmps c) (acceleration_ms c)
    (settle_time_ms c) (precision_um c) (position_um c) (_moving c)
    (_target_move_um c).

Definition set_state (s : option string) (c : Controller) : Controller :=
  mkController (port c) (version c) (_ttl_in_mode c) (_ttl_out_mode c) s
    (pwm_intensity c) (axes c) (pitch_mm c) (resolution_nm c)
    (max_velocity_mmps c) (min_position_um c) (max_position_um c)
    (encoder_counts_per_um c) (min_acceleration_ms c) (max_acceleration_ms c)
    (max_settle_time_ms c) (tol_settle_time_ms c) (min_precision_um c)
    (max_precision_um c) (velocity_mmps c) (acceleration_ms c)
    (settle_time_ms c) (precision_um c) (position_um c) (_moving c)
    (_target_move_um c).

Definition set_pwm_intensity_attr (v : option Z) (c : Controller) : Controller :=
  mkController (port c) (version c) (_ttl_in_mode c) (_ttl_out_mode c) (state c)
    v (axes c) (pitch_mm c) (resolution_nm c)
    (max_velocity_mmps c) (min_position_um c) (max_position_um c)
    (encoder_counts_per_um c) (min_acceleration_ms c) (max_acceleration_ms c)
    (max_settle_time_ms c) (tol_settle_time_ms c) (min_precision_um c)
    (max_precision_um c) (velocity_mmps c) (acceleration_ms c)
    (settle_time_ms c) (precision_um c) (position_um c) (_moving c)
    (_target_move_um c).

Definition set_velocity_mmps (v : option (list Q)) (c : Controller) : Controller :=
  mkController (port c) (version c) (_ttl_in_mode c) (_ttl_out_mode c) (state c)
    (pwm_intensity c) (axes c) (pitch_mm c) (resolution_nm c)
    (max_velocity_mmps c) (min_position_um c) (max_position_um c)
    (encoder_counts_per_um c) (min_acceleration_ms c) (max_acceleration_ms c)
    (max_settle_time_ms c) (tol_settle_time_ms c) (min_precision_um c)
    (max_precision_um c) v (acceleration_ms c)
    (settle_time_ms c) (precision_um c) (position_um c) (_moving c)
    (_target_move_um c).

Definition set_acceleration_ms (v : option (list Q)) (c : Controller) : Controller :=
  mkController (port c) (version c) (_ttl_in_mode c) (_ttl_out_mode c) (state c)
    (pwm_intensity c) (axes c) (pitch_mm c) (resolution_nm c)
    (max_velocity_mmps c) (min_position_um c) (max_position_um c)
    (encoder_counts_per_um c) (min_acceleration_ms c) (max_acceleration_ms c)
    (max_settle_time_ms c) (tol_settle_time_ms c) (min_precision_um c)
    (max_precision_um c) (velocity_mmps c) v
    (settle_time_ms c) (precision_um c) (position_um c) (_moving c)
    (_target_move_um c).

Definition set_settle_time_ms (v : option (list Q)) (c : Controller) : Controller :=
  mkController (port c) (version c) (_ttl_in_mode c) (_ttl_out_mode c) (state c)
    (pwm_intensity c) (axes c) (pitch_mm c) (resolution_nm c)
    (max_velocity_mmps c) (min_position_um c) (max_position_um c)
    (encoder_counts_per_um c) (min_acceleration_ms c) (max_acceleration_ms c)
    (max_settle_time_ms c) (tol_settle_time_ms c) (min_precision_um c)
    (max_precision_um c) (velocity_mmps c) (acceleration_ms c)
    v (precision_um c) (position_um c) (_moving c)
    (_target_move_um c).

Definition set_precision_um (v : option (list Q)) (c : Controller) : Controller :=
  mkController (port c) (version c) (_ttl_in_mode c) (_ttl_out_mode c) (state c)
    (pwm_intensity c) (axes c) (pitch_mm c) (resolution_nm c)
    (max_velocity_mmps c) (min_position_um c) (max_position_um c)
    (encoder_counts_per_um c) (min_acceleration_ms c) (max_acceleration_ms c)
    (max_settle_time_ms c) (tol_settle_time_ms c) (min_precision_um c)
    (max_precision_um c) (velocity_mmps c) (acceleration_ms c)
    (settle_time_ms c) v (position_um c) (_moving c)
    (_target_move_um c).

Definition set_position_um (v : option (list Q)) (c : Controller) : Controller :=
  mkController (port c) (version c) (_ttl_in_mode c) (_ttl_out_mode c) (state c)
    (pwm_intensity c) (axes c) (pitch_mm c) (resolution_nm c)
    (max_velocity_mmps c) (min_position_um c) (max_position_um c)
    (encoder_counts_per_um c) (min_acceleration_ms c) (max_acceleration_ms c)
    (max_settle_time_ms c) (tol_settle_time_ms c) (min_precision_um c)
    (max_precision_um c) (velocity_mmps c) (acceleration_ms c)
    (settle_time_ms c) (precision_um c) v (_moving c)
    (_target_move_um c).

Definition set_moving (b : option bool) (c : Controller) : Controller :=
  mkController (port c) (version c) (_ttl_in_mode c) (_ttl_out_mode c) (state c)
    (pwm_intensity c) (axes c) (pitch_mm c) (resolution_nm c)
    (max_velocity_mmps c) (min_position_um c) (max_position_um c)
    (encoder_counts_per_um c) (min_acceleration_ms c) (max_acceleration_ms c)
    (max_settle_time_ms c) (tol_settle_time_ms c) (min_precision_um c)
    (max_precision_um c) (velocity_mmps c) (acceleration_ms c)
    (settle_time_ms c) (precision_um c) (position_um c) b
    (_target_move_um c).

Definition set_target_move_um (v : option (list Q)) (c : Controller) : Controller :=
  mkController (port c) (version c) (_ttl_in_mode c) (_ttl_out_mode c) (state c)
    (pwm_intensity c) (axes c) (pitch_mm c) (resolution_nm c)
    (max_velocity_mmps c) (min_position_um c) (max_position_um c)
    (encoder_counts_per_um c) (min_acceleration_ms c) (max_acceleration_ms c)
    (max_settle_time_ms c) (tol_settle_time_ms c) (min_precision_um c)
    (max_precision_um c) (velocity_mmps c) (acceleration_ms c)
    (settle_time_ms c) (precision_um c) (position_um c) (_moving c)
    v.

(** ** Methods as state transformers with exceptions *)

Definition M (A : Type) : Type := Controller -> result A * Controller.

Definition ret {A : Type} (a : A) : M A := fun c => (Ok a, c).

Definition raise {A : Type} (e : exn) : M A := fun c => (Raise e, c).

Definition bind {A B : Type} (m : M A) (f : A -> M B) : M B :=
  fun c =>
    match m c with
    | (Ok a, c') => f a c'
    | (Raise e, c') => (Raise e, c')
    end.

(** A computation that only reads the controller. *)
Definition reading {A : Type} (f : Controller -> result A) : M A :=
  fun c => (f c, c).

Definition update (f : Controller -> Controller) : M unit :=
  fun c => (Ok tt, f c).

Definition lift {A : Type} (r : result A) : M A := fun c => (r, c).

Definition assert_ (line : nat) (b : bool) : M unit :=
  if b then ret tt else raise (AssertionError line).

Definition rassert (line : nat) (b : bool) : result unit :=
  if b then Ok tt else Raise (AssertionError line).

Declare Scope py_scope.
Delimit Scope py_scope with py.
Notation "x <- m ;; k" := (bind m (fun x => k))
  (at level 61, m at next level, right associativity) : py_scope.
Notation "m ;; k" := (bind m (fun _ => k))
  (at level 61, right associativity) : py_scope.
Notation "x <~ r ;; k" := (rbind r (fun x => k))
  (at level 61, r at next level, right associativity) : py_scope.
Notation "r ~;; k" := (rbind r (fun _ => k))
  (at level 61, right associativity) : py_scope.
Local Open Scope py_scope.

(** *** Port access; a closed port refuses every operation *)

Definition port_write (line : nat) (data : string) : M unit :=
  fun c =>
    if is_open (port c)
    then (Ok tt, set_port (Serial_write (port c) data) c)
    else (Raise (PortNotOpenError line), c).

Definition port_readline (line : nat) : M string :=
  fun c =>
    if is_open (port c)
    then let (l, p) := Serial_readline (port c) in (Ok l, set_port p c)
    else (Raise (PortNotOpenError line), c).

Definition port_in_waiting (line : nat) : M nat :=
  fun c =>
    if is_open (port c)
    then (Ok (in_waiting (port c)), c)
    else (Raise (PortNotOpenError line), c).

(** *** [_send] (lines 85-106) *)

(** The characters of [':A \r\n'], removed from both ends of a response. *)
Definition delimiters : string :=
  String ":" (String "A" (String " " (String CR (String LF EmptyString)))).

(** Lines 95-98: the axis names and the values of the [axis=value]
    tokens of a response. *)
Fixpoint parse_axes_loop (tokens : list string) : result (list string * list Q) :=
  match tokens with
  | [] => Ok ([], [])
  | a :: rest =>
      match split_on "=" a with
      | [axis; value] =>
          match float_of_string value with
          | Some v =>
              r <~ parse_axes_loop rest ;;
              Ok (axis :: fst r, v :: snd r)
          | None => Raise (ValueError 98)
          end
      | _ => Raise (ValueError 97)
      end
  end.

(** Lines 92-102: the value [_send] returns for the stripped response
    line; [self_axes] is the attribute [self.axes]. *)
Definition decode_response (self_axes : option (list string))
    (respond parse_axes : bool) (line : string) : result response :=
  if respond then
    rassert 93 (negb (is_empty line)) ~;;
    if parse_axes then
      av <~ parse_axes_loop (split_ws line) ;;
      axs <~ attr 99 self_axes ;;
      rassert 99 (list_eqb String.eqb (fst av) axs) ~;;
      Ok (RTuple (snd av))
    else Ok (RStr line)
  else Ok RNone.

Definition _send (cmd : string) (respond parse_axes : bool) : M response :=
  (if is_ascii cmd then ret tt else raise (UnicodeError 89)) ;;
  port_write 90 (cmd ++ String CR EmptyString) ;;
  raw <- port_readline 91 ;;
  (if is_ascii raw then ret tt else raise (UnicodeError 91)) ;;
  r <- reading (fun c =>
         decode_response (axes c) respond parse_axes (strip delimiters raw)) ;;
  n <- port_in_waiting 105 ;;
  assert_ 105 (Nat.eqb n 0) ;;
  ret r.

(** The [str] a respond-only [_send] returned; any other object has no
    [rstrip], [strip] or [split]. *)
Definition as_str (line : nat) (r : response) : result string :=
  match r with
  | RStr s => Ok s
  | _ => Raise (AttributeError line)
  end.

(** *** TTL mode registers (lines 108-150) *)

Definition _get_ttl_in_mode : M string :=
  let code2mode := [("0", "disabled"); ("10", "toggle_ttl_out")] in
  r <- _send "TTL X?" true false ;;
  s <- lift (as_str 112 r) ;;
  code <- lift (index 112 (split_on "=" (rstrip_ws s)) 1) ;;
  match dict_get code2mode code with
  | None => raise (KeyError 113)
  | Some mode =>
      update (set_ttl_in_mode (Some mode)) ;;
      ret mode
  end.

Definition _set_ttl_in_mode (mode : string) : M unit :=
  let mode2code := [("disabled", "0"); ("toggle_ttl_out", "10")] in
  match dict_get mode2code mode with
  | None => raise (AssertionError 122)
  | Some code =>
      _send ("TTL X=" ++ code) false false ;;
      update (set_ttl_in_mode None) ;;
      got <- _get_ttl_in_mode ;;
      assert_ 125 (String.eqb got mode)
  end.

Definition _get_ttl_out_mode : M string :=
  let code2mode := [("0", "low"); ("1", "high"); ("9", "pwm")] in
  r <- _send "TTL Y?" true false ;;
  s <- lift (as_str 134 r) ;;
  code <- lift (index 134 (split_on "=" (rstrip_ws s)) 1) ;;
  match dict_get code2mode code with
  | None => raise (KeyError 135)
  | Some mode =>
      update (set_ttl_out_mode (Some mode)) ;;
      ret mode
  end.

Definition _set_ttl_out_mode (mode : string) : M unit :=
  let mode2code := [("low", "0"); ("high", "1"); ("pwm", "9")] in
  match dict_get mode2code mode with
  | None => raise (AssertionError 144)
  | Some code =>
      _send ("TTL Y=" ++ code) false false ;;
      update (set_ttl_out_mode None) ;;
      got <- _get_ttl_out_mode ;;
      assert_ 147 (String.eqb got mode)
  end.

(** *** Per-axis parameters (lines 152-272) *)

(** ['? '.join(self.axes)+'?'] after a command keyword. *)
Definition query_cmd (keyword : string) (axs : list string) : string :=
  (keyword ++ join "? " axs ++ "?")%string.

(** The tuple a [parse_axes] exchange returned. *)
Definition as_tuple (line : nat) (r : response) : result (list Q) :=
  match r with
  | RTuple vs => Ok vs
  | _ => Raise (TypeError line)
  end.

(** The number an entry holds once [None] is replaced by [current[i]]. *)
Definition resolve (line : nat) (current : option (list Q)) (i : nat)
    (v : value) : result Q :=
  match v with
  | VNone => cur <~ attr line current ;; index line cur i
  | VInt n => Ok (inject_Z n)
  | VFloat x => Ok x
  end.

Definition _get_velocity : M (list Q) :=
  axs <- reading (fun c => attr 156 (axes c)) ;;
  r <- _send (query_cmd "S " axs) true true ;;
  vs <- lift (as_tuple 155 r) ;;
  update (set_velocity_mmps (Some vs)) ;;
  ret vs.

(** Lines 168-173; returns the rounded values and the command pieces. *)
Fixpoint velocity_loop (c : Controller) (i : nat) (vs : list value)
    : result (list Q * list string) :=
  match vs with
  | [] => Ok ([], [])
  | v :: rest =>
      x <~ resolve 170 (velocity_mmps c) i v ;;
      (if Qle_bool 0 x
            then (mx <~ attr 171 (max_velocity_mmps c) ;;
                  m <~ index 171 mx i ;;
                  rassert 171 (Qle_bool x m))
            else Raise (AssertionError 171)) ~;;
      let x6 := py_round_n 6 x in
      axs <~ attr 173 (axes c) ;;
      a <~ index 173 axs i ;;
      let piece := ("V" ++ a ++ "=" ++ format_f6 x6 ++ " ")%string in
      r <~ velocity_loop c (S i) rest ;;
      Ok (x6 :: fst r, piece :: snd r)
  end.

Definition _set_velocity (velocity : list value) : M unit :=
  axs <- reading (fun c => attr 164 (axes c)) ;;
  assert_ 164 (Nat.eqb (length velocity) (length axs)) ;;
  assert_ 165 (forallb is_number velocity) ;;
  r <- reading (fun c => velocity_loop c 0 velocity) ;;
  _send (concat_all ("S " :: snd r)) false false ;;
  got <- _get_velocity ;;
  assert_ 175 (list_eqb Qeq_bool got (fst r)).

Definition _get_acceleration : M (list Q) :=
  axs <- reading (fun c => attr 184 (axes c)) ;;
  r <- _send (query_cmd "AC " axs) true true ;;
  vs <- lift (as_tuple 183 r) ;;
  update (set_acceleration_ms (Some vs)) ;;
  ret vs.

(** Lines 197-203. *)
Fixpoint acceleration_loop (c : Controller) (i : nat) (vs : list value)
    : result (list Q * list string) :=
  match vs with
  | [] => Ok ([], [])
  | v :: rest =>
      x <~ resolve 199 (acceleration_ms c) i v ;;
      let a := inject_Z (py_round x) in
      mn <~ attr 201 (min_acceleration_ms c) ;;
      lo <~ index 201 mn i ;;
      rassert 201 (Qle_bool lo a) ~;;
      mx <~ attr 202 (max_acceleration_ms c) ;;
      hi <~ index 202 mx i ;;
      rassert 202 (Qle_bool a hi) ~;;
      axs <~ attr 203 (axes c) ;;
      ax <~ index 203 axs i ;;
      let piece := ("AC" ++ ax ++ "=" ++ format_f6 a ++ " ")%string in
      r <~ acceleration_loop c (S i) rest ;;
      Ok (a :: fst r, piece :: snd r)
  end.

Definition _set_acceleration (acceleration : list value) : M unit :=
  axs <- reading (fun c => attr 193 (axes c)) ;;
  assert_ 193 (Nat.eqb (length acceleration) (length axs)) ;;
  assert_ 194 (forallb is_number acceleration) ;;
  r <- reading (fun c => acceleration_loop c 0 acceleration) ;;
  _send (concat_all ("AC " :: snd r)) false false ;;
  got <- _get_acceleration ;;
  assert_ 205 (list_eqb Qeq_bool got (fst r)).

Definition _get_settle_time : M (list Q) :=
  axs <- reading (fun c => attr 214 (axes c)) ;;
  r <- _send (query_cmd "WT " axs) true true ;;
  vs <- lift (as_tuple 213 r) ;;
  update (set_settle_time_ms (Some vs)) ;;
  ret vs.

(** Lines 227-232. *)
Fixpoint settle_time_loop (c : Controller) (i : nat) (vs : list value)
    : result (list Q * list string) :=
  match vs with
  | [] => Ok ([], [])
  | v :: rest =>
      x <~ resolve 229 (settle_time_ms c) i v ;;
      let t := inject_Z (py_round x) in
      (if Qle_bool 0 t
            then (mx <~ attr 231 (max_settle_time_ms c) ;;
                  m <~ index 231 mx i ;;
                  rassert 231 (Qle_bool t m))
            else Raise (AssertionError 231)) ~;;
      axs <~ attr 232 (axes c) ;;
      ax <~ index 232 axs i ;;
      let piece := ("WT" ++ ax ++ "=" ++ format_f6 t ++ " ")%string in
      r <~ settle_time_loop c (S i) rest ;;
      Ok (t :: fst r, piece :: snd r)
  end.

(** Lines 235-237: every reported time within the tolerance of the
    intended one. *)
Fixpoint settle_check_loop (c : Controller) (i : nat) (pairs : list (Q * Q))
    : result unit :=
  match pairs with
  | [] => Ok tt
  | (ti, tf) :: rest =>
      tol <~ attr 236 (tol_settle_time_ms c) ;;
      d <~ index 236 tol i ;;
      rassert 236 (Qle_bool (ti - d) tf) ~;;
      tol' <~ attr 237 (tol_settle_time_ms c) ;;
      d' <~ index 237 tol' i ;;
      rassert 237 (Qle_bool tf (ti + d')) ~;;
      settle_check_loop c (S i) rest
  end.

Definition _set_settle_time (settle_time : list value) : M unit :=
  axs <- reading (fun c => attr 223 (axes c)) ;;
  assert_ 223 (Nat.eqb (length settle_time) (length axs)) ;;
  assert_ 224 (forallb is_number settle_time) ;;
  r <- reading (fun c => settle_time_loop c 0 settle_time) ;;
  _send (concat_all ("WT " :: snd r)) false false ;;
  _get_settle_time ;;
  reading (fun c =>
    got <~ attr 235 (settle_time_ms c) ;;
    settle_check_loop c 0 (combine (fst r) got)).

Definition _get_precision : M (list Q) :=
  axs <- reading (fun c => attr 246 (axes c)) ;;
  r <- _send (query_cmd "PC " axs) true true ;;
  precision_mm <- lift (as_tuple 247 r) ;;
  let um := map (fun p => inject_Z (py_round (inject_Z 1000000 * p))) precision_mm in
  update (set_precision_um (Some um)) ;;
  ret um.

(** Lines 260-267. *)
Fixpoint precision_loop (c : Controller) (i : nat) (vs : list value)
    : result (list Q * list string) :=
  match vs with
  | [] => Ok ([], [])
  | v :: rest =>
      x <~ resolve 262 (precision_um c) i v ;;
      let p := inject_Z (py_round x) in
      mn <~ attr 264 (min_precision_um c) ;;
      lo <~ index 264 mn i ;;
      rassert 264 (Qle_bool lo p) ~;;
      mx <~ attr 265 (max_precision_um c) ;;
      hi <~ index 265 mx i ;;
      rassert 265 (Qle_bool p hi) ~;;
      axs <~ attr 267 (axes c) ;;
      ax <~ index 267 axs i ;;
      let piece := ("PC" ++ ax ++ "=" ++ format_f6 ((1 # 1000000) * p) ++ " ")%string in
      r <~ precision_loop c (S i) rest ;;
      Ok (p :: fst r, piece :: snd r)
  end.

Definition _set_precision (precision : list value) : M unit :=
  axs <- reading (fun c => attr 256 (axes c)) ;;
  assert_ 256 (Nat.eqb (length precision) (length axs)) ;;
  assert_ 257 (forallb is_number precision) ;;
  r <- reading (fun c => precision_loop c 0 precision) ;;
  _send (concat_all ("PC " :: snd r)) false false ;;
  got <- _get_precision ;;
  assert_ 269 (list_eqb Qeq_bool got (fst r)).

(** *** Positions and moves (lines 274-334) *)

(** Lines 276-277 for the zipped pairs. *)
Fixpoint counts2position_loop (pairs : list (string * Z)) : result (list Q) :=
  match pairs with
  | [] => Ok []
  | (count, factor) :: rest =>
      match float_of_string count with
      | None => Raise (ValueError 277)
      | Some x =>
          if Z.eqb factor 0 then Raise (ZeroDivisionError 277)
          else
            r <~ counts2position_loop rest ;;
            Ok ((x / inject_Z factor)%Q :: r)
      end
  end.

Definition _counts2position (c : Controller) (counts : list string)
    : result (list Q) :=
  factors <~ attr 276 (encoder_counts_per_um c) ;;
  counts2position_loop (combine counts factors).

Definition _position2counts (c : Controller) (position : list Q)
    : result (list Z) :=
  factors <~ attr 282 (encoder_counts_per_um c) ;;
  Ok (map (fun pf => py_round (fst pf * inject_Z (snd pf)))
          (combine position factors)).

(** *** The two conversions in binary64 arithmetic

    The conversions above compute in exact rationals.  [Binary64] embeds
    the same two methods, [_counts2position] and [_position2counts],
    with the arithmetic of CPython's [float]: every conversion, division
    and product is rounded to the nearest binary64 value, ties to the
    even significand, with gradual underflow and with overflow to an
    infinity.  The two zeros of binary64 are not told apart. *)
Module Binary64.

Definition pow2 (e : Z) : Q := Qpower 2 e.

(** The exponent of a number other than zero: the [e] with
    [2^e <= |x| < 2^(e+1)]. *)
Definition ilog2 (x : Q) : Z :=
  let e := (Z.log2 (Z.abs (Qnum x)) - Z.log2 (Zpos (Qden x)))%Z in
  if Qle_bool (pow2 e) (Qabs x) then e else (e - 1)%Z.

(** The spacing of the binary64 values around [x]: 53 significant bits,
    and no exponent below [-1022]. *)
Definition ulp (x : Q) : Q := pow2 (Z.max (ilog2 x) (-1022) - 52).

(** Rounding to the nearest multiple of the spacing, ties to even. *)
Definition nearest (x : Q) : Q :=
  if Qeq_bool x 0 then 0%Q
  else (inject_Z (py_round (x / ulp x)) * ulp x)%Q.

(** A [float]: a finite value, an infinity or a NaN. *)
Inductive double : Type :=
| Finite (x : Q)
| Infinity (negative : bool)
| NaN.

Definition is_negative (x : Q) : bool := negb (Qle_bool 0 x).

(** The [float] of a real number: what rounds to [2^1024] or beyond is
    an infinity. *)
Definition of_Q (x : Q) : double :=
  let y := nearest x in
  if Qle_bool (pow2 1024) (Qabs y) then Infinity (is_negative x)
  else Finite y.

(** [float(s)] of a [str], for the literals [float_of_string] reads. *)
Definition float_of_str (s : string) : option double :=
  option_map of_Q (float_of_string s).

(** The [int] operand of a [float] operation is converted to a [float]
    first; an [int] beyond the range of [float] raises. *)
Definition float_of_int (line : nat) (n : Z) : result Q :=
  match of_Q (inject_Z n) with
  | Finite y => Ok y
  | _ => Raise (OverflowError line)
  end.

(** [a / n] for a [float] and an [int]. *)
Definition truediv (line : nat) (a : double) (n : Z) : result double :=
  y <~ float_of_int line n ;;
  if Qeq_bool y 0 then Raise (ZeroDivisionError line)
  else
    Ok match a with
       | Finite x => of_Q (x / y)
       | Infinity s => Infinity (xorb s (is_negative y))
       | NaN => NaN
       end.

(** A position: an [int] or a [float]. *)
Inductive number : Type :=
| Int (n : Z)
| Float (a : double).

(** [p * n] for a number and an [int]. *)
Definition mul (line : nat) (p : number) (n : Z) : result number :=
  match p with
  | Int m => Ok (Int (m * n))
  | Float a =>
      y <~ float_of_int line n ;;
      Ok (Float
            match a with
            | Finite x => of_Q (x * y)
            | Infinity s =>
                if Qeq_bool y 0 then NaN
                else Infinity (xorb s (is_negative y))
            | NaN => NaN
            end)
  end.

(** [round(v)] *)
Definition round (line : nat) (v : number) : result Z :=
  match v with
  | Int m => Ok m
  | Float (Finite x) => Ok (py_round x)
  | Float (Infinity _) => Raise (OverflowError line)
  | Float NaN => Raise (ValueError line)
  end.

(** Lines 276-277. *)
Fixpoint counts2position_loop (pairs : list (string * Z))
    : result (list double) :=
  match pairs with
  | [] => Ok []
  | (count, factor) :: rest =>
      match float_of_str count with
      | None => Raise (ValueError 277)
      | Some a =>
          q <~ truediv 277 a factor ;;
          r <~ counts2position_loop rest ;;
          Ok (q :: r)
      end
  end.

Definition _counts2position (c : Controller) (counts : list string)
    : result (list double) :=
  factors <~ attr 276 (encoder_counts_per_um c) ;;
  counts2position_loop (combine counts factors).

(** Lines 282-283. *)
Fixpoint position2counts_loop (pairs : list (number * Z))
    : result (list Z) :=
  match pairs with
  | [] => Ok []
  | (position, factor) :: rest =>
      x <~ mul 283 position factor ;;
      k <~ round 283 x ;;
      r <~ position2counts_loop rest ;;
      Ok (k :: r)
  end.

Definition _position2counts (c : Controller) (position : list number)
    : result (list Z) :=
  factors <~ attr 282 (encoder_counts_per_um c) ;;
  position2counts_loop (combine position factors).

(** The real number a finite [float] or an [int] stands for. *)
Definition real_of (p : number) : option Q :=
  match p with
  | Int m => Some (inject_Z m)
  | Float (Finite x) => Some x
  | Float _ => None
  end.

(** Half the spacing at one: the unit roundoff of binary64. *)
Definition half_ulp : Q := (1 # 9007199254740992)%Q.

(** Half the spacing of the subnormal values. *)
Definition tiny : Q := pow2 (-1075).

(** The ranges in which the conversions are studied: a factor other
    than zero that fits the 53 bits of a [float], a count of at most 50
    bits, and a position whose count is of at most 50 bits. *)
Definition factor_in_range (f : Z) : Prop :=
  (f <> 0 /\ Z.abs f <= 2 ^ 53)%Z.

Definition count_in_range (k : Z) : Prop := (Z.abs k <= 2 ^ 50)%Z.

Definition position_in_range (p : number) (f : Z) : Prop :=
  factor_in_range f /\
  exists x, real_of p = Some x /\
    (Qabs (x * inject_Z f) <= inject_Z (2 ^ 50))%Q.

End Binary64.

Definition _get_position : M (list Q) :=
  axs <- reading (fun c => attr 289 (axes c)) ;;
  r <- _send ("W " ++ join " " axs) true false ;;
  s <- lift (as_str 289 r) ;;
  pos <- reading (fun c => _counts2position c (split_ws (strip delimiters s))) ;;
  update (set_position_um (Some pos)) ;;
  ret pos.

(** Lines 298-301: ask for the status until it is ['N'].  The loop has no
    bound in the source; [fuel] bounds it here. *)
Fixpoint poll_status (fuel : nat) : M unit :=
  match fuel with
  | O => raise OutOfFuel
  | S n =>
      status <- _send "/" true false ;;
      match status with
      | RStr s => if String.eqb s "N" then ret tt else poll_status n
      | _ => poll_status n
      end
  end.

(** Lines 303-305. *)
Fixpoint tolerance_loop (c : Controller) (i : nat) (ps : list Q) : result unit :=
  match ps with
  | [] => Ok tt
  | p :: rest =>
      tg <~ attr 304 (_target_move_um c) ;;
      t <~ index 304 tg i ;;
      pr <~ attr 304 (precision_um c) ;;
      e <~ index 304 pr i ;;
      rassert 304 (Qle_bool (t - e) p) ~;;
      tg' <~ attr 305 (_target_move_um c) ;;
      t' <~ index 305 tg' i ;;
      pr' <~ attr 305 (precision_um c) ;;
      e' <~ index 305 pr' i ;;
      rassert 305 (Qle_bool p (t' + e')) ~;;
      tolerance_loop c (S i) rest
  end.

(** Every successful exchange empties the receive buffer and uses up one
    reply, and an exchange with neither fails, so this many rounds of
    polling are never exhausted. *)
Definition poll_bound (c : Controller) : nat := length (device (port c)) + 2.

Definition _finish_moving : M unit :=
  moving <- reading (fun c => attr 296 (_moving c)) ;;
  if negb moving then ret tt
  else
    fuel <- reading (fun c => Ok (poll_bound c)) ;;
    poll_status fuel ;;
    _get_position ;;
    reading (fun c =>
      pos <~ attr 303 (position_um c) ;;
      tolerance_loop c 0 pos) ;;
    update (set_moving (Some false)).

(** Lines 315-321: the absolute target of every axis, range checked. *)
Fixpoint target_loop (c : Controller) (relative : bool) (i : nat)
    (ms : list value) : result (list Q) :=
  match ms with
  | [] => Ok []
  | m :: rest =>
      t0 <~ resolve 317 (position_um c) i m ;;
      t <~ (if is_number m && relative
            then (pos <~ attr 319 (position_um c) ;;
                  p <~ index 319 pos i ;;
                  Ok (p + t0)%Q)
            else Ok t0) ;;
      mn <~ attr 320 (min_position_um c) ;;
      lo <~ index 320 mn i ;;
      rassert 320 (Qle_bool lo t) ~;;
      mx <~ attr 321 (max_position_um c) ;;
      hi <~ index 321 mx i ;;
      rassert 321 (Qle_bool t hi) ~;;
      r <~ target_loop c relative (S i) rest ;;
      Ok (t :: r)
  end.

(** Lines 326-328 for the axis indices [idx]. *)
Fixpoint move_cmd_loop (c : Controller) (move : list Q) (idx : list nat)
    : result (list string) :=
  match idx with
  | [] => Ok []
  | i :: rest =>
      axs <~ attr 327 (axes c) ;;
      a <~ index 327 axs i ;;
      counts <~ _position2counts c move ;;
      k <~ index 328 counts i ;;
      let piece := (a ++ "=" ++ format_f6 (inject_Z k) ++ " ")%string in
      r <~ move_cmd_loop c move rest ;;
      Ok (piece :: r)
  end.

(** Line 313 asserts that every entry is an [int], a [float] or [None],
    which every [value] is. *)
Definition move_um (move : list value) (relative block : bool) : M unit :=
  _finish_moving ;;
  axs <- reading (fun c => attr 312 (axes c)) ;;
  assert_ 312 (Nat.eqb (length move) (length axs)) ;;
  targets <- reading (fun c => target_loop c relative 0 move) ;;
  let move := map (py_round_n 3) targets in
  axs' <- reading (fun c => attr 326 (axes c)) ;;
  pieces <- reading (fun c => move_cmd_loop c move (seq 0 (length axs'))) ;;
  _send (concat_all ("M " :: pieces)) false false ;;
  update (set_moving (Some true)) ;;
  update (set_target_move_um (Some move)) ;;
  if block then _finish_moving else ret tt.

(** *** Illumination (lines 336-385) *)

Definition get_pwm_intensity : M Z :=
  r <- _send "LED X?" true false ;;
  s <- lift (as_str 340 r) ;;
  field <- lift (index 340 (split_on "=" s) 1) ;;
  match int_of_string field with
  | None => raise (ValueError 340)
  | Some n =>
      update (set_pwm_intensity_attr (Some n)) ;;
      ret n
  end.

(** [int(v)] *)
Definition py_int (line : nat) (v : value) : result Z :=
  match v with
  | VInt n => Ok n
  | VFloat x => Ok (py_trunc x)
  | VNone => Raise (TypeError line)
  end.

Definition set_pwm_intensity (intensity : value) : M unit :=
  assert_ 349 (is_number intensity) ;;
  intensity <- lift (py_int 350 intensity) ;;
  assert_ 351 ((1 <=? intensity)%Z && (intensity <=? 99)%Z) ;;
  _send ("LED X=" ++ format_d intensity) false false ;;
  got <- get_pwm_intensity ;;
  assert_ 353 (Z.eqb got intensity).

Definition when (b : bool) (m : M unit) : M unit := if b then m else ret tt.

Definition set_pwm_state (st : string) : M unit :=
  assert_ 361 (existsb (String.eqb st) ["off"; "on"; "pwm"; "external"]) ;;
  when (String.eqb st "off")
    (_set_ttl_in_mode "disabled" ;; _set_ttl_out_mode "low") ;;
  when (String.eqb st "on")
    (_set_ttl_in_mode "disabled" ;; _set_ttl_out_mode "high") ;;
  when (String.eqb st "pwm")
    (_set_ttl_in_mode "disabled" ;; _set_ttl_out_mode "pwm") ;;
  when (String.eqb st "external")
    (_set_ttl_in_mode "toggle_ttl_out" ;; _set_ttl_out_mode "low") ;;
  update (set_state (Some st)).

Definition close : M unit :=
  st <- reading (fun c => Ok (state c)) ;;
  when (negb (match st with Some s => String.eqb s "off" | None => false end))
    (set_pwm_state "off") ;;
  update (fun c => set_port (Serial_close (port c)) c).

(** *** Construction (lines 9-83) *)

(** The object before [__init__] has set anything: only the port, which
    the caller has opened. *)
Definition blank (p : Serial) : Controller :=
  mkController p EmptyString None None None None None None None None None
    None None None None None None None None None None None None None None
    None.

(** Pitch (mm), resolution (nm) and top speed (mm/s) of each lead screw. *)
Definition screw2value : list (string * (Q * Q * Q)) :=
  [("UC", (2540 # 100, 88, 28)%Q);
   ("SC", (1270 # 100, 44, 14)%Q);
   ("S", (635 # 100, 22, 7)%Q);
   ("F", (159 # 100, 55 # 10, 175 # 100)%Q);
   ("XF", (653 # 1000, 22 # 10, 7 # 10)%Q)].

Fixpoint screw_get (d : list (string * (Q * Q * Q))) (k : string)
    : option (Q * Q * Q) :=
  match d with
  | [] => None
  | (k', v) :: rest => if String.eqb k k' then Some v else screw_get rest k
  end.

(** Lines 48-51. *)
Fixpoint screw_loop (screws : list string) (n : nat) (a : nat)
    : result (list (Q * Q * Q)) :=
  match n with
  | O => Ok []
  | S n' =>
      s <~ index 49 screws a ;;
      match screw_get screw2value s with
      | None => Raise (KeyError 49)
      | Some v => r <~ screw_loop screws n' (S a) ;; Ok (v :: r)
      end
  end.

Definition number_of (v : value) : Q :=
  match v with
  | VNone => 0
  | VInt n => inject_Z n
  | VFloat x => x
  end.

Definition is_int (v : value) : bool :=
  match v with VInt _ => true | _ => false end.

Definition int_of (v : value) : Z :=
  match v with VInt n => n | _ => 0%Z end.

Definition some_or_assert {A : Type} (line : nat) (o : option A) : result A :=
  match o with
  | Some a => Ok a
  | None => Raise (AssertionError line)
  end.

(** Lines 37-73: checks the stage arguments and sets the configuration
    attributes. *)
Definition configure_axes (axs : list string) (lead_screws : option (list string))
    (axes_min_mm axes_max_mm encoder : option (list value)) : M unit :=
  assert_ 37 (list_eqb String.eqb axs ["X"; "Y"]
              || list_eqb String.eqb axs ["Z"]
              || list_eqb String.eqb axs ["X"; "Y"; "Z"]) ;;
  screws <- lift (some_or_assert 39 lead_screws) ;;
  assert_ 40 (Nat.eqb (length screws) (length axs)) ;;
  triples <- lift (screw_loop screws (length axs) 0) ;;
  mins <- lift (some_or_assert 55 axes_min_mm) ;;
  maxs <- lift (some_or_assert 56 axes_max_mm) ;;
  assert_ 57 (Nat.eqb (length mins) (length axs)) ;;
  assert_ 58 (Nat.eqb (length maxs) (length axs)) ;;
  assert_ 59 (forallb is_number mins) ;;
  assert_ 60 (forallb is_number maxs) ;;
  counts <- (match encoder with
             | None => ret (repeat 10%Z (length axs))
             | Some e =>
                 assert_ 65 (Nat.eqb (length e) (length axs)) ;;
                 assert_ 66 (forallb is_int e) ;;
                 ret (map int_of e)
             end) ;;
  let n := length axs in
  update (fun c =>
    mkController (port c) (version c) (_ttl_in_mode c) (_ttl_out_mode c)
      (state c) (pwm_intensity c)
      (Some axs)
      (Some (map (fun t => fst (fst t)) triples))
      (Some (map (fun t => snd (fst t)) triples))
      (Some (map (fun t => snd t) triples))
      (Some (map (fun v => (1000 * number_of v)%Q) mins))
      (Some (map (fun v => (1000 * number_of v)%Q) maxs))
      (Some counts)
      (Some (repeat 25%Q n))
      (Some (repeat 1000%Q n))
      (Some (repeat 1000%Q n))
      (Some (repeat 1%Q n))
      (Some (repeat 1%Q n))
      (Some (repeat 1000000%Q n))
      (velocity_mmps c) (acceleration_ms c) (settle_time_ms c)
      (precision_um c) (position_um c) (_moving c) (_target_move_um c)).

Definition __init__ (axs lead_screws : option (list string))
    (axes_min_mm axes_max_mm encoder : option (list value))
    (use_pwm : bool) : M unit :=
  r <- _send "V" true false ;;
  s <- lift (as_str 30 r) ;;
  let v := strip delimiters s in
  update (fun c =>
    mkController (port c) v (_ttl_in_mode c) (_ttl_out_mode c)
      (state c) (pwm_intensity c) (axes c) (pitch_mm c) (resolution_nm c)
      (max_velocity_mmps c) (min_position_um c) (max_position_um c)
      (encoder_counts_per_um c) (min_acceleration_ms c)
      (max_acceleration_ms c) (max_settle_time_ms c) (tol_settle_time_ms c)
      (min_precision_um c) (max_precision_um c) (velocity_mmps c)
      (acceleration_ms c) (settle_time_ms c) (precision_um c)
      (position_um c) (_moving c) (_target_move_um c)) ;;
  assert_ 31 (String.eqb v "Version: USB-9.2k") ;;
  _set_ttl_in_mode "disabled" ;;
  _set_ttl_out_mode "low" ;;
  update (set_state None) ;;
  match axs with
  | None => ret tt
  | Some a =>
      configure_axes a lead_screws axes_min_mm axes_max_mm encoder ;;
      vmax <- reading (fun c => attr 74 (max_velocity_mmps c)) ;;
      _set_velocity (map (fun v => VFloat ((67 # 100) * v)) vmax) ;;
      amin <- reading (fun c => attr 75 (min_acceleration_ms c)) ;;
      _set_acceleration (map VFloat amin) ;;
      _set_settle_time (repeat (VInt 0) (length a)) ;;
      pmin <- reading (fun c => attr 77 (min_precision_um c)) ;;
      _set_precision (map VFloat pmin) ;;
      _get_position ;;
      update (set_moving (Some false))
  end ;;
  when use_pwm (set_pwm_state "off" ;; set_pwm_intensity (VInt 1)).

(** [Controller(...)]: the new object, or the exception of [__init__]. *)
Definition Controller_new (which_port : Serial)
    (axs lead_screws : option (list string))
    (axes_min_mm axes_max_mm encoder : option (list value))
    (use_pwm : bool) : result Controller :=
  match __init__ axs lead_screws axes_min_mm axes_max_mm encoder use_pwm
          (blank which_port) with
  | (Ok _, c) => Ok c
  | (Raise e, _) => Raise e
  end.

(** ** The exchange with the device, and what the specification names *)

Definition CRLF : string := String CR (String LF EmptyString).

(** One command line written and one line read back, on the port alone. *)
Definition exchange (p : Serial) (cmd : string) : string * Serial :=
  Serial_readline (Serial_write p (cmd ++ String CR EmptyString)).

(** A reply that [readline] takes whole: decodable, and nothing after its
    line feed.  The empty reply is a device that stays silent. *)
Definition clean_reply (s : string) : bool :=
  is_ascii s && is_empty (snd (take_line s)).

(** The device's answer to an axis query: every axis with its value in
    the six-decimal text of the wire. *)
Definition axis_reply (axs : list string) (vs : list Q) : string :=
  (":A " ++ concat_all (map (fun av => fst av ++ "=" ++ format_f6 (snd av) ++ " ")
                            (combine axs vs)) ++ CRLF)%string.

(** The device's answer to a TTL register query. *)
Definition ttl_reply (register code : string) : string :=
  (":A " ++ register ++ "=" ++ code ++ CRLF)%string.

(** The device's answer to the intensity query. *)
Definition led_reply (n : Z) : string :=
  ("X=" ++ format_d n ++ " :A " ++ CRLF)%string.

(** The registers of each named illumination state, as the
    specification tabulates them: input mode, then output mode. *)
Definition state_table : list (string * (string * string)) :=
  [("off", ("disabled", "low"));
   ("on", ("disabled", "high"));
   ("pwm", ("disabled", "pwm"));
   ("external", ("toggle_ttl_out", "low"))].

Fixpoint table_get (t : list (string * (string * string))) (k : string)
    : option (string * string) :=
  match t with
  | [] => None
  | (k', v) :: rest => if String.eqb k k' then Some v else table_get rest k
  end.

(** The wire codes of the TTL modes. *)
Definition ttl_in_code : list (string * string) :=
  [("disabled", "0"); ("toggle_ttl_out", "10")].

Definition ttl_out_code : list (string * string) :=
  [("low", "0"); ("high", "1"); ("pwm", "9")].

(** The illumination state determines the recorded registers. *)
Definition illumination_consistent (c : Controller) : Prop :=
  forall st, state c = Some st ->
    exists row, table_get state_table st = Some row /\
      _ttl_in_mode c = Some (fst row) /\ _ttl_out_mode c = Some (snd row).

(** The three axis sequences the constructor accepts. *)
Definition supported_axes (axs : list string) : Prop :=
  axs = ["X"; "Y"] \/ axs = ["Z"] \/ axs = ["X"; "Y"; "Z"].

(** The port after one clean exchange, and the controller holding it. *)
Definition advance (p : Serial) (cmd : string) (rest : list string) : Serial :=
  {| is_open := is_open p;
     written := written p ++ [(cmd ++ String CR EmptyString)%string];
     in_buffer := EmptyString;
     device := rest |}.

Definition sent (cmd : string) (rest : list string) (c : Controller) : Controller :=
  set_port (advance (port c) cmd rest) c.

(** The port is open with nothing pending, and the device will answer
    the next command with [reply]. *)
Definition ready (c : Controller) (reply : string) (rest : list string) : Prop :=
  is_open (port c) = true /\ in_buffer (port c) = EmptyString /\
  device (port c) = reply :: rest /\ clean_reply reply = true.

(** ** The loops, one iteration at a time

    Each per-axis loop of the source runs the same scheme: the entries in
    order, the first exception ending the loop.  [each] is that scheme;
    the [_step] functions are the loop bodies. *)

Fixpoint each {A B : Type} (step : nat -> A -> result B) (i : nat)
    (vs : list A) : result (list B) :=
  match vs with
  | [] => Ok []
  | v :: rest =>
      y <~ step i v ;;
      r <~ each step (S i) rest ;;
      Ok (y :: r)
  end.

Definition velocity_step (c : Controller) (i : nat) (v : value)
    : result (Q * string) :=
  x <~ resolve 170 (velocity_mmps c) i v ;;
  (if Qle_bool 0 x
   then (mx <~ attr 171 (max_velocity_mmps c) ;;
         m <~ index 171 mx i ;;
         rassert 171 (Qle_bool x m))
   else Raise (AssertionError 171)) ~;;
  let x6 := py_round_n 6 x in
  axs <~ attr 173 (axes c) ;;
  a <~ index 173 axs i ;;
  Ok (x6, ("V" ++ a ++ "=" ++ format_f6 x6 ++ " ")%string).

Definition acceleration_step (c : Controller) (i : nat) (v : value)
    : result (Q * string) :=
  x <~ resolve 199 (acceleration_ms c) i v ;;
  let a := inject_Z (py_round x) in
  mn <~ attr 201 (min_acceleration_ms c) ;;
  lo <~ index 201 mn i ;;
  rassert 201 (Qle_bool lo a) ~;;
  mx <~ attr 202 (max_acceleration_ms c) ;;
  hi <~ index 202 mx i ;;
  rassert 202 (Qle_bool a hi) ~;;
  axs <~ attr 203 (axes c) ;;
  ax <~ index 203 axs i ;;
  Ok (a, ("AC" ++ ax ++ "=" ++ format_f6 a ++ " ")%string).

Definition settle_time_step (c : Controller) (i : nat) (v : value)
    : result (Q * string) :=
  x <~ resolve 229 (settle_time_ms c) i v ;;
  let t := inject_Z (py_round x) in
  (if Qle_bool 0 t
   then (mx <~ attr 231 (max_settle_time_ms c) ;;
         m <~ index 231 mx i ;;
         rassert 231 (Qle_bool t m))
   else Raise (AssertionError 231)) ~;;
  axs <~ attr 232 (axes c) ;;
  ax <~ index 232 axs i ;;
  Ok (t, ("WT" ++ ax ++ "=" ++ format_f6 t ++ " ")%string).

Definition precision_step (c : Controller) (i : nat) (v : value)
    : result (Q * string) :=
  x <~ resolve 262 (precision_um c) i v ;;
  let p := inject_Z (py_round x) in
  mn <~ attr 264 (min_precision_um c) ;;
  lo <~ index 264 mn i ;;
  rassert 264 (Qle_bool lo p) ~;;
  mx <~ attr 265 (max_precision_um c) ;;
  hi <~ index 265 mx i ;;
  rassert 265 (Qle_bool p hi) ~;;
  axs <~ attr 267 (axes c) ;;
  ax <~ index 267 axs i ;;
  Ok (p, ("PC" ++ ax ++ "=" ++ format_f6 ((1 # 1000000) * p) ++ " ")%string).

Definition target_step (c : Controller) (relative : bool) (i : nat)
    (m : value) : result Q :=
  t0 <~ resolve 317 (position_um c) i m ;;
  t <~ (if is_number m && relative
        then (pos <~ attr 319 (position_um c) ;;
              p <~ index 319 pos i ;;
              Ok (p + t0)%Q)
        else Ok t0) ;;
  mn <~ attr 320 (min_position_um c) ;;
  lo <~ index 320 mn i ;;
  rassert 320 (Qle_bool lo t) ~;;
  mx <~ attr 321 (max_position_um c) ;;
  hi <~ index 321 mx i ;;
  rassert 321 (Qle_bool t hi) ~;;
  Ok t.

(** ** The four parameters, as the specification groups them *)

Inductive parameter : Type := Velocity | Acceleration | SettleTime | Precision.

Definition setter (p : parameter) : list value -> M unit :=
  match p with
  | Velocity => _set_velocity
  | Acceleration => _set_acceleration
  | SettleTime => _set_settle_time
  | Precision => _set_precision
  end.

Definition getter (p : parameter) : M (list Q) :=
  match p with
  | Velocity => _get_velocity
  | Acceleration => _get_acceleration
  | SettleTime => _get_settle_time
  | Precision => _get_precision
  end.

(** The value the range check of the setter compares with the bounds. *)
Definition checked (p : parameter) (x : Q) : Q :=
  match p with
  | Velocity => x
  | _ => inject_Z (py_round x)
  end.

(** The value the setter intends: the entry after its rounding rule. *)
Definition intended (p : parameter) (x : Q) : Q :=
  match p with
  | Velocity => py_round_n 6 x
  | _ => inject_Z (py_round x)
  end.

(** The number put on the wire for an intended value. *)
Definition on_wire (p : parameter) (y : Q) : Q :=
  match p with
  | Precision => ((1 # 1000000) * y)%Q
  | _ => y
  end.

Definition at_index (l : option (list Q)) (i : nat) : option Q :=
  match l with
  | Some xs => nth_error xs i
  | None => None
  end.

Definition lower_bound (p : parameter) (c : Controller) (i : nat) : option Q :=
  match p with
  | Velocity => Some 0%Q
  | Acceleration => at_index (min_acceleration_ms c) i
  | SettleTime => Some 0%Q
  | Precision => at_index (min_precision_um c) i
  end.

Definition upper_bound (p : parameter) (c : Controller) (i : nat) : option Q :=
  match p with
  | Velocity => at_index (max_velocity_mmps c) i
  | Acceleration => at_index (max_acceleration_ms c) i
  | SettleTime => at_index (max_settle_time_ms c) i
  | Precision => at_index (max_precision_um c) i
  end.

(** The source lines of the two range assertions of each setter: the
    one that fails below the lower bound, and the one above the upper. *)
Definition lower_line (p : parameter) : nat :=
  match p with
  | Velocity => 171
  | Acceleration => 201
  | SettleTime => 231
  | Precision => 264
  end.

Definition upper_line (p : parameter) : nat :=
  match p with
  | Velocity => 171
  | Acceleration => 202
  | SettleTime => 231
  | Precision => 265
  end.


(** The loop body of each setter, and the prefix of its command pieces. *)
Definition param_step (p : parameter) : Controller -> nat -> value -> result (Q * string) :=
  match p with
  | Velocity => velocity_step
  | Acceleration => acceleration_step
  | SettleTime => settle_time_step
  | Precision => precision_step
  end.

(** The loop of each setter, by parameter. *)
Definition setter_loop (p : parameter) (c : Controller) (vs : list value)
    : result (list Q * list string) :=
  rbind (each (param_step p c) 0 vs) (fun r => Ok (map fst r, map snd r)).

Definition piece_prefix (p : parameter) : string :=
  match p with
  | Velocity => "V"
  | Acceleration => "AC"
  | SettleTime => "WT"
  | Precision => "PC"
  end.

Definition keyword (p : parameter) : string :=
  match p with
  | Velocity => "S "
  | Acceleration => "AC "
  | SettleTime => "WT "
  | Precision => "PC "
  end.

(** Every per-axis tuple of the controller has one entry per axis. *)
Definition per_axis (n : nat) (l : option (list Q)) : Prop :=
  exists xs, l = Some xs /\ length xs = n.

Definition well_formed (c : Controller) : Prop :=
  exists axs, axes c = Some axs /\
    Forall (per_axis (length axs))
      [max_velocity_mmps c; min_position_um c; max_position_um c;
       min_acceleration_ms c; max_acceleration_ms c; max_settle_time_ms c;
       tol_settle_time_ms c; min_precision_um c; max_precision_um c;
       position_um c].

(** [lo <= y <= hi] *)
Definition in_range (lo y hi : Q) : bool := Qle_bool lo y && Qle_bool y hi.

(** The source line of the type assertion of each setter. *)
Definition type_line (p : parameter) : nat :=
  match p with
  | Velocity => 165
  | Acceleration => 194
  | SettleTime => 224
  | Precision => 257
  end.

(** The absolute target of an entry of [move_um]: the current position
    for an unspecified entry, the number itself for an absolute move, the
    current position plus the number for a relative one. *)
Definition target_of (c : Controller) (relative : bool) (i : nat)
    (m : value) : option Q :=
  match m with
  | VNone => at_index (position_um c) i
  | _ =>
      if relative
      then option_map (fun p => (p + number_of m)%Q) (at_index (position_um c) i)
      else Some (number_of m)
  end.

(** ** Sample sessions

    Controllers and device scripts on which the properties below are
    exercised. *)

(** A freshly opened port whose device will give [replies]. *)
Definition port_with (replies : list string) : Serial :=
  mkSerial true [] EmptyString replies.

(** The acknowledgement of a command that returns no value. *)
Definition ack : string := (":A " ++ CRLF)%string.

(** A response line of the standard shape. *)
Definition line_of (body : string) : string := (":A " ++ body ++ CRLF)%string.

(** The replies of a device during the construction of a controller
    without axes. *)
Definition init_script : list string :=
  [line_of "Version: USB-9.2k"; ack; ttl_reply "X" "0"; ack; ttl_reply "Y" "0"].

(** The controller without axes that [__init__] builds, its device
    holding [replies] for later. *)
Definition plain_controller (replies : list string) : Controller :=
  match Controller_new (port_with (init_script ++ replies))
          None None None None None false with
  | Ok c => c
  | Raise _ => blank (port_with replies)
  end.

(** The replies of a device during the construction of an X-Y stage with
    standard lead screws, found at encoder counts [(0, 0)]. *)
Definition xy_init_script : list string :=
  init_script ++
  [ack; axis_reply ["X"; "Y"] [469 # 100; 469 # 100]%Q;
   ack; axis_reply ["X"; "Y"] [25; 25]%Q;
   ack; axis_reply ["X"; "Y"] [0; 0]%Q;
   ack; axis_reply ["X"; "Y"] [1 # 1000000; 1 # 1000000]%Q;
   line_of "0 0"].

(** The X-Y stage of the source's demonstration: ranges of 50 mm and
    25 mm either way. *)
Definition xy_stage (replies : list string) : Controller :=
  match Controller_new (port_with (xy_init_script ++ replies))
          (Some ["X"; "Y"]) (Some ["S"; "S"])
          (Some [VInt (-50); VInt (-25)]) (Some [VInt 50; VInt 25])
          None false with
  | Ok c => c
  | Raise _ => blank (port_with replies)
  end.

(** The same object with another axis sequence. *)
Definition with_axes (axs : list string) (c : Controller) : Controller :=
  mkController (port c) (version c) (_ttl_in_mode c) (_ttl_out_mode c)
    (state c) (pwm_intensity c) (Some axs) (pitch_mm c) (resolution_nm c)
    (max_velocity_mmps c) (min_position_um c) (max_position_um c)
    (encoder_counts_per_um c) (min_acceleration_ms c) (max_acceleration_ms c)
    (max_settle_time_ms c) (tol_settle_time_ms c) (min_precision_um c)
    (max_precision_um c) (velocity_mmps c) (acceleration_ms c)
    (settle_time_ms c) (precision_um c) (position_um c) (_moving c)
    (_target_move_um c).

(** ** Notions used by the properties *)

Definition range_error (e : exn) : Prop :=
  e = AssertionError 320 \/ e = AssertionError 321.

Definition foreign {A : Type} (m : M A) : Prop :=
  forall c e c', m c = (Raise e, c') -> ~ range_error e.

Definition rforeign {A : Type} (r : result A) : Prop :=
  forall e, r = Raise e -> ~ range_error e.

Definition is_digit (c : ascii) : bool := in_chars "0123456789" c.

(** A character that neither [strip] nor [split] touches. *)
Definition solid (c : ascii) : bool :=
  is_ascii_char c && negb (is_space c) && negb (in_chars delimiters c).

(** A character of an axis name or of a number: solid and not [=]. *)
Definition word_char (c : ascii) : bool := solid c && negb (Ascii.eqb c "=").

(** A character of a number in fixed-point text. *)
Definition numeric_char (c : ascii) : bool :=
  is_digit c || Ascii.eqb c "." || Ascii.eqb c "-".

(** A word: not empty, with solid characters only. *)
Definition word (t : string) : Prop :=
  is_empty t = false /\ string_forallb solid t = true.

(** The words of a response body, each followed by a space. *)
Definition spaced (toks : list string) : string :=
  concat_all (map (fun t => (t ++ " ")%string) toks).

(** A character that may stand inside a line: ASCII and not a line
    feed. *)
Definition line_char (c : ascii) : bool :=
  is_ascii_char c && negb (Ascii.eqb c LF).

(** An axis name that survives stripping and splitting: not empty, of
    solid characters other than [=]. *)
Definition axis_name (a : string) : Prop :=
  is_empty a = false /\ string_forallb word_char a = true.

(** One [axis=value] word of a reply. *)
Definition axis_word (av : string * Q) : string :=
  (fst av ++ String "=" (format_f6 (snd av)))%string.

(** The attribute a getter stores its result in. *)
Definition set_current (p : parameter) (v : option (list Q)) : Controller -> Controller :=
  match p with
  | Velocity => set_velocity_mmps v
  | Acceleration => set_acceleration_ms v
  | SettleTime => set_settle_time_ms v
  | Precision => set_precision_um v
  end.

(** What a getter makes of a decoded value. *)
Definition received (p : parameter) (w : Q) : Q :=
  match p with
  | Precision => inject_Z (py_round (inject_Z 1000000 * w))
  | _ => w
  end.

(** An indexed [map]. *)
Fixpoint imap {A B : Type} (f : nat -> A -> B) (i : nat) (l : list A) : list B :=
  match l with
  | [] => []
  | a :: rest => f i a :: imap f (S i) rest
  end.

(** The command piece of an entry at axis [i]. *)
Definition piece (p : parameter) (axs : list string) (i : nat) (v : value) : string :=
  (piece_prefix p ++ nth i axs EmptyString ++ "="
     ++ format_f6 (on_wire p (intended p (number_of v))) ++ " ")%string.


(** The command line of a setter for the entries [X]. *)
Definition set_cmd (p : parameter) (axs : list string) (X : list value) : string :=
  concat_all (keyword p :: imap (piece p axs) 0 X).

(** A number that is an integer. *)
Definition integral (q : Q) : Prop := exists z, (q == inject_Z z)%Q.

(** The limits of the three integer-valued parameters are integers, and
    no settle-time tolerance is negative, as [__init__] sets them. *)
Definition sound_limits (c : Controller) : Prop :=
  (forall p k b, p <> Velocity ->
     lower_bound p c k = Some b \/ upper_bound p c k = Some b -> integral b) /\
  (forall tol d, tol_settle_time_ms c = Some tol -> In d tol -> (0 <= d)%Q).

(** An exception of Python, as opposed to the mark of a polling loop cut
    off by the model's iteration bound. *)
Definition genuine (e : exn) : Prop := e <> OutOfFuel.

(** Whatever the method raises is an exception of Python. *)
Definition in_python {A : Type} (m : M A) : Prop :=
  forall c e c', m c = (Raise e, c') -> genuine e.

Definition rin_python {A : Type} (r : result A) : Prop :=
  forall e, r = Raise e -> genuine e.

(** [keeps view m]: whatever [m] does, also when it raises, the [view]
    of the controller is afterwards what it was before. *)
Definition keeps {A X : Type} (view : Controller -> X) (m : M A) : Prop :=
  forall c, view (snd (m c)) = view c.

(** The illumination record: the two TTL registers, the named state and
    the intensity. *)
Definition lamp (c : Controller)
    : option string * option string * option string * option Z :=
  (_ttl_in_mode c, _ttl_out_mode c, state c, pwm_intensity c).

(** The configuration [__init__] derives from its arguments: the axes,
    the lead screw data, the travel range, the encoder factors and the
    limits of the parameters. *)
Definition configuration (c : Controller)
    : string * option (list string) * list (option (list Q))
      * option (list Z) :=
  (version c, axes c,
   [pitch_mm c; resolution_nm c; max_velocity_mmps c;
    min_position_um c; max_position_um c;
    min_acceleration_ms c; max_acceleration_ms c;
    max_settle_time_ms c; tol_settle_time_ms c;
    min_precision_um c; max_precision_um c],
   encoder_counts_per_um c).

(** The record of the stage: the parameters as last reported, the
    position, and the pending move. *)
Definition motion (c : Controller)
    : list (option (list Q)) * option bool * option (list Q) :=
  ([velocity_mmps c; acceleration_ms c; settle_time_ms c; precision_um c;
    position_um c], _moving c, _target_move_um c).

(** The source line on which each setter compares what the device
    reports with what was sent; the settle time is compared on two
    lines, within its tolerance. *)
Definition verify_line (p : parameter) : nat :=
  match p with
  | Velocity => 175
  | Acceleration => 205
  | SettleTime => 236
  | Precision => 269
  end.

(** What the consistency of the illumination record is about: the two
    TTL registers and the named state. *)
Definition registers (c : Controller)
    : option string * option string * option string :=
  (_ttl_in_mode c, _ttl_out_mode c, state c).



(** * Properties *)

(** ** Reasoning about method runs *)

Lemma bind_ok {A B : Type} (m : M A) (f : A -> M B) c b c' :
  bind m f c = (Ok b, c') ->
  exists a c1, m c = (Ok a, c1) /\ f a c1 = (Ok b, c').
Proof.
  unfold bind. destruct (m c) as [[a|e] c1]; intros H.
  - exists a, c1. split; [reflexivity | exact H].
  - discriminate.
Qed.

Lemma bind_run {A B : Type} (m : M A) (f : A -> M B) c a c1 :
  m c = (Ok a, c1) -> bind m f c = f a c1.
Proof. intros H. unfold bind. rewrite H. reflexivity. Qed.


Lemma assert_ok line b c u c' :
  assert_ line b c = (Ok u, c') -> b = true /\ c' = c.
Proof.
  unfold assert_, ret, raise. destruct b; intros H; inversion H; auto.
Qed.

Lemma rbind_ok {A B : Type} (r : result A) (f : A -> result B) b :
  rbind r f = Ok b -> exists a, r = Ok a /\ f a = Ok b.
Proof. destruct r; simpl; intros H; [eauto | discriminate]. Qed.

Lemma rassert_ok line b u : rassert line b = Ok u -> b = true.
Proof. destruct b; simpl; [reflexivity | discriminate]. Qed.

Lemma attr_ok {A : Type} line (o : option A) a : attr line o = Ok a -> o = Some a.
Proof. destruct o; simpl; intros H; inversion H; reflexivity. Qed.

Lemma index_ok {A : Type} line (l : list A) i a :
  index line l i = Ok a -> nth_error l i = Some a.
Proof.
  unfold index. destruct (nth_error l i); intros H; inversion H; reflexivity.
Qed.

(** Takes apart a hypothesis saying that a method run succeeded. *)
Ltac inv_run H :=
  lazymatch type of H with
  | bind _ _ _ = (Ok _, _) =>
      let a := fresh "a" in
      let c1 := fresh "c" in
      let H1 := fresh "R" in
      let H2 := fresh "R" in
      apply bind_ok in H; destruct H as (a & c1 & H1 & H2);
      inv_run H1; inv_run H2
  | assert_ _ _ _ = (Ok _, _) =>
      let E := fresh "E" in
      apply assert_ok in H; destruct H as [E ->]
  | ret _ _ = (Ok _, _) => unfold ret in H; inversion H; subst; clear H
  | raise _ _ = (Ok _, _) => discriminate H
  | lift _ _ = (Ok _, _) => unfold lift in H; inversion H; subst; clear H
  | reading _ _ = (Ok _, _) =>
      unfold reading in H;
      let E := fresh "E" in
      injection H as E <-
  | update _ _ = (Ok _, _) => unfold update in H; inversion H; subst; clear H
  | _ => idtac
  end.

(** ** [_send] *)

Lemma list_eqb_string_eq (l1 l2 : list string) :
  list_eqb String.eqb l1 l2 = true <-> l1 = l2.
Proof.
  revert l2. induction l1 as [|x r IH]; intros [|y r2]; simpl;
    try (split; [discriminate | discriminate]); try tauto.
  rewrite andb_true_iff, String.eqb_eq, IH. split.
  - intros [-> ->]. reflexivity.
  - intros H. inversion H. auto.
Qed.

Lemma take_line_app s : (fst (take_line s) ++ snd (take_line s))%string = s.
Proof.
  induction s as [|ch s IH]; simpl; [reflexivity|].
  destruct (Ascii.eqb ch LF); simpl; [reflexivity|].
  destruct (take_line s) as [l r]. simpl in *. now rewrite IH.
Qed.

Lemma is_empty_true s : is_empty s = true -> s = EmptyString.
Proof. destruct s; simpl; [reflexivity | discriminate]. Qed.

Lemma string_app_nil_r (s : string) : (s ++ "")%string = s.
Proof. induction s; simpl; [reflexivity | now rewrite IHs]. Qed.

Lemma take_line_clean s :
  clean_reply s = true -> take_line s = (s, EmptyString) /\ is_ascii s = true.
Proof.
  unfold clean_reply. rewrite andb_true_iff. intros [Ha He].
  apply is_empty_true in He. split; [|exact Ha].
  pose proof (take_line_app s) as Happ. rewrite He in Happ.
  rewrite string_app_nil_r in Happ.
  destruct (take_line s) as [l r]. simpl in *. now subst.
Qed.

(** With an empty receive buffer, a clean reply is read back whole and
    leaves the buffer empty. *)
Lemma exchange_clean p cmd reply rest :
  in_buffer p = EmptyString -> device p = reply :: rest ->
  clean_reply reply = true ->
  exchange p cmd =
    (reply, {| is_open := is_open p;
               written := written p ++ [(cmd ++ String CR EmptyString)%string];
               in_buffer := EmptyString; device := rest |}).
Proof.
  intros Hb Hd Hc. unfold exchange, Serial_readline, Serial_write. simpl.
  rewrite Hb, Hd. simpl.
  destruct (take_line_clean _ Hc) as [-> _]. reflexivity.
Qed.

Lemma set_port_twice p q c : set_port p (set_port q c) = set_port p c.
Proof. reflexivity. Qed.

Lemma readline_is_open p : is_open (snd (Serial_readline p)) = is_open p.
Proof.
  unfold Serial_readline. destruct (take_line (in_buffer p)). reflexivity.
Qed.

Lemma port_write_ok line data c u c' :
  port_write line data c = (Ok u, c') ->
  is_open (port c) = true /\ c' = set_port (Serial_write (port c) data) c.
Proof.
  unfold port_write. destruct (is_open (port c)); intros H; inversion H; auto.
Qed.

Lemma port_readline_ok line c l c' :
  port_readline line c = (Ok l, c') ->
  l = fst (Serial_readline (port c)) /\
  c' = set_port (snd (Serial_readline (port c))) c.
Proof.
  unfold port_readline. destruct (is_open (port c)); [|discriminate].
  destruct (Serial_readline (port c)). intros H; inversion H; auto.
Qed.

Lemma port_in_waiting_ok line c n c' :
  port_in_waiting line c = (Ok n, c') -> n = in_waiting (port c) /\ c' = c.
Proof.
  unfold port_in_waiting. destruct (is_open (port c)); intros H; inversion H; auto.
Qed.

(** What a successful [_send] tells: the port was open, the exchange took
    place and emptied the buffer, nothing else changed, and the response
    is the decoded line. *)
Lemma send_ok cmd respond parse c r c' :
  _send cmd respond parse c = (Ok r, c') ->
  is_open (port c) = true /\
  c' = set_port (snd (exchange (port c) cmd)) c /\
  in_buffer (snd (exchange (port c) cmd)) = EmptyString /\
  decode_response (axes c) respond parse
    (strip delimiters (fst (exchange (port c) cmd))) = Ok r.
Proof.
  unfold _send, exchange. intros H.
  apply bind_ok in H. destruct H as (u0 & c0 & H0 & H).
  destruct (is_ascii cmd); [|discriminate H0].
  unfold ret in H0. injection H0 as _ <-.
  apply bind_ok in H. destruct H as (u1 & c1 & H1 & H).
  apply port_write_ok in H1. destruct H1 as [Hopen ->].
  apply bind_ok in H. destruct H as (raw & c2 & H2 & H).
  apply port_readline_ok in H2. cbn [port set_port] in H2.
  rewrite set_port_twice in H2. destruct H2 as [-> ->].
  set (x := Serial_readline (Serial_write (port c) (cmd ++ String CR EmptyString))) in *.
  apply bind_ok in H. destruct H as (u3 & c3 & H3 & H).
  destruct (is_ascii (fst x)); [|discriminate H3].
  unfold ret in H3. injection H3 as _ <-.
  apply bind_ok in H. destruct H as (r0 & c4 & H4 & H).
  unfold reading in H4. injection H4 as H4 <-. cbn [axes set_port] in H4.
  apply bind_ok in H. destruct H as (n & c5 & H5 & H).
  apply bind_ok in H. destruct H as (u6 & c6 & H6 & H).
  unfold ret in H. injection H as <- <-.
  apply assert_ok in H6. destruct H6 as [Hn ->].
  apply port_in_waiting_ok in H5. destruct H5 as [-> ->].
  cbn [port set_port] in Hn.
  apply Nat.eqb_eq in Hn. unfold in_waiting in Hn.
  repeat split; auto.
  destruct (in_buffer (snd x)); [reflexivity | discriminate Hn].
Qed.

(** A run of [_send] on a ready port: one exchange, then the decoding. *)
Lemma send_run cmd respond parse c reply rest :
  is_ascii cmd = true -> ready c reply rest ->
  _send cmd respond parse c =
    (decode_response (axes c) respond parse (strip delimiters reply),
     sent cmd rest c).
Proof.
  intros Hc (Ho & Hb & Hd & Hr).
  pose proof (exchange_clean (port c) cmd reply rest Hb Hd Hr) as Hx.
  destruct (take_line_clean _ Hr) as [_ Ha].
  unfold _send. rewrite Hc.
  unfold bind at 1. unfold ret at 1.
  unfold bind at 1. unfold port_write. rewrite Ho.
  unfold bind at 1. unfold port_readline. cbn [port set_port].
  change (is_open (Serial_write (port c) (cmd ++ String CR EmptyString)))
    with (is_open (port c)).
  rewrite Ho. fold (exchange (port c) cmd). rewrite Hx.
  rewrite set_port_twice. fold (advance (port c) cmd rest). fold (sent cmd rest c).
  rewrite Ha. unfold bind at 1. unfold ret at 1.
  unfold bind at 1. unfold reading. cbn [axes sent set_port].
  destruct (decode_response _ _ _ _) as [r|e]; [|reflexivity].
  unfold bind at 1. unfold port_in_waiting.
  cbn [sent port set_port advance is_open in_waiting in_buffer]. rewrite Ho.
  reflexivity.
Qed.

Lemma decode_axes_ok self_axes line r :
  decode_response self_axes true true line = Ok r ->
  exists names vs, r = RTuple vs /\
    parse_axes_loop (split_ws line) = Ok (names, vs) /\
    self_axes = Some names.
Proof.
  unfold decode_response. intros H.
  apply rbind_ok in H. destruct H as (u & _ & H).
  apply rbind_ok in H. destruct H as ([names vs] & Hp & H).
  apply rbind_ok in H. destruct H as (axs & Ha & H).
  apply rbind_ok in H. destruct H as (u' & He & H).
  apply rassert_ok in He. apply list_eqb_string_eq in He.
  apply attr_ok in Ha. simpl in He. subst axs.
  injection H as <-. exists names, vs. auto.
Qed.

Lemma decode_str_ok self_axes line r :
  decode_response self_axes true false line = Ok r ->
  r = RStr line /\ is_empty line = false.
Proof.
  unfold decode_response. intros H.
  apply rbind_ok in H. destruct H as (u & Hn & H).
  apply rassert_ok in Hn. apply negb_true_iff in Hn.
  injection H as <-. auto.
Qed.

Lemma exchange_written p cmd :
  written (snd (exchange p cmd)) = written p ++ [(cmd ++ String CR EmptyString)%string].
Proof.
  unfold exchange, Serial_readline, Serial_write. cbn [in_buffer].
  destruct (take_line _). reflexivity.
Qed.

Lemma exchange_is_open p cmd : is_open (snd (exchange p cmd)) = is_open p.
Proof. unfold exchange. now rewrite readline_is_open. Qed.

Lemma exchange_device p cmd : device (snd (exchange p cmd)) = tl (device p).
Proof.
  unfold exchange, Serial_readline, Serial_write. cbn [in_buffer].
  destruct (take_line _). reflexivity.
Qed.

(** *** C6 *)

(** C6.  A response decoded with [parse_axes] is returned only when the
    axis names of its [axis=value] tokens, in their order, are the
    controller's axis sequence; a response whose names differ raises the
    assertion error of line 99. *)
Theorem send_parse_axes_checked (c : Controller) (cmd : string) :
  (forall r c', _send cmd true true c = (Ok r, c') ->
     exists names vs, r = RTuple vs /\
       parse_axes_loop
         (split_ws (strip delimiters (fst (exchange (port c) cmd))))
         = Ok (names, vs) /\
       axes c = Some names) /\
  (forall reply rest names vs axs,
     is_ascii cmd = true -> ready c reply rest ->
     is_empty (strip delimiters reply) = false ->
     parse_axes_loop (split_ws (strip delimiters reply)) = Ok (names, vs) ->
     axes c = Some axs -> names <> axs ->
     _send cmd true true c = (Raise (AssertionError 99), sent cmd rest c)).
Proof.
  split.
  - intros r c' H. apply send_ok in H. destruct H as (_ & _ & _ & H).
    now apply decode_axes_ok in H.
  - intros reply rest names vs axs Hc Hr Hne Hp Ha Hd.
    rewrite (send_run _ _ _ _ _ _ Hc Hr). f_equal.
    unfold decode_response. rewrite Hne, Hp, Ha. simpl.
    destruct (list_eqb String.eqb names axs) eqn:E; [|reflexivity].
    apply list_eqb_string_eq in E. contradiction.
Qed.

(** ** TTL registers and illumination states *)

Lemma get_ttl_in_ok c mode c' :
  _get_ttl_in_mode c = (Ok mode, c') ->
  is_open (port c) = true /\
  in_buffer (snd (exchange (port c) "TTL X?")) = EmptyString /\
  c' = set_ttl_in_mode (Some mode)
         (set_port (snd (exchange (port c) "TTL X?")) c).
Proof.
  unfold _get_ttl_in_mode. intros H.
  apply bind_ok in H. destruct H as (r & c1 & H1 & H).
  apply send_ok in H1. destruct H1 as (Ho & -> & Hb & _).
  apply bind_ok in H. destruct H as (s & c2 & H2 & H). inv_run H2.
  apply bind_ok in H. destruct H as (code & c3 & H3 & H). inv_run H3.
  destruct (dict_get _ code) as [m|]; [|discriminate H].
  apply bind_ok in H. destruct H as (u & c4 & H4 & H). inv_run H4. inv_run H.
  auto.
Qed.

Lemma get_ttl_out_ok c mode c' :
  _get_ttl_out_mode c = (Ok mode, c') ->
  is_open (port c) = true /\
  in_buffer (snd (exchange (port c) "TTL Y?")) = EmptyString /\
  c' = set_ttl_out_mode (Some mode)
         (set_port (snd (exchange (port c) "TTL Y?")) c).
Proof.
  unfold _get_ttl_out_mode. intros H.
  apply bind_ok in H. destruct H as (r & c1 & H1 & H).
  apply send_ok in H1. destruct H1 as (Ho & -> & Hb & _).
  apply bind_ok in H. destruct H as (s & c2 & H2 & H). inv_run H2.
  apply bind_ok in H. destruct H as (code & c3 & H3 & H). inv_run H3.
  destruct (dict_get _ code) as [m|]; [|discriminate H].
  apply bind_ok in H. destruct H as (u & c4 & H4 & H). inv_run H4. inv_run H.
  auto.
Qed.

(** A successful [_set_ttl_in_mode] wrote the set command, then the
    query, and recorded the requested mode as the device reported it. *)
Lemma set_ttl_in_ok mode c u c' :
  _set_ttl_in_mode mode c = (Ok u, c') ->
  exists code, dict_get ttl_in_code mode = Some code /\
    is_open (port c) = true /\
    let p := snd (exchange (snd (exchange (port c) ("TTL X=" ++ code))) "TTL X?") in
    in_buffer p = EmptyString /\
    c' = set_ttl_in_mode (Some mode) (set_port p c).
Proof.
  unfold _set_ttl_in_mode. fold ttl_in_code.
  destruct (dict_get ttl_in_code mode) as [code|]; [|discriminate].
  intros H. exists code. split; [reflexivity|].
  apply bind_ok in H. destruct H as (r & c1 & H1 & H).
  apply send_ok in H1. destruct H1 as (Ho & -> & _ & _).
  apply bind_ok in H. destruct H as (u1 & c2 & H2 & H). inv_run H2.
  apply bind_ok in H. destruct H as (got & c3 & H3 & H).
  apply get_ttl_in_ok in H3. destruct H3 as (_ & Hb & ->).
  apply assert_ok in H. destruct H as [He ->].
  apply String.eqb_eq in He. subst got.
  cbn [port set_port set_ttl_in_mode] in *. auto.
Qed.

Lemma set_ttl_out_ok mode c u c' :
  _set_ttl_out_mode mode c = (Ok u, c') ->
  exists code, dict_get ttl_out_code mode = Some code /\
    is_open (port c) = true /\
    let p := snd (exchange (snd (exchange (port c) ("TTL Y=" ++ code))) "TTL Y?") in
    in_buffer p = EmptyString /\
    c' = set_ttl_out_mode (Some mode) (set_port p c).
Proof.
  unfold _set_ttl_out_mode. fold ttl_out_code.
  destruct (dict_get ttl_out_code mode) as [code|]; [|discriminate].
  intros H. exists code. split; [reflexivity|].
  apply bind_ok in H. destruct H as (r & c1 & H1 & H).
  apply send_ok in H1. destruct H1 as (Ho & -> & _ & _).
  apply bind_ok in H. destruct H as (u1 & c2 & H2 & H). inv_run H2.
  apply bind_ok in H. destruct H as (got & c3 & H3 & H).
  apply get_ttl_out_ok in H3. destruct H3 as (_ & Hb & ->).
  apply assert_ok in H. destruct H as [He ->].
  apply String.eqb_eq in He. subst got.
  cbn [port set_port set_ttl_out_mode] in *. auto.
Qed.

(** The two register writes of a named state, input mode first. *)
Lemma set_both_ok min mout c u c' :
  (_set_ttl_in_mode min ;; _set_ttl_out_mode mout) c = (Ok u, c') ->
  exists cin cout,
    dict_get ttl_in_code min = Some cin /\
    dict_get ttl_out_code mout = Some cout /\
    is_open (port c') = true /\ in_buffer (port c') = EmptyString /\
    written (port c') =
      written (port c) ++
        map (fun s => (s ++ String CR EmptyString)%string)
            [("TTL X=" ++ cin)%string; "TTL X?"%string;
             ("TTL Y=" ++ cout)%string; "TTL Y?"%string] /\
    c' = set_ttl_out_mode (Some mout)
           (set_ttl_in_mode (Some min) (set_port (port c') c)).
Proof.
  intros H. apply bind_ok in H. destruct H as (u1 & c1 & H1 & H2).
  apply set_ttl_in_ok in H1. destruct H1 as (cin & Hci & Ho & Hb1 & ->).
  apply set_ttl_out_ok in H2. destruct H2 as (cout & Hco & Ho2 & Hb2 & ->).
  cbn [port set_port set_ttl_in_mode set_ttl_out_mode] in *.
  exists cin, cout. repeat split; auto.
  - now rewrite !exchange_is_open in *.
  - rewrite !exchange_written. rewrite <- !app_assoc. reflexivity.
Qed.

Lemma state_table_names name row :
  table_get state_table name = Some row ->
  (name = "off" /\ row = ("disabled", "low")) \/
  (name = "on" /\ row = ("disabled", "high")) \/
  (name = "pwm" /\ row = ("disabled", "pwm")) \/
  (name = "external" /\ row = ("toggle_ttl_out", "low")).
Proof.
  unfold state_table, table_get.
  destruct (String.eqb_spec name "off") as [->|]; [intros [= <-]; auto|].
  destruct (String.eqb_spec name "on") as [->|]; [intros [= <-]; auto|].
  destruct (String.eqb_spec name "pwm") as [->|]; [intros [= <-]; auto 6|].
  destruct (String.eqb_spec name "external") as [->|]; [intros [= <-]; auto 6|].
  discriminate.
Qed.

Lemma send_str_run cmd c reply rest :
  is_ascii cmd = true -> ready c reply rest ->
  is_empty (strip delimiters reply) = false ->
  _send cmd true false c = (Ok (RStr (strip delimiters reply)), sent cmd rest c).
Proof.
  intros Hc Hr Hn. rewrite (send_run _ _ _ _ _ _ Hc Hr).
  unfold decode_response. rewrite Hn. reflexivity.
Qed.

Lemma send_silent_run cmd c reply rest :
  is_ascii cmd = true -> ready c reply rest ->
  _send cmd false false c = (Ok RNone, sent cmd rest c).
Proof. intros Hc Hr. now rewrite (send_run _ _ _ _ _ _ Hc Hr). Qed.

Lemma get_ttl_in_run c reply rest code mode :
  ready c reply rest ->
  is_empty (strip delimiters reply) = false ->
  nth_error (split_on "=" (rstrip_ws (strip delimiters reply))) 1 = Some code ->
  dict_get ttl_in_code mode = Some code ->
  _get_ttl_in_mode c =
    (Ok mode, set_ttl_in_mode (Some mode) (sent "TTL X?" rest c)).
Proof.
  intros Hr Hn Hc Hd. unfold _get_ttl_in_mode.
  rewrite (bind_run _ _ _ _ _ (send_str_run "TTL X?" c reply rest eq_refl Hr Hn)).
  unfold lift at 1, as_str. unfold bind at 1.
  unfold lift at 1, index. rewrite Hc. unfold bind at 1.
  assert (E : dict_get [("0", "disabled"); ("10", "toggle_ttl_out")] code = Some mode).
  { unfold ttl_in_code in Hd. simpl in Hd.
    destruct (String.eqb mode "disabled") eqn:E1.
    - apply String.eqb_eq in E1. injection Hd as <-. now subst.
    - destruct (String.eqb mode "toggle_ttl_out") eqn:E2; [|discriminate].
      apply String.eqb_eq in E2. injection Hd as <-. now subst. }
  rewrite E. reflexivity.
Qed.

Lemma get_ttl_out_run c reply rest code mode :
  ready c reply rest ->
  is_empty (strip delimiters reply) = false ->
  nth_error (split_on "=" (rstrip_ws (strip delimiters reply))) 1 = Some code ->
  dict_get ttl_out_code mode = Some code ->
  _get_ttl_out_mode c =
    (Ok mode, set_ttl_out_mode (Some mode) (sent "TTL Y?" rest c)).
Proof.
  intros Hr Hn Hc Hd. unfold _get_ttl_out_mode.
  rewrite (bind_run _ _ _ _ _ (send_str_run "TTL Y?" c reply rest eq_refl Hr Hn)).
  unfold lift at 1, as_str. unfold bind at 1.
  unfold lift at 1, index. rewrite Hc. unfold bind at 1.
  assert (E : dict_get [("0", "low"); ("1", "high"); ("9", "pwm")] code = Some mode).
  { unfold ttl_out_code in Hd. simpl in Hd.
    destruct (String.eqb mode "low") eqn:E1.
    - apply String.eqb_eq in E1. injection Hd as <-. now subst.
    - destruct (String.eqb mode "high") eqn:E2.
      + apply String.eqb_eq in E2. injection Hd as <-. now subst.
      + destruct (String.eqb mode "pwm") eqn:E3; [|discriminate].
        apply String.eqb_eq in E3. injection Hd as <-. now subst. }
  rewrite E. reflexivity.
Qed.

(** A successful [set_pwm_state]: the four commands written and the
    attributes set, everything else as before. *)
Lemma set_pwm_state_ok name row c u c' :
  table_get state_table name = Some row ->
  set_pwm_state name c = (Ok u, c') ->
  exists cin cout,
    dict_get ttl_in_code (fst row) = Some cin /\
    dict_get ttl_out_code (snd row) = Some cout /\
    is_open (port c') = true /\ in_buffer (port c') = EmptyString /\
    written (port c') =
      written (port c) ++
        map (fun s => (s ++ String CR EmptyString)%string)
            [("TTL X=" ++ cin)%string; "TTL X?"%string;
             ("TTL Y=" ++ cout)%string; "TTL Y?"%string] /\
    c' = set_state (Some name)
           (set_ttl_out_mode (Some (snd row))
              (set_ttl_in_mode (Some (fst row)) (set_port (port c') c))).
Proof.
  intros Ht H. unfold set_pwm_state in H.
  apply bind_ok in H. destruct H as (u0 & c0 & H0 & H).
  apply assert_ok in H0. destruct H0 as [_ ->].
  apply state_table_names in Ht.
  assert (Hmain : exists c1,
    (_set_ttl_in_mode (fst row) ;; _set_ttl_out_mode (snd row)) c = (Ok tt, c1) /\
    c' = set_state (Some name) c1).
  { destruct Ht as [[-> ->]|[[-> ->]|[[-> ->]|[-> ->]]]];
      cbn [String.eqb Ascii.eqb Bool.eqb when fst snd] in H |- *.
    - apply bind_ok in H. destruct H as ([] & c1 & H1 & H).
      exists c1. split; [exact H1|].
      repeat (apply bind_ok in H; destruct H as (? & ? & R & H); inv_run R).
      now inv_run H.
    - apply bind_ok in H. destruct H as ([] & c1 & H1 & H). inv_run H1.
      apply bind_ok in H. destruct H as ([] & c2 & H2 & H).
      exists c2. split; [exact H2|].
      repeat (apply bind_ok in H; destruct H as (? & ? & R & H); inv_run R).
      now inv_run H.
    - apply bind_ok in H. destruct H as ([] & c1 & H1 & H). inv_run H1.
      apply bind_ok in H. destruct H as ([] & c2 & H2 & H). inv_run H2.
      apply bind_ok in H. destruct H as ([] & c3 & H3 & H).
      exists c3. split; [exact H3|].
      repeat (apply bind_ok in H; destruct H as (? & ? & R & H); inv_run R).
      now inv_run H.
    - apply bind_ok in H. destruct H as ([] & c1 & H1 & H). inv_run H1.
      apply bind_ok in H. destruct H as ([] & c2 & H2 & H). inv_run H2.
      apply bind_ok in H. destruct H as ([] & c3 & H3 & H). inv_run H3.
      apply bind_ok in H. destruct H as ([] & c4 & H4 & H).
      exists c4. split; [exact H4|]. now inv_run H. }
  destruct Hmain as (c1 & H1 & ->).
  apply set_both_ok in H1.
  destruct H1 as (cin & cout & Hci & Hco & Ho & Hb & Hw & Hc1).
  exists cin, cout. repeat split; auto.
  cbn [port set_state]. now rewrite <- Hc1.
Qed.

(** Every named state is one of the table, so a successful
    [set_pwm_state] leaves the recorded registers consistent with the
    recorded state. *)
Lemma set_pwm_state_consistent name c u c' :
  set_pwm_state name c = (Ok u, c') -> illumination_consistent c'.
Proof.
  intros H.
  assert (Hrow : exists row, table_get state_table name = Some row).
  { unfold set_pwm_state in H. apply bind_ok in H.
    destruct H as (u0 & c0 & H0 & _). apply assert_ok in H0.
    destruct H0 as [H0 _]. cbn [existsb] in H0.
    unfold state_table, table_get.
    destruct (String.eqb name "off"); [eauto|].
    destruct (String.eqb name "on"); [eauto|].
    destruct (String.eqb name "pwm"); [eauto|].
    destruct (String.eqb name "external"); [eauto|discriminate]. }
  destruct Hrow as (row & Hrow).
  destruct (set_pwm_state_ok _ _ _ _ _ Hrow H)
    as (cin & cout & _ & _ & _ & _ & _ & ->).
  intros st Hst. cbn [state set_state] in Hst. injection Hst as <-.
  exists row. auto.
Qed.

(** A freshly constructed controller has no named state yet. *)
Lemma init_consistent :
  illumination_consistent (plain_controller []) /\
  illumination_consistent (xy_stage []).
Proof. split; intros st H; vm_compute in H; discriminate H. Qed.

(** *** C4 *)

(** C4.  For each of the four named illumination states, a successful
    [set_pwm_state] has written, in this order, the input-mode command,
    its query, the output-mode command and its query, with the codes of
    the table row; it records the row's two modes as the device reported
    them and the state's name; and when the device then reports the
    codes it was sent, querying both registers again returns the row. *)
Theorem set_pwm_state_table (name : string) (row : string * string)
    (c c' : Controller) :
  table_get state_table name = Some row ->
  set_pwm_state name c = (Ok tt, c') ->
  exists cin cout,
    dict_get ttl_in_code (fst row) = Some cin /\
    dict_get ttl_out_code (snd row) = Some cout /\
    written (port c') =
      written (port c) ++
        map (fun s => (s ++ String CR EmptyString)%string)
            [("TTL X=" ++ cin)%string; "TTL X?"%string;
             ("TTL Y=" ++ cout)%string; "TTL Y?"%string] /\
    _ttl_in_mode c' = Some (fst row) /\
    _ttl_out_mode c' = Some (snd row) /\
    state c' = Some name /\
    (forall rest,
       device (port c') = ttl_reply "X" cin :: ttl_reply "Y" cout :: rest ->
       exists c1 c2,
         _get_ttl_in_mode c' = (Ok (fst row), c1) /\
         _get_ttl_out_mode c1 = (Ok (snd row), c2)).
Proof.
  intros Ht H.
  destruct (set_pwm_state_ok _ _ _ _ _ Ht H)
    as (cin & cout & Hci & Hco & Ho & Hb & Hw & Hc').
  exists cin, cout. repeat split; auto.
  - rewrite Hc'. reflexivity.
  - rewrite Hc'. reflexivity.
  - rewrite Hc'. reflexivity.
  - intros rest Hd.
    apply state_table_names in Ht.
    assert (Hcodes : (cin = "0" \/ cin = "10") /\
                     (cout = "0" \/ cout = "1" \/ cout = "9")).
    { destruct Ht as [[_ ->]|[[_ ->]|[[_ ->]|[_ ->]]]];
        cbn in Hci, Hco; injection Hci as <-; injection Hco as <-; auto. }
    destruct Hcodes as [Hin Hout].
    eexists _, _. split.
    + apply (get_ttl_in_run _ (ttl_reply "X" cin) (ttl_reply "Y" cout :: rest) cin).
      * repeat split; auto. destruct Hin as [-> | ->]; reflexivity.
      * destruct Hin as [-> | ->]; reflexivity.
      * destruct Hin as [-> | ->]; reflexivity.
      * exact Hci.
    + apply (get_ttl_out_run _ (ttl_reply "Y" cout) rest cout).
      * repeat split; auto. destruct Hout as [-> | [-> | ->]]; reflexivity.
      * destruct Hout as [-> | [-> | ->]]; reflexivity.
      * destruct Hout as [-> | [-> | ->]]; reflexivity.
      * exact Hco.
Qed.

Example plain_controller_built :
  state (plain_controller []) = None /\
  _ttl_in_mode (plain_controller []) = Some "disabled" /\
  _ttl_out_mode (plain_controller []) = Some "low" /\
  is_open (port (plain_controller [])) = true /\
  length (written (port (plain_controller []))) = 5.
Proof. vm_compute. repeat split; reflexivity. Qed.

Example xy_stage_built :
  axes (xy_stage []) = Some ["X"; "Y"] /\
  _moving (xy_stage []) = Some false /\
  position_um (xy_stage []) = Some [0 # 10; 0 # 10]%Q /\
  length (written (port (xy_stage []))) = 14.
Proof. vm_compute. repeat split; reflexivity. Qed.

Lemma send_parse_axes_checked_witness :
  _send "S Y? X?" true true
    (with_axes ["Y"; "X"]
       (plain_controller [line_of "X=1.000000 Y=2.000000 "])) =
  (Raise (AssertionError 99),
   sent "S Y? X?" []
     (with_axes ["Y"; "X"]
        (plain_controller [line_of "X=1.000000 Y=2.000000 "]))).
Proof.
  apply (proj2 (send_parse_axes_checked _ "S Y? X?")
           (line_of "X=1.000000 Y=2.000000 ") [] ["X"; "Y"]
           [Qmake 1000000 1000000; Qmake 2000000 1000000] ["Y"; "X"]).
  - reflexivity.
  - vm_compute. repeat split; reflexivity.
  - reflexivity.
  - vm_compute. reflexivity.
  - reflexivity.
  - discriminate.
Defined.

Lemma set_pwm_state_table_witness :
  let c := plain_controller
             [ack; ttl_reply "X" "0"; ack; ttl_reply "Y" "1";
              ttl_reply "X" "0"; ttl_reply "Y" "1"] in
  let c' := snd (set_pwm_state "on" c) in
  _ttl_in_mode c' = Some "disabled" /\ _ttl_out_mode c' = Some "high" /\
  state c' = Some "on" /\
  exists c1 c2, _get_ttl_in_mode c' = (Ok "disabled", c1) /\
                _get_ttl_out_mode c1 = (Ok "high", c2).
Proof.
  intros c c'.
  destruct (set_pwm_state_table "on" ("disabled", "high") c c')
    as (cin & cout & Hci & Hco & _ & Hi & Ho & Hs & Hq).
  - reflexivity.
  - vm_compute. reflexivity.
  - injection Hci as <-. injection Hco as <-.
    repeat split; auto. apply (Hq []). vm_compute. reflexivity.
Defined.

(** *** C5 *)

(** C5 (amended).  A [close] that returns leaves the port closed and the
    recorded state [off].  For every recorded state other than [off],
    the initial unset one included, it has first forced the state to
    [off] by the four register commands, and both registers are in the
    off configuration, [disabled] and [low], as the device reported
    them.  When the recorded state is [off] already, [close] writes
    nothing and leaves the recorded registers as they are: they are in
    the off configuration when the record was consistent, and only
    then. *)
Theorem close_leaves_off (c c' : Controller) :
  close c = (Ok tt, c') ->
  is_open (port c') = false /\
  state c' = Some "off" /\
  (state c <> Some "off" ->
     _ttl_in_mode c' = Some "disabled" /\
     _ttl_out_mode c' = Some "low" /\
     written (port c') =
       written (port c) ++
         map (fun s => (s ++ String CR EmptyString)%string)
             ["TTL X=0"; "TTL X?"; "TTL Y=0"; "TTL Y?"]%string) /\
  (state c = Some "off" ->
     written (port c') = written (port c) /\
     _ttl_in_mode c' = _ttl_in_mode c /\
     _ttl_out_mode c' = _ttl_out_mode c /\
     (illumination_consistent c <->
      _ttl_in_mode c' = Some "disabled" /\ _ttl_out_mode c' = Some "low")).
Proof.
  intros H. unfold close in H.
  apply bind_ok in H. destruct H as (st & c0 & H0 & H). inv_run H0.
  subst st.
  apply bind_ok in H. destruct H as (u & c1 & H1 & H). inv_run H.
  cbn [port set_port Serial_close is_open written _ttl_in_mode _ttl_out_mode state].
  destruct (state c) as [s|] eqn:Hs.
  - destruct (String.eqb_spec s "off") as [->|Hne]; cbn [negb when] in H1.
    + inv_run H1. split; [reflexivity|]. split; [exact Hs|].
      split; [intros Hn; now elim Hn|]. intros _.
      split; [reflexivity|]. split; [reflexivity|]. split; [reflexivity|].
      split.
      * intros Hinv. destruct (Hinv "off" Hs) as (row & Hrow & Hi & Ho).
        injection Hrow as <-. auto.
      * intros [Hi Ho] st Hst. rewrite Hs in Hst. injection Hst as <-.
        exists ("disabled", "low"). auto.
    + destruct (set_pwm_state_ok "off" ("disabled", "low") _ _ _ eq_refl H1)
        as (cin & cout & Hci & Hco & _ & _ & Hw & ->).
      injection Hci as <-. injection Hco as <-.
      cbn [port set_port state set_state _ttl_in_mode _ttl_out_mode
           set_ttl_in_mode set_ttl_out_mode fst snd] in *.
      split; [reflexivity|]. split; [reflexivity|]. split.
      * intros _. auto.
      * intros [= ->]. now elim Hne.
  - cbn [negb when] in H1.
    destruct (set_pwm_state_ok "off" ("disabled", "low") _ _ _ eq_refl H1)
      as (cin & cout & Hci & Hco & _ & _ & Hw & ->).
    injection Hci as <-. injection Hco as <-.
    cbn [port set_port state set_state _ttl_in_mode _ttl_out_mode
         set_ttl_in_mode set_ttl_out_mode fst snd] in *.
    split; [reflexivity|]. split; [reflexivity|]. split.
    + intros _. auto.
    + discriminate.
Qed.

Lemma close_leaves_off_witness :
  let c := plain_controller [ack; ttl_reply "X" "0"; ack; ttl_reply "Y" "0"] in
  let c' := snd (close c) in
  state c = None /\
  _ttl_in_mode c' = Some "disabled" /\ _ttl_out_mode c' = Some "low" /\
  is_open (port c') = false /\ state c' = Some "off".
Proof.
  intros c c'.
  assert (H : close c = (Ok tt, c')) by (vm_compute; reflexivity).
  assert (Hn : state c <> Some "off") by (vm_compute; discriminate).
  destruct (close_leaves_off c c' H) as (Hp & Hs & Hoff & _).
  destruct (Hoff Hn) as (Hi & Ho & _).
  split; [vm_compute; reflexivity|]. repeat split; assumption.
Defined.

(** The claim C5 as it was stated fails on a controller that the
    methods themselves produce.  After [set_pwm_state('off')], a
    [set_pwm_state('on')] whose last query goes unanswered raises once
    ['TTL Y=1'] has been written, and leaves the recorded state [off]
    with no output mode recorded; [close] then finds the state [off],
    writes nothing and returns, with the output register not in the off
    configuration. *)
Lemma close_after_failed_switch :
  let c0 := plain_controller
              [ack; ttl_reply "X" "0"; ack; ttl_reply "Y" "0";
               ack; ttl_reply "X" "0"; ack] in
  let c1 := snd (set_pwm_state "off" c0) in
  let c2 := snd (set_pwm_state "on" c1) in
  let c3 := snd (close c2) in
  set_pwm_state "off" c0 = (Ok tt, c1) /\
  set_pwm_state "on" c1 = (Raise (AssertionError 93), c2) /\
  written (port c2) =
    written (port c1) ++
      map (fun s => (s ++ String CR EmptyString)%string)
          ["TTL X=0"; "TTL X?"; "TTL Y=1"; "TTL Y?"]%string /\
  state c2 = Some "off" /\
  close c2 = (Ok tt, c3) /\
  written (port c3) = written (port c2) /\
  _ttl_in_mode c3 = Some "disabled" /\
  _ttl_out_mode c3 = None /\
  ~ illumination_consistent c2.
Proof.
  cbv zeta.
  split; [vm_compute; reflexivity|]. split; [vm_compute; reflexivity|].
  split; [vm_compute; reflexivity|]. split; [vm_compute; reflexivity|].
  split; [vm_compute; reflexivity|]. split; [vm_compute; reflexivity|].
  split; [vm_compute; reflexivity|]. split; [vm_compute; reflexivity|].
  intros Hinv.
  destruct (Hinv "off") as (row & Hrow & _ & Ho); [vm_compute; reflexivity|].
  injection Hrow as <-. vm_compute in Ho. discriminate Ho.
Qed.

(** ** The per-axis loops *)

(** Each loop of the source is [each] of its body. *)
Ltac loop_each IH step :=
  match goal with
  | |- context [each step (S ?i) ?rest] =>
      rewrite IH; generalize (each step (S i) rest); intros tail_run
  end;
  unfold velocity_step, acceleration_step, settle_time_step, precision_step,
    target_step;
  repeat match goal with
  | |- context [rbind ?r _] =>
      lazymatch r with
      | rbind _ _ => fail
      | Ok _ => fail
      | Raise _ => fail
      | _ => destruct r; cbn [rbind]; try reflexivity
      end
  end.

Lemma velocity_loop_each c vs : forall i,
  velocity_loop c i vs =
  rbind (each (velocity_step c) i vs) (fun r => Ok (map fst r, map snd r)).
Proof.
  induction vs as [|v rest IH]; intros i; [reflexivity|].
  cbn [velocity_loop each]. loop_each IH (velocity_step c).
Qed.

Lemma acceleration_loop_each c vs : forall i,
  acceleration_loop c i vs =
  rbind (each (acceleration_step c) i vs) (fun r => Ok (map fst r, map snd r)).
Proof.
  induction vs as [|v rest IH]; intros i; [reflexivity|].
  cbn [acceleration_loop each]. loop_each IH (acceleration_step c).
Qed.

Lemma settle_time_loop_each c vs : forall i,
  settle_time_loop c i vs =
  rbind (each (settle_time_step c) i vs) (fun r => Ok (map fst r, map snd r)).
Proof.
  induction vs as [|v rest IH]; intros i; [reflexivity|].
  cbn [settle_time_loop each]. loop_each IH (settle_time_step c).
Qed.

Lemma precision_loop_each c vs : forall i,
  precision_loop c i vs =
  rbind (each (precision_step c) i vs) (fun r => Ok (map fst r, map snd r)).
Proof.
  induction vs as [|v rest IH]; intros i; [reflexivity|].
  cbn [precision_loop each]. loop_each IH (precision_step c).
Qed.

Lemma target_loop_each c relative ms : forall i,
  target_loop c relative i ms = each (target_step c relative) i ms.
Proof.
  induction ms as [|m rest IH]; intros i; [reflexivity|].
  cbn [target_loop each]. loop_each IH (target_step c relative).
Qed.

Lemma each_ok {A B : Type} (step : nat -> A -> result B) vs : forall i ys,
  each step i vs = Ok ys ->
  length ys = length vs /\
  forall k v, nth_error vs k = Some v ->
    exists y, nth_error ys k = Some y /\ step (i + k) v = Ok y.
Proof.
  induction vs as [|v rest IH]; intros i ys H.
  - injection H as <-. split; [reflexivity|]. intros [|k] v H; discriminate H.
  - cbn [each] in H.
    apply rbind_ok in H. destruct H as (y & Hy & H).
    apply rbind_ok in H. destruct H as (r & Hr & H).
    injection H as <-. destruct (IH _ _ Hr) as [Hl Hn].
    split; [simpl; now rewrite Hl|].
    intros [|k] w Hw.
    + injection Hw as <-. exists y. rewrite Nat.add_0_r. auto.
    + destruct (Hn k w Hw) as (y' & Hy' & Hs). exists y'.
      rewrite Nat.add_succ_r. auto.
Qed.

Lemma each_all_ok {A B : Type} (step : nat -> A -> result B) vs : forall i,
  (forall k v, nth_error vs k = Some v -> exists y, step (i + k) v = Ok y) ->
  exists ys, each step i vs = Ok ys.
Proof.
  induction vs as [|v rest IH]; intros i H; [now exists []|].
  cbn [each]. destruct (H 0 v eq_refl) as (y & Hy).
  rewrite Nat.add_0_r in Hy. rewrite Hy. cbn [rbind].
  destruct (IH (S i)) as (ys & Hys).
  - intros k w Hw. specialize (H (S k) w Hw).
    now rewrite Nat.add_succ_r in H.
  - rewrite Hys. now exists (y :: ys).
Qed.


(** ** Moves *)

(** One iteration of the target loop, when the attributes it reads are
    there: the entry's target, checked against the axis range. *)
Lemma index_some {A : Type} line (l : list A) i a :
  nth_error l i = Some a -> index line l i = Ok a.
Proof. intros H. unfold index. now rewrite H. Qed.


(** A successful iteration computed the entry's target and found it in
    range. *)
Lemma target_step_ok c relative i m t :
  target_step c relative i m = Ok t ->
  target_of c relative i m = Some t /\
  exists lo hi,
    at_index (min_position_um c) i = Some lo /\
    at_index (max_position_um c) i = Some hi /\
    Qle_bool lo t = true /\ Qle_bool t hi = true.
Proof.
  unfold target_step. intros H.
  apply rbind_ok in H. destruct H as (t0 & H0 & H).
  apply rbind_ok in H. destruct H as (t1 & H1 & H).
  apply rbind_ok in H. destruct H as (mn & Hmn & H). apply attr_ok in Hmn.
  apply rbind_ok in H. destruct H as (lo & Hlo & H). apply index_ok in Hlo.
  apply rbind_ok in H. destruct H as (u & Hle & H). apply rassert_ok in Hle.
  apply rbind_ok in H. destruct H as (mx & Hmx & H). apply attr_ok in Hmx.
  apply rbind_ok in H. destruct H as (hi & Hhi & H). apply index_ok in Hhi.
  apply rbind_ok in H. destruct H as (u' & Hle' & H). apply rassert_ok in Hle'.
  injection H as <-.
  split.
  - unfold target_of, at_index. unfold resolve in H0.
    destruct m as [|n|x]; cbn [is_number andb number_of] in *.
    + apply rbind_ok in H0. destruct H0 as (cur & Hc & H0).
      apply attr_ok in Hc. apply index_ok in H0. rewrite Hc.
      injection H1 as <-. exact H0.
    + injection H0 as <-. destruct relative.
      * apply rbind_ok in H1. destruct H1 as (pos & Hp & H1).
        apply attr_ok in Hp. rewrite Hp.
        apply rbind_ok in H1. destruct H1 as (p & Hpi & H1).
        apply index_ok in Hpi. rewrite Hpi. injection H1 as <-. reflexivity.
      * injection H1 as <-. reflexivity.
    + injection H0 as <-. destruct relative.
      * apply rbind_ok in H1. destruct H1 as (pos & Hp & H1).
        apply attr_ok in Hp. rewrite Hp.
        apply rbind_ok in H1. destruct H1 as (p & Hpi & H1).
        apply index_ok in Hpi. rewrite Hpi. injection H1 as <-. reflexivity.
      * injection H1 as <-. reflexivity.
  - exists lo, hi. unfold at_index. rewrite Hmn, Hmx. auto.
Qed.

Lemma finish_moving_idle c :
  _moving c = Some false -> _finish_moving c = (Ok tt, c).
Proof.
  intros H. unfold _finish_moving, bind, reading, attr. rewrite H. reflexivity.
Qed.

(** *** Which exceptions a method can raise

    [foreign m]: whatever [m] raises, it is not one of the two range
    assertions of [move_um]. *)

Lemma foreign_bind {A B : Type} (m : M A) (f : A -> M B) :
  foreign m -> (forall a, foreign (f a)) -> foreign (bind m f).
Proof.
  intros Hm Hf c e c' H. unfold bind in H.
  destruct (m c) as [[a|e0] c1] eqn:E.
  - exact (Hf a _ _ _ H).
  - injection H as <- <-. exact (Hm _ _ _ E).
Qed.

Lemma foreign_ret {A : Type} (a : A) : foreign (ret a).
Proof. intros c e c' H. discriminate H. Qed.

Lemma foreign_update f : foreign (update f).
Proof. intros c e c' H. discriminate H. Qed.

Lemma foreign_reading {A : Type} (f : Controller -> result A) :
  (forall c, rforeign (f c)) -> foreign (reading f).
Proof. intros Hf c e c' H. injection H as H _. exact (Hf c e H). Qed.

Lemma foreign_lift {A : Type} (r : result A) : rforeign r -> foreign (lift r).
Proof. intros Hr c e c' H. injection H as H _. exact (Hr e H). Qed.

Lemma rforeign_ok {A : Type} (a : A) : rforeign (Ok a).
Proof. intros e H. discriminate H. Qed.

Lemma rforeign_rbind {A B : Type} (r : result A) (f : A -> result B) :
  rforeign r -> (forall a, rforeign (f a)) -> rforeign (rbind r f).
Proof.
  intros Hr Hf e H. destruct r as [a|e0]; simpl in H.
  - exact (Hf a e H).
  - injection H as <-. now apply Hr.
Qed.

Ltac not_range :=
  let H := fresh in
  intros [H|H]; discriminate H.

Create HintDb foreign.

(** Discharges [foreign] and [rforeign] goals of code whose raising
    statements are all in sight; methods already analysed are taken from
    the hint database. *)
Ltac foreign_tac :=
  repeat first
    [ solve [auto with foreign nocore]
    | match goal with
      | |- foreign (ret _) => apply foreign_ret
      | |- foreign (update _) => apply foreign_update
      | |- rforeign (Ok _) => apply rforeign_ok
      | |- foreign (bind _ _) => apply foreign_bind; [|intros ?]
      | |- rforeign (rbind _ _) => apply rforeign_rbind; [|intros ?]
      | |- foreign (reading _) => apply foreign_reading; intros ?
      | |- foreign (lift _) => apply foreign_lift
      | |- foreign (raise _) =>
          let c := fresh in let e := fresh in let c' := fresh in
          let H := fresh in
          intros c e c' H; injection H as <- _; not_range
      | |- foreign (assert_ _ ?b) =>
          let c := fresh in let e := fresh in let c' := fresh in
          let H := fresh in
          intros c e c' H; unfold assert_ in H; destruct b;
          [discriminate H | injection H as <- _; not_range]
      | |- rforeign (Raise _) =>
          let e := fresh in let H := fresh in
          intros e H; injection H as <-; not_range
      | |- rforeign (rassert _ ?b) =>
          let e := fresh in let H := fresh in
          intros e H; destruct b;
          [discriminate H | injection H as <-; not_range]
      | |- rforeign (attr _ ?o) =>
          let e := fresh in let H := fresh in
          intros e H; destruct o;
          [discriminate H | injection H as <-; not_range]
      | |- rforeign (index _ ?l ?i) =>
          let e := fresh in let H := fresh in
          intros e H; unfold index in H; destruct (nth_error l i);
          [discriminate H | injection H as <-; not_range]
      | |- rforeign (as_str _ ?r) => destruct r; cbn [as_str]
      | |- foreign (if ?b then _ else _) => destruct b
      | |- rforeign (if ?b then _ else _) => destruct b
      | |- foreign (match ?x with _ => _ end) => destruct x
      | |- rforeign (match ?x with _ => _ end) => destruct x
      | |- foreign (when ?b _) => destruct b; cbn [when]
      end ].

Lemma foreign_port_write line data : foreign (port_write line data).
Proof.
  intros c e c' H. unfold port_write in H.
  destruct (is_open (port c)); [discriminate H|].
  injection H as <- _. not_range.
Qed.

Lemma foreign_port_readline line : foreign (port_readline line).
Proof.
  intros c e c' H. unfold port_readline in H.
  destruct (is_open (port c)).
  - destruct (Serial_readline (port c)). discriminate H.
  - injection H as <- _. not_range.
Qed.

Lemma foreign_port_in_waiting line : foreign (port_in_waiting line).
Proof.
  intros c e c' H. unfold port_in_waiting in H.
  destruct (is_open (port c)); [discriminate H|].
  injection H as <- _. not_range.
Qed.

#[local] Hint Resolve foreign_port_write foreign_port_readline
  foreign_port_in_waiting : foreign.

Lemma rforeign_parse_axes_loop tokens : rforeign (parse_axes_loop tokens).
Proof.
  induction tokens as [|a rest IH]; cbn [parse_axes_loop]; foreign_tac.
Qed.

#[local] Hint Resolve rforeign_parse_axes_loop : foreign.

Lemma foreign_send cmd respond parse : foreign (_send cmd respond parse).
Proof.
  unfold _send. foreign_tac.
  unfold decode_response. foreign_tac.
Qed.

Lemma rforeign_counts2position_loop pairs : rforeign (counts2position_loop pairs).
Proof.
  induction pairs as [|[count factor] rest IH]; cbn [counts2position_loop];
    foreign_tac.
Qed.

#[local] Hint Resolve foreign_send rforeign_parse_axes_loop
  rforeign_counts2position_loop : foreign.

Lemma foreign_get_position : foreign _get_position.
Proof.
  unfold _get_position. foreign_tac.
  unfold _counts2position. foreign_tac.
Qed.

#[local] Hint Resolve foreign_get_position : foreign.

Lemma foreign_poll_status fuel : foreign (poll_status fuel).
Proof.
  induction fuel as [|n IH]; cbn [poll_status]; foreign_tac.
Qed.

Lemma rforeign_tolerance_loop c ps : forall i, rforeign (tolerance_loop c i ps).
Proof.
  induction ps as [|p rest IH]; intros i; cbn [tolerance_loop]; foreign_tac.
Qed.

#[local] Hint Resolve foreign_poll_status rforeign_tolerance_loop : foreign.

Lemma foreign_finish_moving : foreign _finish_moving.
Proof. unfold _finish_moving. foreign_tac. Qed.

Lemma rforeign_move_cmd_loop c move idx : rforeign (move_cmd_loop c move idx).
Proof.
  induction idx as [|i rest IH]; cbn [move_cmd_loop]; foreign_tac.
  unfold _position2counts. foreign_tac.
Qed.

#[local] Hint Resolve foreign_finish_moving rforeign_move_cmd_loop : foreign.

(** The part of [move_um] after the range checks (lines 322-334). *)
Lemma foreign_move_tail (targets : list Q) (block : bool) :
  foreign
    (let move := map (py_round_n 3) targets in
     axs' <- reading (fun c => attr 326 (axes c)) ;;
     pieces <- reading (fun c => move_cmd_loop c move (seq 0 (length axs'))) ;;
     _send (concat_all ("M " :: pieces)) false false ;;
     update (set_moving (Some true)) ;;
     update (set_target_move_um (Some move)) ;;
     if block then _finish_moving else ret tt).
Proof. cbv zeta. foreign_tac. Qed.

(** What an idle [move_um] does up to the end of its range checks: it
    fails there, leaving the controller as it was, or goes on with the
    checked targets. *)
Lemma move_um_idle c move relative (block : bool) :
  _moving c = Some false ->
  move_um move relative block c =
    match attr 312 (axes c) return result unit * Controller with
    | Raise e => (Raise e, c)
    | Ok axs =>
        if Nat.eqb (length move) (length axs) then
          match target_loop c relative 0 move
                return result unit * Controller with
          | Raise e => (Raise e, c)
          | Ok targets =>
              (let move := map (py_round_n 3) targets in
               axs' <- reading (fun c => attr 326 (axes c)) ;;
               pieces <- reading (fun c =>
                           move_cmd_loop c move (seq 0 (length axs'))) ;;
               _send (concat_all ("M " :: pieces)) false false ;;
               update (set_moving (Some true)) ;;
               update (set_target_move_um (Some move)) ;;
               if block then _finish_moving else ret tt) c
          end
        else (Raise (AssertionError 312), c)
    end.
Proof.
  intros Hidle. unfold move_um.
  rewrite (bind_run _ _ _ _ _ (finish_moving_idle c Hidle)).
  unfold bind at 1. unfold reading at 1.
  destruct (attr 312 (axes c)) as [axs|e]; [|reflexivity].
  unfold bind at 1.
  destruct (Nat.eqb (length move) (length axs)); [|reflexivity].
  cbn [assert_ ret].
  unfold bind at 1. unfold reading at 1.
  destruct (target_loop c relative 0 move) as [targets|e]; reflexivity.
Qed.

(** *** C10 *)

(** C10.  When the controller is idle and [move_um] raises one of its two
    range assertions (lines 320 and 321), the controller is exactly as
    before the call: still idle, with the same position, the same
    recorded target and the same port. *)
Theorem failed_range_check_changes_nothing (c c' : Controller)
    (move : list value) (relative block : bool) (e : exn) :
  _moving c = Some false ->
  move_um move relative block c = (Raise e, c') ->
  range_error e ->
  c' = c /\ _moving c' = Some false /\
  position_um c' = position_um c /\
  _target_move_um c' = _target_move_um c.
Proof.
  intros Hidle H He.
  assert (Hc : c' = c).
  { rewrite (move_um_idle _ _ _ _ Hidle) in H.
    destruct (axes c) as [axs|]; cbn [attr] in H.
    - destruct (Nat.eqb (length move) (length axs)).
      + destruct (target_loop c relative 0 move) as [targets|e0].
        * elim (foreign_move_tail targets block _ _ _ H He).
        * now injection H as _ <-.
      + injection H as <- _. destruct He as [He|He]; discriminate He.
    - injection H as <- _. destruct He as [He|He]; discriminate He. }
  subst c'. auto.
Qed.

Lemma failed_range_check_changes_nothing_witness :
  let c := xy_stage [] in
  move_um [VInt 60000; VNone] true true c = (Raise (AssertionError 321), c) /\
  snd (move_um [VInt 60000; VNone] true true c) = c.
Proof.
  intros c.
  assert (H : move_um [VInt 60000; VNone] true true c
              = (Raise (AssertionError 321),
                 snd (move_um [VInt 60000; VNone] true true c))).
  { vm_compute. reflexivity. }
  destruct (failed_range_check_changes_nothing c _ _ true true _
              eq_refl H (or_intror eq_refl)) as (Hc & _).
  split; [|exact Hc]. rewrite Hc in H. exact H.
Defined.

(** *** What a completed wait changed *)

Lemma poll_status_ok fuel : forall c u c',
  poll_status fuel c = (Ok u, c') -> exists p, c' = set_port p c.
Proof.
  induction fuel as [|n IH]; intros c u c' H; [discriminate H|].
  cbn [poll_status] in H.
  apply bind_ok in H. destruct H as (st & c1 & H1 & H).
  apply send_ok in H1. destruct H1 as (_ & -> & _ & _).
  assert (Hrec : forall c2 u2 c3, poll_status n c2 = (Ok u2, c3) ->
            c2 = set_port (snd (exchange (port c) "/")) c ->
            exists p, c3 = set_port p c).
  { intros c2 u2 c3 H2 ->. destruct (IH _ _ _ H2) as (p & ->).
    now exists p. }
  destruct st as [|s|vs].
  - eapply Hrec; eauto.
  - destruct (String.eqb s "N").
    + inv_run H. eauto.
    + eapply Hrec; eauto.
  - eapply Hrec; eauto.
Qed.

Lemma get_position_ok c pos c' :
  _get_position c = (Ok pos, c') ->
  exists p, c' = set_position_um (Some pos) (set_port p c).
Proof.
  unfold _get_position. intros H.
  apply bind_ok in H. destruct H as (axs & c1 & H1 & H). inv_run H1.
  apply bind_ok in H. destruct H as (r & c2 & H2 & H).
  apply send_ok in H2. destruct H2 as (_ & -> & _ & _).
  apply bind_ok in H. destruct H as (s & c3 & H3 & H). inv_run H3.
  apply bind_ok in H. destruct H as (ps & c4 & H4 & H). inv_run H4.
  apply bind_ok in H. destruct H as (u & c5 & H5 & H). inv_run H5.
  inv_run H. eauto.
Qed.

(** A completed wait changed nothing, or the port, the position and the
    moving flag only. *)
Lemma finish_moving_ok c u c' :
  _finish_moving c = (Ok u, c') ->
  c' = c \/
  exists p pos,
    c' = set_moving (Some false) (set_position_um (Some pos) (set_port p c)).
Proof.
  unfold _finish_moving. intros H.
  apply bind_ok in H. destruct H as (mv & c1 & H1 & H). inv_run H1.
  destruct mv; cbn [negb] in H.
  - right.
    apply bind_ok in H. destruct H as (fuel & c2 & H2 & H). inv_run H2.
    apply bind_ok in H. destruct H as (u3 & c3 & H3 & H).
    apply poll_status_ok in H3. destruct H3 as (p & ->).
    apply bind_ok in H. destruct H as (pos & c4 & H4 & H).
    apply get_position_ok in H4. destruct H4 as (p' & ->).
    apply bind_ok in H. destruct H as (u5 & c5 & H5 & H). inv_run H5.
    inv_run H. exists p', pos. reflexivity.
  - left. now inv_run H.
Qed.

Lemma finish_moving_target c u c' :
  _finish_moving c = (Ok u, c') -> _target_move_um c' = _target_move_um c.
Proof.
  intros H. destruct (finish_moving_ok _ _ _ H) as [->|(p & pos & ->)];
    reflexivity.
Qed.

(** *** C9 *)

(** C9.  In a relative [move_um] that succeeds, every unspecified entry
    resolves to exactly the position of its axis as known when the
    targets are computed, and every numeric entry to that position plus
    the entry: the position is never added to a resolved unspecified
    entry.  The target recorded for the move is the resolved one rounded
    to three decimals. *)
Theorem unspecified_entry_keeps_position (c c0 c' : Controller)
    (move : list value) (block : bool) :
  _finish_moving c = (Ok tt, c0) ->
  move_um move true block c = (Ok tt, c') ->
  exists targets,
    target_loop c0 true 0 move = Ok targets /\
    _target_move_um c' = Some (map (py_round_n 3) targets) /\
    (forall i, nth_error move i = Some VNone ->
       exists p, at_index (position_um c0) i = Some p /\
                 nth_error targets i = Some p) /\
    (forall i m, nth_error move i = Some m -> is_number m = true ->
       exists p, at_index (position_um c0) i = Some p /\
                 nth_error targets i = Some (p + number_of m)%Q).
Proof.
  intros H0 H. unfold move_um in H.
  rewrite (bind_run _ _ _ _ _ H0) in H.
  apply bind_ok in H. destruct H as (axs & c1 & H1 & H). inv_run H1.
  apply bind_ok in H. destruct H as (u2 & c2 & H2 & H). inv_run H2.
  apply bind_ok in H. destruct H as (targets & c3 & H3 & H). inv_run H3.
  rename E1 into Hloop.
  apply bind_ok in H. destruct H as (axs' & c4 & H4 & H). inv_run H4.
  apply bind_ok in H. destruct H as (pieces & c5 & H5 & H). inv_run H5.
  apply bind_ok in H. destruct H as (r & c6 & H6 & H).
  apply send_ok in H6. destruct H6 as (_ & -> & _ & _).
  apply bind_ok in H. destruct H as (u7 & c7 & H7 & H). inv_run H7.
  apply bind_ok in H. destruct H as (u8 & c8 & H8 & H). inv_run H8.
  exists targets. split; [exact Hloop|]. split.
  - destruct block.
    + now rewrite (finish_moving_target _ _ _ H).
    + now inv_run H.
  - rewrite target_loop_each in Hloop.
    destruct (each_ok _ _ _ _ Hloop) as [_ Hn].
    split.
    + intros i Hi. destruct (Hn i VNone Hi) as (t & Ht & Hs).
      apply target_step_ok in Hs. destruct Hs as [Hs _].
      cbn [target_of Nat.add] in Hs. eauto.
    + intros i m Hi Hm. destruct (Hn i m Hi) as (t & Ht & Hs).
      apply target_step_ok in Hs. destruct Hs as [Hs _].
      cbn [Nat.add] in Hs. unfold target_of in Hs.
      destruct m as [|n|x]; [discriminate Hm| |];
        destruct (at_index (position_um c0) i) as [p|]; try discriminate Hs;
        injection Hs as <-; eauto.
Qed.

Lemma unspecified_entry_keeps_position_witness :
  let c := xy_stage [ack; line_of "N"; line_of "20000 0"] in
  let c' := snd (move_um [VInt 2000; VNone] true true c) in
  move_um [VInt 2000; VNone] true true c = (Ok tt, c') /\
  exists targets,
    _target_move_um c' = Some (map (py_round_n 3) targets) /\
    nth_error targets 1 = Some (0 # 10)%Q /\
    nth_error targets 0 = Some ((0 # 10) + 2000)%Q.
Proof.
  intros c c'.
  assert (H : move_um [VInt 2000; VNone] true true c = (Ok tt, c')).
  { vm_compute. reflexivity. }
  split; [exact H|].
  destruct (unspecified_entry_keeps_position c c c' _ true eq_refl H)
    as (targets & _ & Ht & Hnone & Hnum).
  exists targets. split; [exact Ht|]. split.
  - destruct (Hnone 1 eq_refl) as (p & Hp & Hn).
    vm_compute in Hp. injection Hp as <-. exact Hn.
  - destruct (Hnum 0 (VInt 2000) eq_refl eq_refl) as (p & Hp & Hn).
    vm_compute in Hp. injection Hp as <-. exact Hn.
Defined.

(** ** The parameter setters *)

Lemma at_index_index line l i x :
  at_index l i = Some x ->
  rbind (attr line l) (fun xs => index line xs i) = Ok x.
Proof.
  unfold at_index. destruct l as [xs|]; [|discriminate].
  intros H. cbn [attr rbind]. now apply index_some.
Qed.

Lemma resolve_number line cur i v :
  is_number v = true -> resolve line cur i v = Ok (number_of v).
Proof. destruct v; [discriminate | reflexivity | reflexivity]. Qed.

(** One iteration of a setter's loop on a numeric entry, when the
    attributes it reads are there: the checked value against the two
    bounds, then the intended value and its command piece. *)
Lemma param_step_run p c i v lo hi axs a :
  is_number v = true ->
  lower_bound p c i = Some lo -> upper_bound p c i = Some hi ->
  axes c = Some axs -> nth_error axs i = Some a ->
  param_step p c i v =
    let y := checked p (number_of v) in
    if Qle_bool lo y
    then if Qle_bool y hi
         then Ok (intended p (number_of v),
                  (piece_prefix p ++ a ++ "="
                     ++ format_f6 (on_wire p (intended p (number_of v)))
                     ++ " ")%string)
         else Raise (AssertionError (upper_line p))
    else Raise (AssertionError (lower_line p)).
Proof.
  intros Hv Hlo Hhi Hax Ha.
  destruct p; cbn [param_step lower_bound upper_bound checked intended
                   on_wire piece_prefix lower_line upper_line] in *;
    cbv zeta.
  - injection Hlo as <-. unfold velocity_step.
    rewrite (resolve_number _ _ _ _ Hv). cbn [rbind].
    destruct (Qle_bool 0 (number_of v)); [|reflexivity].
    unfold at_index in Hhi.
    destruct (max_velocity_mmps c) as [mx|]; [|discriminate].
    cbn [attr rbind]. rewrite (index_some _ _ _ _ Hhi). cbn [rbind].
    destruct (Qle_bool (number_of v) hi); cbn [rassert rbind]; [|reflexivity].
    rewrite Hax. cbn [attr rbind]. rewrite (index_some _ _ _ _ Ha). reflexivity.
  - unfold acceleration_step.
    rewrite (resolve_number _ _ _ _ Hv). cbn [rbind].
    unfold at_index in Hlo, Hhi.
    destruct (min_acceleration_ms c) as [mn|]; [|discriminate].
    destruct (max_acceleration_ms c) as [mx|]; [|discriminate].
    cbn [attr rbind].
    rewrite (index_some _ _ _ _ Hlo), (index_some _ _ _ _ Hhi). cbn [rbind].
    destruct (Qle_bool lo _); cbn [rassert rbind]; [|reflexivity].
    destruct (Qle_bool _ hi); cbn [rassert rbind]; [|reflexivity].
    rewrite Hax. cbn [attr rbind]. rewrite (index_some _ _ _ _ Ha). reflexivity.
  - injection Hlo as <-. unfold settle_time_step.
    rewrite (resolve_number _ _ _ _ Hv). cbn [rbind].
    destruct (Qle_bool 0 _); [|reflexivity].
    unfold at_index in Hhi.
    destruct (max_settle_time_ms c) as [mx|]; [|discriminate].
    cbn [attr rbind]. rewrite (index_some _ _ _ _ Hhi). cbn [rbind].
    destruct (Qle_bool _ hi); cbn [rassert rbind]; [|reflexivity].
    rewrite Hax. cbn [attr rbind]. rewrite (index_some _ _ _ _ Ha). reflexivity.
  - unfold precision_step.
    rewrite (resolve_number _ _ _ _ Hv). cbn [rbind].
    unfold at_index in Hlo, Hhi.
    destruct (min_precision_um c) as [mn|]; [|discriminate].
    destruct (max_precision_um c) as [mx|]; [|discriminate].
    cbn [attr rbind].
    rewrite (index_some _ _ _ _ Hlo), (index_some _ _ _ _ Hhi). cbn [rbind].
    destruct (Qle_bool lo _); cbn [rassert rbind]; [|reflexivity].
    destruct (Qle_bool _ hi); cbn [rassert rbind]; [|reflexivity].
    rewrite Hax. cbn [attr rbind]. rewrite (index_some _ _ _ _ Ha). reflexivity.
Qed.


(** A setter given an entry that is not a number fails its type
    assertion, with the controller as it was. *)
Lemma setter_type_error p c axs X :
  axes c = Some axs -> length X = length axs ->
  forallb is_number X = false ->
  setter p X c = (Raise (AssertionError (type_line p)), c).
Proof.
  intros Hax Hlen Hnum.
  destruct p; cbn [setter type_line];
    [ unfold _set_velocity | unfold _set_acceleration
    | unfold _set_settle_time | unfold _set_precision ];
    unfold bind at 1; unfold reading at 1; rewrite Hax; cbn [attr];
    unfold bind at 1; rewrite Hlen, Nat.eqb_refl; cbn [assert_ ret];
    unfold bind at 1; rewrite Hnum; reflexivity.
Qed.

Lemma per_axis_at n l j :
  per_axis n l -> j < n -> exists x, at_index l j = Some x.
Proof.
  intros (xs & -> & Hl) Hj. unfold at_index.
  destruct (nth_error xs j) as [x|] eqn:E; [eauto|].
  apply nth_error_None in E. lia.
Qed.

(** In a well-formed controller every axis has its position and all of
    its bounds. *)
Lemma well_formed_at c axs j :
  well_formed c -> axes c = Some axs -> j < length axs ->
  (exists a, nth_error axs j = Some a) /\
  (exists x, at_index (position_um c) j = Some x) /\
  (exists x, at_index (min_position_um c) j = Some x) /\
  (exists x, at_index (max_position_um c) j = Some x) /\
  (forall p, exists lo hi,
     lower_bound p c j = Some lo /\ upper_bound p c j = Some hi).
Proof.
  intros (axs' & Hax' & Hall) Hax Hj. rewrite Hax in Hax'.
  injection Hax' as <-.
  repeat match goal with
  | H : Forall _ (_ :: _) |- _ =>
      let H1 := fresh "P" in
      apply Forall_cons_iff in H; destruct H as [H1 H];
      apply (fun P => per_axis_at _ _ j P Hj) in H1
  end.
  repeat split; auto.
  - destruct (nth_error axs j) as [a|] eqn:E; [eauto|].
    apply nth_error_None in E. lia.
  - intros p.
    destruct P as (vmax & ?), P2 as (amin & ?), P3 as (amax & ?),
      P4 as (smax & ?), P6 as (pmin & ?), P7 as (pmax & ?).
    destruct p; cbn [lower_bound upper_bound]; eauto.
Qed.





(** *** C2 *)

(** C2 (as the code behaves).  Every parameter setter asserts that each
    entry is an [int] or a [float] before it resolves unspecified
    entries: a tuple of the right length with an unspecified entry makes
    the setter raise its type assertion, with nothing written and the
    controller unchanged. *)
Theorem setter_rejects_unspecified (p : parameter) (c : Controller)
    (axs : list string) (X : list value) :
  axes c = Some axs -> length X = length axs -> In VNone X ->
  setter p X c = (Raise (AssertionError (type_line p)), c).
Proof.
  intros Hax Hlen Hin. apply (setter_type_error _ _ axs); auto.
  destruct (forallb is_number X) eqn:E; [|reflexivity].
  rewrite forallb_forall in E. discriminate (E _ Hin).
Qed.












(** *** C3 *)


Lemma setter_rejects_unspecified_witness :
  setter Velocity [VInt 2; VNone] (xy_stage []) =
  (Raise (AssertionError (type_line Velocity)), xy_stage []).
Proof.
  assert (H1 : axes (xy_stage []) = Some ["X"; "Y"]) by (vm_compute; reflexivity).
  exact (setter_rejects_unspecified Velocity (xy_stage []) ["X"; "Y"]
           [VInt 2; VNone] H1 eq_refl (or_intror (or_introl eq_refl))).
Defined.

Lemma xy_stage_well_formed : well_formed (xy_stage []).
Proof.
  exists ["X"; "Y"]. split; [vm_compute; reflexivity|].
  repeat constructor; eexists; (split; vm_compute; reflexivity).
Qed.



(** ** Decimal text *)

Lemma string_of_uint_digits d :
  string_forallb is_digit (NilEmpty.string_of_uint d) = true.
Proof. induction d; simpl; auto. Qed.

Lemma string_of_uint_length d :
  String.length (NilEmpty.string_of_uint d) = Decimal.nb_digits d.
Proof. induction d; simpl; auto. Qed.

Lemma usize_nb_digits d :
  DecimalPos.Unsigned.usize d = N.of_nat (Decimal.nb_digits d).
Proof.
  induction d; cbn [DecimalPos.Unsigned.usize Decimal.nb_digits];
    rewrite ?IHd, ?Nat2N.inj_succ; reflexivity.
Qed.

(** The value of a numeral is at least its leading digit times the power
    of ten of the digits that follow. *)
Lemma of_uint_cons_ge (k : N) (f : Decimal.uint -> Decimal.uint) rest :
  (forall d, DecimalPos.Unsigned.of_lu (f d)
             = (k + 10 * DecimalPos.Unsigned.of_lu d)%N) ->
  (forall d d', Decimal.revapp (f d) d' = Decimal.revapp d (f d')) ->
  (k * 10 ^ DecimalPos.Unsigned.usize rest <= N.of_uint (f rest))%N.
Proof.
  intros Hf Hr. unfold N.of_uint.
  rewrite DecimalPos.Unsigned.of_uint_alt. unfold Decimal.rev.
  rewrite Hr, DecimalPos.Unsigned.of_lu_revapp, Hf. simpl.
  rewrite N.add_0_r. lia.
Qed.

Lemma to_uint_normal n : Decimal.unorm (N.to_uint n) = N.to_uint n.
Proof.
  rewrite <- (DecimalN.Unsigned.to_of (N.to_uint n)).
  now rewrite DecimalN.Unsigned.of_to.
Qed.

Lemma unorm_D0_fixed rest :
  Decimal.unorm (Decimal.D0 rest) = Decimal.D0 rest -> rest = Decimal.Nil.
Proof.
  rewrite unorm_D0. unfold Decimal.unorm.
  destruct (Decimal.nzhead rest) eqn:E; intros H; try discriminate H.
  - now injection H.
  - injection H as <-. elim (nzhead_nonzero _ _ E).
Qed.

Lemma digits_of_N_length n :
  (n < 1000000)%N -> String.length (digits_of_N n) <= 6.
Proof.
  intros Hn. unfold digits_of_N. rewrite string_of_uint_length.
  pose proof (DecimalN.Unsigned.of_to n) as Hof.
  pose proof (to_uint_normal n) as Hnorm.
  assert (Hlead : forall (k : N) rest,
            (1 <= k)%N ->
            (k * 10 ^ DecimalPos.Unsigned.usize rest <= n)%N ->
            Decimal.nb_digits rest < 6).
  { intros k rest Hk Hle.
    assert (H10 : (10 ^ DecimalPos.Unsigned.usize rest < 10 ^ 6)%N).
    { change (10 ^ 6)%N with 1000000%N.
      assert (0 < 10 ^ DecimalPos.Unsigned.usize rest)%N
        by (apply N.neq_0_lt_0, N.pow_nonzero; discriminate).
      nia. }
    apply N.pow_lt_mono_r_iff in H10; [|lia].
    rewrite usize_nb_digits in H10. lia. }
  destruct (N.to_uint n) as [|r|r|r|r|r|r|r|r|r|r] eqn:E; cbn [Decimal.nb_digits].
  - lia.
  - rewrite (unorm_D0_fixed _ Hnorm). simpl. lia.
  - apply (Hlead 1%N r); [lia|]. rewrite <- Hof.
    apply (of_uint_cons_ge 1 Decimal.D1); reflexivity.
  - apply (Hlead 2%N r); [lia|]. rewrite <- Hof.
    apply (of_uint_cons_ge 2 Decimal.D2); reflexivity.
  - apply (Hlead 3%N r); [lia|]. rewrite <- Hof.
    apply (of_uint_cons_ge 3 Decimal.D3); reflexivity.
  - apply (Hlead 4%N r); [lia|]. rewrite <- Hof.
    apply (of_uint_cons_ge 4 Decimal.D4); reflexivity.
  - apply (Hlead 5%N r); [lia|]. rewrite <- Hof.
    apply (of_uint_cons_ge 5 Decimal.D5); reflexivity.
  - apply (Hlead 6%N r); [lia|]. rewrite <- Hof.
    apply (of_uint_cons_ge 6 Decimal.D6); reflexivity.
  - apply (Hlead 7%N r); [lia|]. rewrite <- Hof.
    apply (of_uint_cons_ge 7 Decimal.D7); reflexivity.
  - apply (Hlead 8%N r); [lia|]. rewrite <- Hof.
    apply (of_uint_cons_ge 8 Decimal.D8); reflexivity.
  - apply (Hlead 9%N r); [lia|]. rewrite <- Hof.
    apply (of_uint_cons_ge 9 Decimal.D9); reflexivity.
Qed.

Lemma digits_of_N_nonempty n : is_empty (digits_of_N n) = false.
Proof.
  unfold digits_of_N. destruct (N.to_uint n) eqn:E; try reflexivity.
  destruct n as [|p]; [discriminate E|].
  elim (DecimalPos.Unsigned.to_uint_nonnil p E).
Qed.

Lemma digits_value_digits n : digits_value (digits_of_N n) = Some n.
Proof.
  unfold digits_value, digits_of_N. rewrite NilEmpty.usu. cbn [option_map].
  now rewrite DecimalN.Unsigned.of_to.
Qed.

Lemma uint_of_string_zeros k s d :
  NilEmpty.uint_of_string s = Some d ->
  NilEmpty.uint_of_string (zeros k ++ s) = Some (Nat.iter k Decimal.D0 d).
Proof.
  intros H. induction k as [|k IH]; [exact H|].
  cbn [zeros String.append NilEmpty.uint_of_string]. rewrite IH. reflexivity.
Qed.

(** Leading zeros do not change the value of a digit string. *)
Lemma digits_value_zeros k n :
  digits_value (zeros k ++ digits_of_N n) = Some n.
Proof.
  unfold digits_value, digits_of_N.
  rewrite (uint_of_string_zeros k _ _ (NilEmpty.usu _)). cbn [option_map].
  rewrite <- DecimalN.Unsigned.of_uint_norm, unorm_iter_D0,
    DecimalN.Unsigned.of_uint_norm.
  now rewrite DecimalN.Unsigned.of_to.
Qed.

Lemma string_length_app (s t : string) :
  String.length (s ++ t) = String.length s + String.length t.
Proof. induction s; simpl; auto. Qed.

Lemma zeros_length k : String.length (zeros k) = k.
Proof. induction k; simpl; auto. Qed.

Lemma string_forallb_app p (s t : string) :
  string_forallb p (s ++ t) = string_forallb p s && string_forallb p t.
Proof.
  induction s as [|c s IH]; [reflexivity|].
  simpl. rewrite IH. now rewrite andb_assoc.
Qed.

Lemma string_forallb_impl (p q : ascii -> bool) s :
  (forall c, p c = true -> q c = true) ->
  string_forallb p s = true -> string_forallb q s = true.
Proof.
  intros Hpq. induction s as [|c s IH]; [reflexivity|].
  simpl. rewrite !andb_true_iff. intros [H1 H2]. auto.
Qed.

Lemma zeros_digits k : string_forallb is_digit (zeros k) = true.
Proof. induction k; simpl; auto. Qed.

Lemma digits_of_N_digits n : string_forallb is_digit (digits_of_N n) = true.
Proof. apply string_of_uint_digits. Qed.

(** Case analysis on a character known to be a digit. *)
Lemma is_digit_cases (P : ascii -> Prop) :
  P "0"%char -> P "1"%char -> P "2"%char -> P "3"%char -> P "4"%char ->
  P "5"%char -> P "6"%char -> P "7"%char -> P "8"%char -> P "9"%char ->
  forall c, is_digit c = true -> P c.
Proof.
  intros P0 P1 P2 P3 P4 P5 P6 P7 P8 P9 c. unfold is_digit, in_chars.
  repeat match goal with
  | |- context [Ascii.eqb c ?d] =>
      destruct (Ascii.eqb_spec c d) as [->|_];
      [intros _; assumption | cbn [orb]]
  end.
  discriminate.
Qed.

(** ** Rounding *)

Lemma py_round_comp x y : (x == y)%Q -> py_round x = py_round y.
Proof.
  intros H. unfold py_round. rewrite (Qfloor_comp _ _ H).
  assert (E : (x - inject_Z (Qfloor y) == y - inject_Z (Qfloor y))%Q)
    by now rewrite H.
  now rewrite E.
Qed.

Lemma py_round_inject z : py_round (inject_Z z) = z.
Proof.
  unfold py_round. rewrite Qfloor_Z.
  assert (E : (inject_Z z - inject_Z z == 0)%Q) by ring.
  rewrite E. reflexivity.
Qed.

(** [round] stays between the floor and the floor plus one. *)
Lemma py_round_floor x :
  py_round x = Qfloor x \/ py_round x = (Qfloor x + 1)%Z.
Proof.
  unfold py_round. destruct (Qcompare _ _); auto. destruct (Z.even _); auto.
Qed.

(** An integer bound on a number bounds its rounding. *)
Lemma py_round_ge z x : (inject_Z z <= x)%Q -> (z <= py_round x)%Z.
Proof.
  intros H. apply Qfloor_resp_le in H. rewrite Qfloor_Z in H.
  destruct (py_round_floor x) as [-> | ->]; lia.
Qed.

Lemma py_round_le z x : (x <= inject_Z z)%Q -> (py_round x <= z)%Z.
Proof.
  intros H. pose proof (Qfloor_resp_le _ _ H) as Hf. rewrite Qfloor_Z in Hf.
  destruct (Z.eq_dec (Qfloor x) z) as [E|E].
  - assert (Hx : (x == inject_Z z)%Q).
    { apply Qle_antisym; [exact H|]. rewrite <- E. apply Qfloor_le. }
    rewrite (py_round_comp _ _ Hx), py_round_inject. lia.
  - destruct (py_round_floor x) as [-> | ->]; lia.
Qed.

Lemma py_round_nonneg x : (0 <= x)%Q -> (0 <= py_round x)%Z.
Proof. intros H. now apply (py_round_ge 0). Qed.

Lemma py_round_nonpos x : (x <= 0)%Q -> (py_round x <= 0)%Z.
Proof. intros H. now apply (py_round_le 0). Qed.

(** A number is within a half of its rounding. *)
Lemma py_round_near x :
  (inject_Z (py_round x) - (1 # 2) <= x)%Q /\
  (x <= inject_Z (py_round x) + (1 # 2))%Q.
Proof.
  pose proof (Qfloor_le x) as Hlo. pose proof (Qlt_floor x) as Hhi.
  rewrite inject_Z_plus in Hhi. change (inject_Z 1) with 1%Q in Hhi.
  unfold py_round.
  destruct (Qcompare (x - inject_Z (Qfloor x)) (1 # 2)) eqn:E.
  - apply Qeq_alt in E. destruct (Z.even (Qfloor x)).
    + split; lra.
    + rewrite inject_Z_plus. change (inject_Z 1) with 1%Q. split; lra.
  - apply Qlt_alt in E. split; lra.
  - apply Qgt_alt in E. rewrite inject_Z_plus.
    change (inject_Z 1) with 1%Q. split; lra.
Qed.

(** ** Stripping and splitting *)

Lemma string_app_assoc (a b c : string) : ((a ++ b) ++ c = a ++ (b ++ c))%string.
Proof. induction a as [|x a IH]; [reflexivity|]. simpl. now rewrite IH. Qed.

Lemma is_empty_app (s t : string) :
  is_empty (s ++ t) = is_empty s && is_empty t.
Proof. destruct s; reflexivity. Qed.

Lemma numeric_word_char c : numeric_char c = true -> word_char c = true.
Proof.
  unfold numeric_char. rewrite !orb_true_iff. intros [[H|H]|H].
  - revert c H. apply is_digit_cases; reflexivity.
  - apply Ascii.eqb_eq in H. now subst.
  - apply Ascii.eqb_eq in H. now subst.
Qed.

Lemma word_char_solid c : word_char c = true -> solid c = true.
Proof. unfold word_char. rewrite andb_true_iff. tauto. Qed.

Lemma rstrip_by_keep p t :
  string_forallb (fun c => negb (p c)) t = true -> rstrip_by p t = t.
Proof.
  induction t as [|c t IH]; [reflexivity|]. simpl.
  rewrite andb_true_iff. intros [Hc Ht]. rewrite (IH Ht).
  apply negb_true_iff in Hc. rewrite Hc, andb_false_r. reflexivity.
Qed.

Lemma rstrip_by_junk p s j :
  string_forallb p j = true -> rstrip_by p (s ++ j) = rstrip_by p s.
Proof.
  intros Hj.
  assert (Hjunk : rstrip_by p j = EmptyString).
  { induction j as [|c j IH]; [reflexivity|]. simpl in *.
    apply andb_true_iff in Hj. destruct Hj as [Hc Hj].
    rewrite (IH Hj), Hc. reflexivity. }
  induction s as [|c s IH]; [exact Hjunk|]. simpl. now rewrite IH.
Qed.

Lemma rstrip_by_app p s t :
  is_empty (rstrip_by p t) = false ->
  rstrip_by p (s ++ t) = (s ++ rstrip_by p t)%string.
Proof.
  intros Ht. induction s as [|c s IH]; [reflexivity|]. simpl. rewrite IH.
  rewrite is_empty_app, Ht, andb_false_r. reflexivity.
Qed.

Lemma split_on_none sep s :
  string_forallb (fun c => negb (Ascii.eqb c sep)) s = true ->
  split_on sep s = [s].
Proof.
  induction s as [|c s IH]; [reflexivity|]. simpl.
  rewrite andb_true_iff. intros [Hc Hs]. apply negb_true_iff in Hc.
  rewrite Hc, (IH Hs). reflexivity.
Qed.

Lemma split_on_app sep a b :
  string_forallb (fun c => negb (Ascii.eqb c sep)) a = true ->
  split_on sep (a ++ String sep b) = a :: split_on sep b.
Proof.
  induction a as [|c a IH]; simpl.
  - intros _. now rewrite Ascii.eqb_refl.
  - rewrite andb_true_iff. intros [Hc Ha]. apply negb_true_iff in Hc.
    rewrite Hc, (IH Ha). reflexivity.
Qed.

Lemma solid_not_space c : solid c = true -> is_space c = false.
Proof.
  unfold solid. rewrite !andb_true_iff. intros [[_ H] _].
  now apply negb_true_iff.
Qed.

Lemma solid_not_delimiter c : solid c = true -> in_chars delimiters c = false.
Proof.
  unfold solid. rewrite !andb_true_iff. intros [_ H].
  now apply negb_true_iff.
Qed.

Lemma split_ws_word t : word t -> split_ws t = [t].
Proof.
  intros [Hne Hs]. induction t as [|c t IH]; [discriminate Hne|].
  simpl in Hs. apply andb_true_iff in Hs. destruct Hs as [Hc Ht].
  cbn [split_ws]. rewrite (solid_not_space _ Hc).
  destruct t as [|c' t']; [reflexivity|].
  assert (Hc' : solid c' = true).
  { simpl in Ht. apply andb_true_iff in Ht. tauto. }
  rewrite (solid_not_space _ Hc'). rewrite (IH eq_refl Ht). reflexivity.
Qed.

Lemma split_ws_word_space t rest :
  word t -> split_ws (t ++ String " " rest) = t :: split_ws rest.
Proof.
  intros [Hne Hs]. induction t as [|c t IH]; [discriminate Hne|].
  simpl in Hs. apply andb_true_iff in Hs. destruct Hs as [Hc Ht].
  cbn [String.append split_ws]. rewrite (solid_not_space _ Hc).
  destruct t as [|c' t']; [reflexivity|].
  assert (Hc' : solid c' = true).
  { simpl in Ht. apply andb_true_iff in Ht. tauto. }
  cbn [String.append]. rewrite (solid_not_space _ Hc').
  change (String c' (t' ++ String " " rest))
    with (String c' t' ++ String " " rest)%string.
  rewrite (IH eq_refl Ht). reflexivity.
Qed.

Lemma spaced_cons t toks :
  spaced (t :: toks) =
  match toks with
  | [] => (t ++ " ")%string
  | _ => (t ++ String " " (spaced toks))%string
  end.
Proof.
  unfold spaced, concat_all. destruct toks as [|t2 rest]; [reflexivity|].
  cbn [map String.concat].
  rewrite string_app_assoc. reflexivity.
Qed.

Lemma split_ws_spaced toks :
  Forall word toks -> split_ws (spaced toks) = toks.
Proof.
  induction 1 as [|t toks Ht Hall IH]; [reflexivity|].
  rewrite spaced_cons. destruct toks as [|t2 rest].
  - rewrite (split_ws_word_space t EmptyString Ht). reflexivity.
  - rewrite (split_ws_word_space _ _ Ht), IH. reflexivity.
Qed.

Lemma join_cons sep t toks :
  join sep (t :: toks) =
  match toks with
  | [] => t
  | _ => (t ++ sep ++ join sep toks)%string
  end.
Proof. destruct toks; reflexivity. Qed.

Lemma word_keep t : word t -> rstrip_by (in_chars delimiters) t = t.
Proof.
  intros [_ Hs]. apply rstrip_by_keep.
  revert Hs. apply string_forallb_impl. intros c Hc.
  now rewrite (solid_not_delimiter _ Hc).
Qed.

Lemma join_nonempty t toks : word t -> is_empty (join " " (t :: toks)) = false.
Proof.
  intros [Hne _]. rewrite join_cons. destruct toks; [exact Hne|].
  now rewrite is_empty_app, Hne.
Qed.

(** Stripping the end of a response body leaves its words joined by
    single spaces. *)
Lemma rstrip_spaced toks :
  Forall word toks -> toks <> [] ->
  rstrip_by (in_chars delimiters) (spaced toks ++ CRLF) = join " " toks.
Proof.
  induction 1 as [|t toks Ht Hall IH]; intros Hne; [now elim Hne|].
  rewrite spaced_cons, join_cons. destruct toks as [|t2 rest].
  - rewrite string_app_assoc, rstrip_by_junk by reflexivity.
    now apply word_keep.
  - change (t ++ String " " (spaced (t2 :: rest)))%string
      with (t ++ (" " ++ spaced (t2 :: rest)))%string.
    rewrite <- string_app_assoc, string_app_assoc.
    assert (Hrec : rstrip_by (in_chars delimiters) (spaced (t2 :: rest) ++ CRLF)
                   = join " " (t2 :: rest)) by (apply IH; discriminate).
    rewrite rstrip_by_app.
    + rewrite Hrec. now rewrite string_app_assoc.
    + rewrite Hrec. apply join_nonempty. now inversion Hall.
Qed.

Lemma split_ws_join toks : Forall word toks -> split_ws (join " " toks) = toks.
Proof.
  induction 1 as [|t toks Ht Hall IH]; [reflexivity|].
  rewrite join_cons. destruct toks as [|t2 rest].
  - now apply split_ws_word.
  - change (t ++ " " ++ join " " (t2 :: rest))%string
      with (t ++ String " " (join " " (t2 :: rest)))%string.
    rewrite (split_ws_word_space _ _ Ht), IH. reflexivity.
Qed.

Lemma solid_line_char c : solid c = true -> line_char c = true.
Proof.
  intros H. unfold line_char.
  pose proof (solid_not_delimiter _ H) as Hd.
  unfold solid in H. rewrite !andb_true_iff in H. destruct H as [[Ha _] _].
  rewrite Ha. cbn [andb]. apply negb_true_iff.
  destruct (Ascii.eqb_spec c LF) as [->|]; [discriminate Hd | reflexivity].
Qed.

Lemma spaced_line_chars toks :
  Forall word toks -> string_forallb line_char (spaced toks) = true.
Proof.
  induction 1 as [|t toks [_ Ht] Hall IH]; [reflexivity|].
  assert (Hl : string_forallb line_char t = true).
  { revert Ht. apply string_forallb_impl, solid_line_char. }
  rewrite spaced_cons. destruct toks as [|t2 rest].
  - rewrite string_forallb_app, Hl. reflexivity.
  - change (t ++ String " " (spaced (t2 :: rest)))%string
      with (t ++ (" " ++ spaced (t2 :: rest)))%string.
    rewrite !string_forallb_app, Hl, IH. reflexivity.
Qed.

Lemma take_line_end s :
  string_forallb (fun c => negb (Ascii.eqb c LF)) s = true ->
  take_line (s ++ String LF EmptyString) = ((s ++ String LF EmptyString)%string, EmptyString).
Proof.
  induction s as [|c s IH]; [reflexivity|]. simpl.
  rewrite andb_true_iff. intros [Hc Hs]. apply negb_true_iff in Hc.
  rewrite Hc, (IH Hs). reflexivity.
Qed.

Lemma lstrip_prefix s :
  lstrip_by (in_chars delimiters) (":A " ++ s) =
  lstrip_by (in_chars delimiters) s.
Proof. reflexivity. Qed.

(** A response line of the standard shape with words [toks]: it is read
    whole, and stripped and split it gives back the words. *)
Lemma standard_line toks :
  Forall word toks -> toks <> [] ->
  let line := (":A " ++ spaced toks ++ CRLF)%string in
  clean_reply line = true /\
  is_empty (strip delimiters line) = false /\
  split_ws (strip delimiters line) = toks.
Proof.
  intros Hall Hne line.
  assert (Hbody : string_forallb line_char (":A " ++ spaced toks ++ String CR EmptyString) = true).
  { rewrite !string_forallb_app, (spaced_line_chars _ Hall). reflexivity. }
  assert (Hline : line = ((":A " ++ spaced toks ++ String CR EmptyString)
                            ++ String LF EmptyString)%string).
  { unfold line, CRLF. rewrite !string_app_assoc. reflexivity. }
  assert (Hstrip : strip delimiters line = join " " toks).
  { unfold strip, line. rewrite lstrip_prefix.
    destruct toks as [|t rest]; [now elim Hne|].
    assert (Hs : lstrip_by (in_chars delimiters) (spaced (t :: rest) ++ CRLF)
                 = (spaced (t :: rest) ++ CRLF)%string).
    { inversion Hall as [|? ? [Hte Hts] _]; subst.
      destruct t as [|c t']; [discriminate Hte|].
      simpl in Hts. apply andb_true_iff in Hts. destruct Hts as [Hc _].
      rewrite spaced_cons.
      destruct rest; cbn [String.append lstrip_by];
        now rewrite (solid_not_delimiter _ Hc). }
    rewrite Hs. now apply rstrip_spaced. }
  split; [|split].
  - unfold clean_reply. rewrite Hline, take_line_end.
    + rewrite andb_true_r. unfold is_ascii. rewrite string_forallb_app.
      rewrite (string_forallb_impl line_char is_ascii_char _); [reflexivity| |exact Hbody].
      intros c Hc. unfold line_char in Hc. apply andb_true_iff in Hc. tauto.
    + revert Hbody. apply string_forallb_impl.
      intros c Hc. unfold line_char in Hc. apply andb_true_iff in Hc. tauto.
  - rewrite Hstrip. destruct toks as [|t rest]; [now elim Hne|].
    apply join_nonempty. now inversion Hall.
  - rewrite Hstrip. now apply split_ws_join.
Qed.

(** ** Numbers on the wire *)

Lemma split_sign_digit c rest :
  is_digit c = true -> split_sign (String c rest) = (false, String c rest).
Proof. revert c. apply is_digit_cases; reflexivity. Qed.

Lemma digits_first n :
  exists c rest, digits_of_N n = String c rest /\ is_digit c = true.
Proof.
  pose proof (digits_of_N_nonempty n) as Hne.
  pose proof (digits_of_N_digits n) as Hd.
  destruct (digits_of_N n) as [|c rest]; [discriminate Hne|].
  simpl in Hd. apply andb_true_iff in Hd. exists c, rest. tauto.
Qed.

Lemma digits_no_point s :
  string_forallb is_digit s = true ->
  string_forallb (fun c => negb (Ascii.eqb c ".")) s = true.
Proof.
  apply string_forallb_impl. apply is_digit_cases; reflexivity.
Qed.

(** The decimal point form of a number given by its integer part [i] and
    the six digits of [f]: what [float] reads back. *)
Lemma float_of_fixed (neg : bool) i f :
  (f < 1000000)%N ->
  let fp := digits_of_N f in
  let body := (digits_of_N i ++ "." ++ zeros (6 - String.length fp) ++ fp)%string in
  float_of_string ((if neg then "-" else "") ++ body) =
  Some (Qmake (apply_sign neg (i * 1000000 + f)%N) 1000000).
Proof.
  intros Hf. cbv zeta.
  set (frac := (zeros (6 - String.length (digits_of_N f)) ++ digits_of_N f)%string).
  assert (Hfrac : string_forallb is_digit frac = true).
  { unfold frac. rewrite string_forallb_app.
    now rewrite zeros_digits, digits_of_N_digits. }
  assert (Hlen : String.length frac = 6).
  { unfold frac. rewrite string_length_app, zeros_length.
    pose proof (digits_of_N_length f Hf). lia. }
  assert (Hval : digits_value frac = Some f) by apply digits_value_zeros.
  assert (Hsign : split_sign ((if neg then "-" else "")
                              ++ digits_of_N i ++ "." ++ frac)
                  = (neg, (digits_of_N i ++ "." ++ frac)%string)).
  { destruct neg; [reflexivity|]. cbn [String.append].
    destruct (digits_first i) as (c & rest & -> & Hc).
    cbn [String.append]. now apply split_sign_digit. }
  unfold float_of_string. rewrite Hsign.
  change (digits_of_N i ++ "." ++ frac)%string
    with (digits_of_N i ++ String "." frac)%string.
  rewrite split_on_app by (apply digits_no_point, digits_of_N_digits).
  rewrite split_on_none by (apply digits_no_point, Hfrac).
  rewrite digits_of_N_nonempty. cbn [andb].
  rewrite digits_value_digits, Hval, Hlen. reflexivity.
Qed.

(** [float] reads the text of ['%0.6f'] back as the number rounded to six
    decimals. *)
Lemma float_of_format_f6 x : float_of_string (format_f6 x) = Some (py_round_n 6 x).
Proof.
  unfold format_f6, py_round_n.
  change (inject_Z (Zpos (pow10 6))) with (inject_Z 1000000).
  change (pow10 6) with 1000000%positive.
  set (K := py_round (x * inject_Z 1000000)).
  set (k := Z.abs_N K).
  assert (Hmod : (k mod 1000000 < 1000000)%N) by (apply N.mod_lt; discriminate).
  pose proof (float_of_fixed (negb (Qle_bool 0 x)) (k / 1000000) (k mod 1000000) Hmod)
    as H. cbv zeta in H.
  assert (Hs : (if Qle_bool 0 x then "" else "-")
               = (if negb (Qle_bool 0 x) then "-" else "")%string)
    by (destruct (Qle_bool 0 x); reflexivity).
  rewrite Hs, H. do 2 f_equal.
  assert (Hk : (k / 1000000 * 1000000 + k mod 1000000 = k)%N).
  { rewrite N.mul_comm. symmetry. apply N.div_mod. discriminate. }
  rewrite Hk. unfold apply_sign, k.
  destruct (Qle_bool 0 x) eqn:E; cbn [negb].
  - apply Qle_bool_iff in E.
    assert (0 <= K)%Z.
    { apply py_round_nonneg. apply Qmult_le_0_compat; [exact E|discriminate]. }
    rewrite N2Z.inj_abs_N. lia.
  - assert (Hx : (x < 0)%Q).
    { apply Qnot_le_lt. intros Hle. apply Qle_bool_iff in Hle. congruence. }
    assert (K <= 0)%Z.
    { apply py_round_nonpos.
      assert (E1 : (0 == 0 * inject_Z 1000000)%Q) by ring.
      rewrite E1. apply Qmult_le_compat_r; [now apply Qlt_le_weak|discriminate]. }
    rewrite N2Z.inj_abs_N. lia.
Qed.

Lemma format_f6_numeric x : string_forallb numeric_char (format_f6 x) = true.
Proof.
  assert (Hd : forall s, string_forallb is_digit s = true ->
                         string_forallb numeric_char s = true).
  { intros s. apply string_forallb_impl. intros c Hc.
    unfold numeric_char. now rewrite Hc. }
  unfold format_f6. rewrite !string_forallb_app.
  rewrite (Hd _ (digits_of_N_digits _)), (Hd _ (zeros_digits _)).
  rewrite (Hd _ (digits_of_N_digits _)).
  destruct (Qle_bool 0 x); reflexivity.
Qed.

Lemma format_f6_nonempty x : is_empty (format_f6 x) = false.
Proof.
  unfold format_f6. rewrite !is_empty_app, digits_of_N_nonempty.
  now rewrite andb_false_r.
Qed.

(** The text of ['%d'] is read back by [int]. *)
Lemma format_d_numeric z : string_forallb numeric_char (format_d z) = true.
Proof.
  unfold format_d. rewrite string_forallb_app.
  assert (Hd : string_forallb numeric_char (digits_of_N (Z.abs_N z)) = true).
  { generalize (digits_of_N_digits (Z.abs_N z)).
    apply string_forallb_impl. intros c Hc. unfold numeric_char. now rewrite Hc. }
  rewrite Hd. destruct (z <? 0)%Z; reflexivity.
Qed.

Lemma strip_ws_solid s :
  string_forallb solid s = true -> strip_ws s = s.
Proof.
  intros Hs. unfold strip_ws.
  assert (Hl : lstrip_by is_space s = s).
  { destruct s as [|c s]; [reflexivity|]. simpl in Hs.
    apply andb_true_iff in Hs. destruct Hs as [Hc _].
    cbn [lstrip_by]. now rewrite (solid_not_space _ Hc). }
  rewrite Hl. apply rstrip_by_keep. revert Hs.
  apply string_forallb_impl. intros c Hc. now rewrite (solid_not_space _ Hc).
Qed.

Lemma int_of_format_d z : int_of_string (format_d z) = Some z.
Proof.
  unfold int_of_string.
  rewrite strip_ws_solid.
  2:{ generalize (format_d_numeric z). apply string_forallb_impl.
      intros c Hc. apply word_char_solid, numeric_word_char, Hc. }
  unfold format_d. destruct (z <? 0)%Z eqn:E.
  - cbn [String.append split_sign]. rewrite digits_of_N_nonempty.
    rewrite digits_value_digits. cbn [option_map apply_sign].
    apply Z.ltb_lt in E. rewrite N2Z.inj_abs_N. f_equal. lia.
  - cbn [String.append]. destruct (digits_first (Z.abs_N z)) as (c & rest & Hd & Hc).
    rewrite Hd, (split_sign_digit _ _ Hc). cbn [is_empty]. rewrite <- Hd.
    rewrite digits_value_digits. cbn [option_map apply_sign].
    apply Z.ltb_ge in E. rewrite N2Z.inj_abs_N. f_equal. lia.
Qed.

(** ** PWM intensity *)

Lemma ready_sent cmd r rest c :
  is_open (port c) = true -> clean_reply r = true ->
  ready (sent cmd (r :: rest) c) r rest.
Proof. intros Ho Hr. repeat split; auto. Qed.

Lemma numeric_ascii s :
  string_forallb numeric_char s = true -> is_ascii s = true.
Proof.
  apply string_forallb_impl. intros c Hc.
  apply numeric_word_char, word_char_solid in Hc.
  unfold solid in Hc. rewrite !andb_true_iff in Hc. tauto.
Qed.

Lemma numeric_solid s :
  string_forallb numeric_char s = true -> string_forallb solid s = true.
Proof.
  apply string_forallb_impl. intros c Hc.
  now apply word_char_solid, numeric_word_char.
Qed.

Lemma numeric_no_equals s :
  string_forallb numeric_char s = true ->
  string_forallb (fun c => negb (Ascii.eqb c "=")) s = true.
Proof.
  apply string_forallb_impl. intros c Hc.
  apply numeric_word_char in Hc. unfold word_char in Hc.
  apply andb_true_iff in Hc. tauto.
Qed.

(** The answer to the intensity query, which carries its delimiter at the
    end: it is read whole and strips to [X=n]. *)
Lemma led_reply_decode n :
  clean_reply (led_reply n) = true /\
  strip delimiters (led_reply n) = ("X=" ++ format_d n)%string.
Proof.
  pose proof (format_d_numeric n) as Hnum.
  assert (Hsolid : string_forallb solid ("X=" ++ format_d n) = true).
  { rewrite string_forallb_app, (numeric_solid _ Hnum). reflexivity. }
  split.
  - unfold clean_reply, led_reply, CRLF.
    assert (E : ("X=" ++ format_d n ++ " :A " ++ String CR (String LF EmptyString))%string
                = (("X=" ++ format_d n ++ " :A " ++ String CR EmptyString)
                     ++ String LF EmptyString)%string).
    { rewrite !string_app_assoc. reflexivity. }
    rewrite E.
    assert (Hl : string_forallb line_char
                   ("X=" ++ format_d n ++ " :A " ++ String CR EmptyString) = true).
    { rewrite !string_forallb_app.
      rewrite (string_forallb_impl solid line_char _ solid_line_char
                 (numeric_solid _ Hnum)). reflexivity. }
    rewrite take_line_end.
    + rewrite andb_true_r. unfold is_ascii. rewrite string_forallb_app.
      rewrite (string_forallb_impl line_char is_ascii_char _); [reflexivity| |exact Hl].
      intros c Hc. unfold line_char in Hc. apply andb_true_iff in Hc. tauto.
    + revert Hl. apply string_forallb_impl.
      intros c Hc. unfold line_char in Hc. apply andb_true_iff in Hc. tauto.
  - unfold strip.
    assert (Hl : lstrip_by (in_chars delimiters) (led_reply n) = led_reply n)
      by reflexivity.
    rewrite Hl. unfold led_reply.
    rewrite <- (string_app_assoc "X=" (format_d n) (" :A " ++ CRLF)).
    rewrite rstrip_by_junk by reflexivity.
    apply rstrip_by_keep. revert Hsolid. apply string_forallb_impl.
    intros c Hc. now rewrite (solid_not_delimiter _ Hc).
Qed.

Lemma get_pwm_intensity_run c n rest :
  ready c (led_reply n) rest ->
  get_pwm_intensity c =
    (Ok n, set_pwm_intensity_attr (Some n) (sent "LED X?" rest c)).
Proof.
  intros Hr. destruct (led_reply_decode n) as [_ Hstrip].
  unfold get_pwm_intensity.
  assert (Hne : is_empty (strip delimiters (led_reply n)) = false)
    by (rewrite Hstrip; reflexivity).
  rewrite (bind_run _ _ _ _ _ (send_str_run "LED X?" c _ rest eq_refl Hr Hne)).
  rewrite Hstrip. unfold lift at 1, as_str. unfold bind at 1.
  change ("X=" ++ format_d n)%string with ("X" ++ String "=" (format_d n))%string.
  rewrite split_on_app by reflexivity.
  rewrite (split_on_none _ _ (numeric_no_equals _ (format_d_numeric n))).
  unfold lift at 1, index. cbn [nth_error]. unfold bind at 1.
  rewrite int_of_format_d. reflexivity.
Qed.

(** *** C7 *)

(** C7.  [set_pwm_intensity] given an integer below 1 or above 99 raises
    the range assertion of line 351 and leaves the controller, its port
    included, as it was.  Given an integer from 1 to 99, with a device
    that acknowledges the command and reports the value it was sent,
    the call succeeds, having written the set command and the query,
    and a following [get_pwm_intensity] returns that integer. *)
Theorem intensity_range_and_echo :
  (forall c n, (n < 1 \/ 99 < n)%Z ->
     set_pwm_intensity (VInt n) c = (Raise (AssertionError 351), c)) /\
  (forall c n reply rest, (1 <= n <= 99)%Z ->
     ready c reply (led_reply n :: led_reply n :: rest) ->
     exists c1 c2,
       set_pwm_intensity (VInt n) c = (Ok tt, c1) /\
       written (port c1) =
         written (port c) ++
           [(("LED X=" ++ format_d n) ++ String CR EmptyString)%string;
            ("LED X?" ++ String CR EmptyString)%string] /\
       get_pwm_intensity c1 = (Ok n, c2) /\
       pwm_intensity c2 = Some n).
Proof.
  split.
  - intros c n Hn. unfold set_pwm_intensity.
    unfold bind at 1. cbn [is_number assert_ ret].
    unfold bind at 1. cbn [py_int lift].
    unfold bind at 1.
    assert (E : ((1 <=? n)%Z && (n <=? 99)%Z) = false).
    { apply andb_false_iff. destruct Hn; [left|right]; apply Z.leb_gt; lia. }
    rewrite E. reflexivity.
  - intros c n reply rest Hn Hr.
    destruct (led_reply_decode n) as [Hclean _].
    assert (Hopen : is_open (port c) = true) by apply Hr.
    assert (Hcmd : is_ascii ("LED X=" ++ format_d n) = true).
    { unfold is_ascii. rewrite string_forallb_app.
      fold (is_ascii (format_d n)).
      now rewrite (numeric_ascii _ (format_d_numeric n)). }
    set (c0 := sent ("LED X=" ++ format_d n) (led_reply n :: led_reply n :: rest) c).
    set (c1 := set_pwm_intensity_attr (Some n)
                 (sent "LED X?" (led_reply n :: rest) c0)).
    exists c1, (set_pwm_intensity_attr (Some n) (sent "LED X?" rest c1)).
    assert (Hset : set_pwm_intensity (VInt n) c = (Ok tt, c1)).
    { unfold set_pwm_intensity.
      unfold bind at 1. cbn [is_number assert_ ret].
      unfold bind at 1. cbn [py_int lift].
      unfold bind at 1.
      assert (E : ((1 <=? n)%Z && (n <=? 99)%Z) = true).
      { apply andb_true_iff. split; apply Z.leb_le; lia. }
      rewrite E. cbn [assert_ ret].
      rewrite (bind_run _ _ _ _ _ (send_silent_run _ c _ _ Hcmd Hr)).
      fold c0.
      rewrite (bind_run _ _ _ _ _
                 (get_pwm_intensity_run c0 n (led_reply n :: rest)
                    (ready_sent _ _ _ c Hopen Hclean))).
      fold c1. now rewrite Z.eqb_refl. }
    split; [exact Hset|]. split.
    + unfold c1, c0. cbn [port set_pwm_intensity_attr sent set_port advance written].
      rewrite <- app_assoc. reflexivity.
    + split; [|reflexivity].
      apply get_pwm_intensity_run. unfold c1.
      repeat split; auto.
Qed.

Lemma intensity_range_and_echo_witness :
  let c := plain_controller [ack; led_reply 50; led_reply 50] in
  set_pwm_intensity (VInt 150) c = (Raise (AssertionError 351), c) /\
  exists c1 c2,
    set_pwm_intensity (VInt 50) c = (Ok tt, c1) /\
    get_pwm_intensity c1 = (Ok 50%Z, c2).
Proof.
  intros c. split.
  - exact (proj1 intensity_range_and_echo c 150%Z (or_intror eq_refl)).
  - assert (Hr : ready c ack [led_reply 50; led_reply 50]).
    { repeat split; vm_compute; reflexivity. }
    assert (Hn : (1 <= 50 <= 99)%Z) by lia.
    destruct (proj2 intensity_range_and_echo c 50%Z ack [] Hn Hr)
      as (c1 & c2 & Hset & _ & Hget & _).
    exists c1, c2. auto.
Defined.

(** ** Axis replies *)

Lemma supported_axis_names axs :
  supported_axes axs -> Forall axis_name axs /\ axs <> [].
Proof.
  intros [-> | [-> | ->]]; split; try discriminate;
    repeat constructor.
Qed.

Lemma axis_word_word a v : axis_name a -> word (axis_word (a, v)).
Proof.
  intros [Hne Hw]. unfold axis_word. cbn [fst snd]. split.
  - now rewrite is_empty_app, Hne.
  - rewrite string_forallb_app. cbn [string_forallb].
    rewrite (string_forallb_impl _ _ _ word_char_solid Hw).
    rewrite (numeric_solid _ (format_f6_numeric v)). reflexivity.
Qed.

Lemma axis_reply_spaced axs ws :
  axis_reply axs ws =
  (":A " ++ spaced (map axis_word (combine axs ws)) ++ CRLF)%string.
Proof.
  unfold axis_reply, spaced. rewrite map_map. do 3 f_equal.
  apply map_ext. intros [a v]. unfold axis_word. cbn [fst snd].
  rewrite string_app_assoc. reflexivity.
Qed.

(** The loop of [_send] over the words of a reply gives the names and
    the values, each value as its six-decimal text denotes it. *)
Lemma parse_axis_words pairs :
  Forall (fun av => axis_name (fst av)) pairs ->
  parse_axes_loop (map axis_word pairs) =
  Ok (map fst pairs, map (fun av => py_round_n 6 (snd av)) pairs).
Proof.
  induction 1 as [|[a v] pairs [_ Ha] Hall IH]; [reflexivity|].
  cbn [map parse_axes_loop fst snd]. unfold axis_word at 1. cbn [fst snd].
  rewrite split_on_app.
  2:{ revert Ha. apply string_forallb_impl. intros c Hc.
      unfold word_char in Hc. apply andb_true_iff in Hc. tauto. }
  rewrite (split_on_none _ _ (numeric_no_equals _ (format_f6_numeric v))).
  rewrite float_of_format_f6, IH. reflexivity.
Qed.

Lemma combine_fst {A B : Type} (l : list A) (l' : list B) :
  length l = length l' -> map fst (combine l l') = l.
Proof.
  revert l'. induction l as [|a l IH]; intros [|b l'] H; try discriminate H;
    [reflexivity|]. simpl. f_equal. apply IH. now injection H.
Qed.

Lemma combine_snd {A B : Type} (l : list A) (l' : list B) :
  length l = length l' -> map snd (combine l l') = l'.
Proof.
  revert l'. induction l as [|a l IH]; intros [|b l'] H; try discriminate H;
    [reflexivity|]. simpl. f_equal. apply IH. now injection H.
Qed.

(** A query answered by the reply for [ws]: [_send] returns the values,
    each rounded to the six decimals of its text. *)
Lemma send_axes_run cmd c axs ws rest :
  is_ascii cmd = true ->
  axes c = Some axs -> Forall axis_name axs -> axs <> [] ->
  length axs = length ws ->
  is_open (port c) = true -> in_buffer (port c) = EmptyString ->
  device (port c) = axis_reply axs ws :: rest ->
  _send cmd true true c =
    (Ok (RTuple (map (py_round_n 6) ws)), sent cmd rest c) /\
  clean_reply (axis_reply axs ws) = true.
Proof.
  intros Hcmd Hax Hnames Hne Hlen Ho Hb Hd.
  assert (Hwords : Forall word (map axis_word (combine axs ws))).
  { apply Forall_map. apply Forall_forall. intros [a v] Hin.
    apply axis_word_word. eapply Forall_forall; [exact Hnames|].
    eapply in_combine_l; eauto. }
  assert (Hne' : map axis_word (combine axs ws) <> []).
  { destruct axs as [|a axs]; [now elim Hne|].
    destruct ws as [|w ws]; discriminate. }
  destruct (standard_line _ Hwords Hne') as (Hclean & Hnonempty & Hsplit).
  rewrite <- axis_reply_spaced in Hclean, Hnonempty, Hsplit.
  split; [|exact Hclean].
  rewrite (send_run cmd true true c (axis_reply axs ws) rest Hcmd).
  2:{ repeat split; auto. }
  f_equal. unfold decode_response. rewrite Hnonempty, Hsplit.
  cbn [negb rassert rbind].
  rewrite parse_axis_words.
  2:{ apply Forall_forall. intros [a v] Hin. cbn [fst].
      eapply Forall_forall; [exact Hnames|]. eapply in_combine_l; eauto. }
  cbn [rbind]. rewrite Hax. cbn [attr rbind fst snd].
  rewrite (combine_fst _ _ Hlen).
  rewrite (proj2 (list_eqb_string_eq axs axs) eq_refl). cbn [rassert rbind].
  rewrite <- (combine_snd axs ws Hlen) at 2. now rewrite map_map.
Qed.

(** ** Set, then get *)

(** A getter on a port whose device answers with the reply for [ws]. *)
Lemma getter_run p c axs ws rest :
  axes c = Some axs -> supported_axes axs ->
  length axs = length ws ->
  is_open (port c) = true -> in_buffer (port c) = EmptyString ->
  device (port c) = axis_reply axs ws :: rest ->
  let got := map (received p) (map (py_round_n 6) ws) in
  getter p c =
    (Ok got,
     set_current p (Some got) (sent (query_cmd (keyword p) axs) rest c)).
Proof.
  intros Hax Hsup Hlen Ho Hb Hd got.
  destruct (supported_axis_names _ Hsup) as [Hnames Hne].
  assert (Hcmd : is_ascii (query_cmd (keyword p) axs) = true).
  { destruct p, Hsup as [-> | [-> | ->]]; reflexivity. }
  destruct (send_axes_run _ c axs ws rest Hcmd Hax Hnames Hne Hlen Ho Hb Hd)
    as [Hsend _].
  destruct p; cbn [getter keyword set_current received] in *;
    [ unfold _get_velocity | unfold _get_acceleration
    | unfold _get_settle_time | unfold _get_precision ];
    unfold bind at 1; unfold reading at 1; rewrite Hax; cbn [attr];
    rewrite (bind_run _ _ _ _ _ Hsend);
    unfold bind at 1; cbn [lift as_tuple];
    unfold bind at 1; unfold update at 1; cbn [ret];
    unfold got; rewrite ?map_id; reflexivity.
Qed.

Lemma each_run {A B : Type} (step : nat -> A -> result B) (f : nat -> A -> B) vs :
  forall i,
  (forall k v, nth_error vs k = Some v -> step (i + k) v = Ok (f (i + k) v)) ->
  each step i vs = Ok (imap f i vs).
Proof.
  induction vs as [|v rest IH]; intros i H; [reflexivity|].
  cbn [each imap]. specialize (H 0 v eq_refl) as H0.
  rewrite Nat.add_0_r in H0. rewrite H0. cbn [rbind].
  rewrite IH; [reflexivity|].
  intros k w Hw. specialize (H (S k) w Hw). now rewrite Nat.add_succ_r in H.
Qed.

Lemma imap_fst {A B C : Type} (g : A -> B) (h : nat -> A -> C) l : forall i,
  map fst (imap (fun i a => (g a, h i a)) i l) = map g l.
Proof. induction l as [|a l IH]; intros i; simpl; [|rewrite IH]; reflexivity. Qed.

Lemma imap_snd {A B C : Type} (g : A -> B) (h : nat -> A -> C) l : forall i,
  map snd (imap (fun i a => (g a, h i a)) i l) = imap h i l.
Proof. induction l as [|a l IH]; intros i; simpl; [|rewrite IH]; reflexivity. Qed.

Lemma imap_length {A B : Type} (f : nat -> A -> B) l : forall i,
  length (imap f i l) = length l.
Proof. induction l as [|a l IH]; intros i; simpl; [|rewrite IH]; reflexivity. Qed.

(** The loop of a setter whose entries are numbers within the bounds as
    the setter checks them: the intended values and the command pieces. *)
Lemma setter_loop_run p c axs X :
  well_formed c -> axes c = Some axs -> length X = length axs ->
  forallb is_number X = true ->
  (forall k v lo hi, nth_error X k = Some v ->
     lower_bound p c k = Some lo -> upper_bound p c k = Some hi ->
     in_range lo (checked p (number_of v)) hi = true) ->
  setter_loop p c X =
    Ok (map (fun v => intended p (number_of v)) X, imap (piece p axs) 0 X).
Proof.
  intros Hwf Hax Hlen Hnum Hin. unfold setter_loop.
  rewrite (each_run _ (fun i v => (intended p (number_of v), piece p axs i v))).
  - cbn [rbind]. now rewrite imap_fst, imap_snd.
  - intros k v Hk. cbn [Nat.add].
    assert (Hlt : k < length axs).
    { rewrite <- Hlen. apply nth_error_Some. congruence. }
    destruct (well_formed_at _ _ _ Hwf Hax Hlt) as ((a & Ha) & _ & _ & _ & Hb).
    destruct (Hb p) as (lo & hi & Hlo & Hhi).
    assert (Hv : is_number v = true).
    { rewrite forallb_forall in Hnum. apply Hnum. eapply nth_error_In; eauto. }
    rewrite (param_step_run _ _ _ _ _ _ _ _ Hv Hlo Hhi Hax Ha). cbv zeta.
    specialize (Hin k v lo hi Hk Hlo Hhi). unfold in_range in Hin.
    apply andb_true_iff in Hin. destruct Hin as [-> ->].
    unfold piece. now rewrite (nth_error_nth _ _ _ Ha).
Qed.

Lemma is_ascii_app (s t : string) : is_ascii (s ++ t) = is_ascii s && is_ascii t.
Proof. apply string_forallb_app. Qed.

Lemma is_ascii_concat_all l :
  forallb is_ascii l = true -> is_ascii (concat_all l) = true.
Proof.
  unfold concat_all. induction l as [|a l IH]; [reflexivity|].
  cbn [forallb]. rewrite andb_true_iff. intros [Ha Hl].
  destruct l as [|b l]; [exact Ha|].
  cbn [String.concat]. rewrite !is_ascii_app, Ha. cbn [andb].
  now apply IH.
Qed.

Lemma axis_name_ascii a : axis_name a -> is_ascii a = true.
Proof.
  intros [_ H]. revert H. apply string_forallb_impl. intros c Hc.
  apply word_char_solid in Hc. unfold solid in Hc.
  rewrite !andb_true_iff in Hc. tauto.
Qed.

Lemma piece_ascii p axs i v :
  Forall axis_name axs -> is_ascii (piece p axs i v) = true.
Proof.
  intros Hnames. unfold piece. rewrite !is_ascii_app.
  assert (Hn : is_ascii (nth i axs EmptyString) = true).
  { destruct (nth_in_or_default i axs EmptyString) as [Hin | ->]; [|reflexivity].
    apply axis_name_ascii. eapply Forall_forall; eauto. }
  rewrite Hn, (numeric_ascii _ (format_f6_numeric _)).
  destruct p; reflexivity.
Qed.

Lemma pieces_ascii p axs X : forall i,
  Forall axis_name axs -> forallb is_ascii (imap (piece p axs) i X) = true.
Proof.
  induction X as [|v X IH]; intros i Hn; [reflexivity|].
  cbn [imap forallb]. now rewrite piece_ascii, IH.
Qed.

(** Values that have six decimals are unchanged by rounding to six. *)
Lemma py_round_n_fixed K : py_round_n 6 (Qmake K 1000000) = Qmake K 1000000.
Proof.
  unfold py_round_n. change (pow10 6) with 1000000%positive. f_equal.
  assert (E : (Qmake K 1000000 * inject_Z 1000000 == inject_Z K)%Q).
  { unfold Qeq, Qmult, inject_Z. cbn [Qnum Qden]. lia. }
  now rewrite (py_round_comp _ _ E), py_round_inject.
Qed.





(** An entry within integer bounds is within them after its rounding. *)
Lemma checked_in_range p lo x hi :
  (p <> Velocity -> integral lo /\ integral hi) ->
  in_range lo x hi = true -> in_range lo (checked p x) hi = true.
Proof.
  intros Hint Hin. destruct p; cbn [checked]; [exact Hin| | |];
    (destruct Hint as [(zl & Hl) (zh & Hh)]; [discriminate|];
     unfold in_range in *; apply andb_true_iff in Hin; destruct Hin as [H1 H2];
     apply Qle_bool_iff in H1; apply Qle_bool_iff in H2;
     apply andb_true_iff; split; apply Qle_bool_iff;
     [ rewrite Hl; rewrite <- Zle_Qle; apply py_round_ge; now rewrite <- Hl
     | rewrite Hh; rewrite <- Zle_Qle; apply py_round_le; now rewrite <- Hh ]).
Qed.


(** *** C1 *)


(** The X-Y stage as constructed, whatever its device holds for later. *)
Lemma xy_stage_config replies :
  let c := xy_stage replies in
  axes c = Some ["X"; "Y"] /\
  max_velocity_mmps c = Some [7; 7]%Q /\
  min_acceleration_ms c = Some [25; 25]%Q /\
  max_acceleration_ms c = Some [1000; 1000]%Q /\
  max_settle_time_ms c = Some [1000; 1000]%Q /\
  tol_settle_time_ms c = Some [1; 1]%Q /\
  min_precision_um c = Some [1; 1]%Q /\
  max_precision_um c = Some [1000000; 1000000]%Q /\
  _moving c = Some false /\
  is_open (port c) = true /\
  in_buffer (port c) = EmptyString /\
  device (port c) = replies.
Proof. vm_compute. repeat split. Qed.

Lemma xy_stage_well_formed_any replies : well_formed (xy_stage replies).
Proof.
  exists ["X"; "Y"]. split; [vm_compute; reflexivity|].
  repeat constructor; eexists; (split; vm_compute; reflexivity).
Qed.

Lemma at_index_pair (a b x : Q) k :
  at_index (Some [a; b]) k = Some x -> x = a \/ x = b.
Proof.
  destruct k as [|[|k]]; cbn; intros H; try (injection H as <-; auto).
  destruct k; discriminate H.
Qed.

Lemma xy_stage_sound_limits replies : sound_limits (xy_stage replies).
Proof.
  destruct (xy_stage_config replies)
    as (_ & _ & Hamin & Hamax & Hsmax & Htol & Hpmin & Hpmax & _).
  split.
  - intros p k b Hp H.
    destruct p; [now elim Hp| | |];
      cbn [lower_bound upper_bound] in H;
      rewrite ?Hamin, ?Hamax, ?Hsmax, ?Hpmin, ?Hpmax in H;
      destruct H as [H|H];
      try (injection H as <-; exists 0%Z; reflexivity);
      apply at_index_pair in H; destruct H as [-> | ->];
      (exists 25%Z; reflexivity) || (exists 1000%Z; reflexivity)
      || (exists 1%Z; reflexivity) || (exists 1000000%Z; reflexivity).
  - intros tol d Ht Hd. rewrite Htol in Ht. injection Ht as <-.
    destruct Hd as [<- | [<- | []]]; discriminate.
Qed.


(** *** C8 *)

(** C8 (as the code behaves).  The precision is exchanged with a factor
    of a million, not a thousand: setting 1 um on both axes of the X-Y
    stage writes the wire value 0.000001, and a device report of
    0.001000 is decoded as 1000 um. *)
Theorem precision_exchanged_in_millionths :
  (let c := xy_stage [ack; axis_reply ["X"; "Y"] [1 # 1000000; 1 # 1000000]%Q] in
   exists c',
     _set_precision [VInt 1; VInt 1] c = (Ok tt, c') /\
     written (port c') =
       written (port c) ++
         [("PC PCX=0.000001 PCY=0.000001 " ++ String CR EmptyString)%string;
          ("PC X? Y?" ++ String CR EmptyString)%string]) /\
  (let d := xy_stage [axis_reply ["X"; "Y"] [1 # 1000; 1 # 1000]%Q] in
   device (port d) = [line_of "X=0.001000 Y=0.001000 "] /\
   fst (_get_precision d) = Ok [1000; 1000]%Q).
Proof.
  split; cbv zeta.
  - eexists. split; vm_compute; reflexivity.
  - split; vm_compute; reflexivity.
Qed.

(** ** The framing of [_send] *)

Lemma send_ascii cmd respond parse c r c' :
  _send cmd respond parse c = (Ok r, c') -> is_ascii cmd = true.
Proof.
  unfold _send. intros H. destruct (is_ascii cmd); [reflexivity|].
  apply bind_ok in H. destruct H as (u & c0 & H0 & _). discriminate H0.
Qed.

(** With an empty receive buffer, the next reply of the device, or
    nothing when it has none left, is read back whole. *)
Lemma exchange_next p cmd :
  in_buffer p = EmptyString ->
  clean_reply (hd EmptyString (device p)) = true ->
  exchange p cmd = (hd EmptyString (device p), advance p cmd (tl (device p))).
Proof.
  intros Hb Hc. unfold exchange, Serial_readline, Serial_write, advance.
  cbn [in_buffer is_open written device]. rewrite Hb. cbn [String.append].
  destruct (take_line_clean _ Hc) as [-> _]. reflexivity.
Qed.

Lemma send_run_next cmd respond parse c :
  is_ascii cmd = true -> is_open (port c) = true ->
  in_buffer (port c) = EmptyString ->
  clean_reply (hd EmptyString (device (port c))) = true ->
  _send cmd respond parse c =
    (decode_response (axes c) respond parse
       (strip delimiters (hd EmptyString (device (port c)))),
     sent cmd (tl (device (port c))) c).
Proof.
  intros Hc Ho Hb Hr.
  pose proof (exchange_next (port c) cmd Hb Hr) as Hx.
  destruct (take_line_clean _ Hr) as [_ Ha].
  unfold _send. rewrite Hc.
  unfold bind at 1. unfold ret at 1.
  unfold bind at 1. unfold port_write. rewrite Ho.
  unfold bind at 1. unfold port_readline. cbn [port set_port].
  change (is_open (Serial_write (port c) (cmd ++ String CR EmptyString)))
    with (is_open (port c)).
  rewrite Ho. fold (exchange (port c) cmd). rewrite Hx.
  rewrite set_port_twice. fold (sent cmd (tl (device (port c))) c).
  rewrite Ha. unfold bind at 1. unfold ret at 1.
  unfold bind at 1. unfold reading. cbn [axes sent set_port].
  destruct (decode_response _ _ _ _) as [r|e]; [|reflexivity].
  unfold bind at 1. unfold port_in_waiting.
  cbn [sent port set_port advance is_open in_waiting in_buffer]. rewrite Ho.
  reflexivity.
Qed.

(** X1.  Every [_send] that returns has written exactly one line, the
    command followed by a carriage return, has used up one reply of the
    device and left the receive buffer empty; the port is open, the
    command is ASCII, and nothing but the port has changed. *)
Theorem send_one_line_each_way (cmd : string) (respond parse : bool)
    (c c' : Controller) (r : response) :
  _send cmd respond parse c = (Ok r, c') ->
  is_ascii cmd = true /\
  written (port c') =
    written (port c) ++ [(cmd ++ String CR EmptyString)%string] /\
  in_buffer (port c') = EmptyString /\
  device (port c') = tl (device (port c)) /\
  is_open (port c') = true /\
  c' = set_port (port c') c.
Proof.
  intros H. pose proof (send_ascii _ _ _ _ _ _ H) as Ha.
  apply send_ok in H. destruct H as (Ho & -> & Hb & _).
  cbn [port set_port].
  rewrite exchange_written, exchange_device, exchange_is_open.
  repeat split; auto.
Qed.

Lemma send_one_line_each_way_witness :
  let c := blank (port_with [line_of "N"; ack]) in
  let c' := snd (_send "/" true false c) in
  written (port c') = [String "/" (String CR EmptyString)] /\
  in_buffer (port c') = EmptyString /\
  device (port c') = [ack].
Proof.
  intros c c'.
  assert (H : _send "/" true false c = (Ok (RStr "N"), c'))
    by (vm_compute; reflexivity).
  destruct (send_one_line_each_way "/" true false c c' (RStr "N") H)
    as (_ & Hw & Hb & Hd & _).
  split; [exact Hw|]. split; [exact Hb | exact Hd].
Defined.

(** X2.  When the line read back holds nothing but the characters
    stripped from a response (a bare acknowledgement, or nothing at all
    because the device stayed silent until the read timed out), a
    [_send] that expects a response fails with the assertion of line 93
    after the command has been written, whereas one that expects none
    returns [None]. *)
Theorem send_no_response (cmd : string) (parse : bool) (c : Controller) :
  is_ascii cmd = true -> is_open (port c) = true ->
  in_buffer (port c) = EmptyString ->
  clean_reply (hd EmptyString (device (port c))) = true ->
  strip delimiters (hd EmptyString (device (port c))) = EmptyString ->
  _send cmd true parse c =
    (Raise (AssertionError 93), sent cmd (tl (device (port c))) c) /\
  _send cmd false parse c = (Ok RNone, sent cmd (tl (device (port c))) c).
Proof.
  intros Hc Ho Hb Hr Hs.
  rewrite !(send_run_next _ _ _ _ Hc Ho Hb Hr), Hs. split; reflexivity.
Qed.

Lemma send_no_response_witness :
  let c := blank (port_with []) in
  _send "/" true false c = (Raise (AssertionError 93), sent "/" [] c) /\
  _send "/" false false c = (Ok RNone, sent "/" [] c).
Proof.
  intros c.
  exact (send_no_response "/" false c eq_refl eq_refl eq_refl eq_refl eq_refl).
Defined.

(** X3.  A reply with bytes after its first line feed is refused: the
    first line is read and decoded, and the assertion of line 105 then
    fails, whatever the caller expected; the bytes stay in the receive
    buffer. *)
Theorem send_rejects_trailing_input (cmd : string) (respond parse : bool)
    (c : Controller) (reply : string) (rest : list string) (r : response) :
  is_ascii cmd = true -> is_open (port c) = true ->
  in_buffer (port c) = EmptyString ->
  device (port c) = reply :: rest ->
  is_ascii (fst (take_line reply)) = true ->
  snd (take_line reply) <> EmptyString ->
  decode_response (axes c) respond parse
    (strip delimiters (fst (take_line reply))) = Ok r ->
  _send cmd respond parse c =
    (Raise (AssertionError 105),
     set_port {| is_open := true;
                 written := written (port c)
                              ++ [(cmd ++ String CR EmptyString)%string];
                 in_buffer := snd (take_line reply);
                 device := rest |} c).
Proof.
  intros Hc Ho Hb Hd Ha Hrest Hdec.
  unfold _send. rewrite Hc.
  unfold bind at 1. unfold ret at 1.
  unfold bind at 1. unfold port_write. rewrite Ho.
  unfold bind at 1. unfold port_readline. cbn [port set_port].
  change (is_open (Serial_write (port c) (cmd ++ String CR EmptyString)))
    with (is_open (port c)).
  rewrite Ho. unfold Serial_readline, Serial_write.
  cbn [in_buffer is_open written device]. rewrite Hb, Hd, Ho.
  cbn [String.append hd tl].
  destruct (take_line reply) as [l rem] eqn:Et. cbn [fst snd] in *.
  rewrite set_port_twice. rewrite Ha.
  unfold bind at 1. unfold ret at 1.
  unfold bind at 1. unfold reading. cbn [axes set_port]. rewrite Hdec.
  unfold bind at 1. unfold port_in_waiting.
  cbn [port set_port is_open in_waiting in_buffer].
  destruct rem as [|ch rem]; [now elim Hrest|]. reflexivity.
Qed.

Lemma send_rejects_trailing_input_witness :
  let reply := (line_of "N" ++ line_of "B")%string in
  let c := blank (port_with [reply]) in
  _send "/" true false c =
    (Raise (AssertionError 105),
     set_port {| is_open := true;
                 written := [String "/" (String CR EmptyString)];
                 in_buffer := line_of "B";
                 device := [] |} c).
Proof.
  intros reply c.
  assert (Hne : snd (take_line reply) <> EmptyString)
    by (vm_compute; discriminate).
  exact (send_rejects_trailing_input "/" true false c reply [] (RStr "N")
           eq_refl eq_refl eq_refl eq_refl eq_refl Hne eq_refl).
Defined.

(** ** Stripping twice *)

Lemma lstrip_by_head p s :
  lstrip_by p s = EmptyString \/
  exists ch r, lstrip_by p s = String ch r /\ p ch = false.
Proof.
  induction s as [|ch s IH]; [now left|]. cbn [lstrip_by].
  destruct (p ch) eqn:E; [exact IH|]. right. eauto.
Qed.

Lemma rstrip_by_idem p s : rstrip_by p (rstrip_by p s) = rstrip_by p s.
Proof.
  induction s as [|ch s IH]; [reflexivity|]. cbn [rstrip_by].
  destruct (is_empty (rstrip_by p s) && p ch) eqn:E; [reflexivity|].
  cbn [rstrip_by]. rewrite IH, E. reflexivity.
Qed.

Lemma strip_idem chars s : strip chars (strip chars s) = strip chars s.
Proof.
  unfold strip. set (p := in_chars chars).
  assert (H : lstrip_by p (rstrip_by p (lstrip_by p s))
              = rstrip_by p (lstrip_by p s)).
  { destruct (lstrip_by_head p s) as [->|(ch & r & -> & Hch)]; [reflexivity|].
    cbn [rstrip_by]. rewrite Hch, andb_false_r. cbn [lstrip_by].
    now rewrite Hch. }
  rewrite H. apply rstrip_by_idem.
Qed.

(** ** Construction: the version check *)

(** X4.  When the device answers the version query with anything but
    ['Version: USB-9.2k'] (once the response delimiters are stripped),
    construction fails with the assertion of line 31, whatever the other
    arguments are; only the query has been written by then. *)
Theorem unsupported_version_rejected (p : Serial) (reply : string)
    (rest : list string) (axs lead_screws : option (list string))
    (axes_min_mm axes_max_mm encoder : option (list value)) (use_pwm : bool) :
  is_open p = true -> in_buffer p = EmptyString ->
  device p = reply :: rest -> clean_reply reply = true ->
  strip delimiters reply <> EmptyString ->
  strip delimiters reply <> "Version: USB-9.2k" ->
  Controller_new p axs lead_screws axes_min_mm axes_max_mm encoder use_pwm
    = Raise (AssertionError 31) /\
  exists c',
    __init__ axs lead_screws axes_min_mm axes_max_mm encoder use_pwm (blank p)
      = (Raise (AssertionError 31), c') /\
    written (port c') = written p ++ [String "V" (String CR EmptyString)] /\
    version c' = strip delimiters reply.
Proof.
  intros Ho Hb Hd Hc Hne Hv.
  assert (Hr : ready (blank p) reply rest) by (repeat split; assumption).
  assert (Hn : is_empty (strip delimiters reply) = false).
  { destruct (strip delimiters reply); [now elim Hne | reflexivity]. }
  assert (Hrun : exists c',
    __init__ axs lead_screws axes_min_mm axes_max_mm encoder use_pwm (blank p)
      = (Raise (AssertionError 31), c') /\
    written (port c') = written p ++ [String "V" (String CR EmptyString)] /\
    version c' = strip delimiters reply).
  { unfold __init__.
    rewrite (bind_run _ _ _ _ _ (send_str_run "V" (blank p) reply rest eq_refl Hr Hn)).
    unfold bind at 1. cbn [lift as_str]. rewrite strip_idem.
    unfold bind at 1. unfold update at 1.
    unfold bind at 1.
    destruct (String.eqb_spec (strip delimiters reply) "Version: USB-9.2k")
      as [E|_]; [now elim Hv|].
    cbn [assert_ raise]. eexists. split; [reflexivity|].
    split; reflexivity. }
  split; [|exact Hrun].
  destruct Hrun as (c' & Hrun & _). unfold Controller_new. now rewrite Hrun.
Qed.

Lemma unsupported_version_rejected_witness :
  Controller_new (port_with [line_of "Version: USB-9.2j"])
    (Some ["X"; "Y"]) (Some ["S"; "S"])
    (Some [VInt (-50); VInt (-25)]) (Some [VInt 50; VInt 25]) None false
  = Raise (AssertionError 31).
Proof.
  assert (H1 : strip delimiters (line_of "Version: USB-9.2j") <> EmptyString)
    by (vm_compute; discriminate).
  assert (H2 : strip delimiters (line_of "Version: USB-9.2j")
               <> "Version: USB-9.2k")
    by (vm_compute; discriminate).
  exact (proj1 (unsupported_version_rejected
                  (port_with [line_of "Version: USB-9.2j"])
                  (line_of "Version: USB-9.2j") []
                  (Some ["X"; "Y"]) (Some ["S"; "S"])
                  (Some [VInt (-50); VInt (-25)]) (Some [VInt 50; VInt 25])
                  None false eq_refl eq_refl eq_refl eq_refl H1 H2)).
Defined.

(** ** Encoder counts and positions *)

(** The text of ['%d'] read by [float]. *)
Lemma float_of_format_d z : float_of_string (format_d z) = Some (inject_Z z).
Proof.
  unfold float_of_string, format_d.
  assert (Hs : split_on "." (digits_of_N (Z.abs_N z)) = [digits_of_N (Z.abs_N z)]).
  { apply split_on_none, digits_no_point, digits_of_N_digits. }
  destruct (z <? 0)%Z eqn:E.
  - cbn [String.append split_sign].
    rewrite Hs, digits_of_N_nonempty, digits_value_digits.
    cbn [option_map apply_sign]. apply Z.ltb_lt in E.
    rewrite N2Z.inj_abs_N. do 2 f_equal. lia.
  - cbn [String.append].
    destruct (digits_first (Z.abs_N z)) as (ch & rest & Hd & Hc).
    rewrite Hd, (split_sign_digit _ _ Hc). rewrite <- Hd.
    rewrite Hs, digits_of_N_nonempty, digits_value_digits.
    cbn [option_map apply_sign]. apply Z.ltb_ge in E.
    rewrite N2Z.inj_abs_N. do 2 f_equal. lia.
Qed.

Lemma nth_error_combine {A B : Type} (l : list A) : forall (l' : list B) i a b,
  nth_error l i = Some a -> nth_error l' i = Some b ->
  nth_error (combine l l') i = Some (a, b).
Proof.
  induction l as [|x l IH]; intros [|y l'] [|i] a b Ha Hb;
    try discriminate Ha; try discriminate Hb.
  - now injection Ha as <-; injection Hb as <-.
  - simpl in *. now apply IH.
Qed.

(** ** Binary64 arithmetic *)

Section Binary64Arithmetic.
Import Binary64.
Local Open Scope Q_scope.

Lemma pow2_pos e : 0 < pow2 e.
Proof. apply Qpower_0_lt. reflexivity. Qed.

Lemma pow2_add a b : pow2 (a + b) == pow2 a * pow2 b.
Proof. apply Qpower_plus. discriminate. Qed.

Lemma pow2_inject n : (0 <= n)%Z -> pow2 n == inject_Z (2 ^ n).
Proof. intros H. unfold pow2. now rewrite (Zpower_Qpower 2 n H). Qed.

Lemma pow2_le a b : (a <= b)%Z -> pow2 a <= pow2 b.
Proof. intros H. apply Qpower_le_compat_l; [exact H | discriminate]. Qed.

(** The exponent found is the exponent. *)
Lemma ilog2_spec x :
  ~ x == 0 -> pow2 (ilog2 x) <= Qabs x /\ Qabs x < pow2 (ilog2 x + 1).
Proof.
  intros Hx. destruct x as [n d].
  assert (Hn : n <> 0%Z).
  { intros ->. apply Hx. reflexivity. }
  unfold ilog2. cbn [Qnum Qden].
  set (a := Z.log2 (Z.abs n)). set (b := Z.log2 (Z.pos d)).
  assert (Ha : (2 ^ a <= Z.abs n < 2 ^ (a + 1))%Z).
  { pose proof (Z.log2_spec (Z.abs n)) as H. fold a in H.
    rewrite <- Z.add_1_r in H. apply H. lia. }
  assert (Hb : (2 ^ b <= Z.pos d < 2 ^ (b + 1))%Z).
  { pose proof (Z.log2_spec (Z.pos d)) as H. fold b in H.
    rewrite <- Z.add_1_r in H. apply H. lia. }
  assert (Ha0 : (0 <= a)%Z) by apply Z.log2_nonneg.
  assert (Hb0 : (0 <= b)%Z) by apply Z.log2_nonneg.
  assert (Habs : Qabs (n # d) = (Z.abs n # d)) by reflexivity.
  (* a power of two against the quotient, through the integers *)
  assert (Hlow : forall e k, (0 <= k)%Z -> (0 <= e + k)%Z ->
            (2 ^ (e + k) * Z.pos d <= Z.abs n * 2 ^ k)%Z ->
            pow2 e <= Qabs (n # d)).
  { intros e k Hk Hek H. rewrite Habs.
    apply (Qmult_le_r _ _ (pow2 k)); [apply pow2_pos|].
    rewrite <- pow2_add, (pow2_inject _ Hek), (pow2_inject _ Hk).
    unfold Qle, Qmult, inject_Z. cbn [Qnum Qden].
    rewrite Pos.mul_1_r. lia. }
  assert (Hhigh : forall e k, (0 <= k)%Z -> (0 <= e + k)%Z ->
            (Z.abs n * 2 ^ k < 2 ^ (e + k) * Z.pos d)%Z ->
            Qabs (n # d) < pow2 e).
  { intros e k Hk Hek H. rewrite Habs.
    apply (Qmult_lt_r _ _ (pow2 k)); [apply pow2_pos|].
    rewrite <- pow2_add, (pow2_inject _ Hek), (pow2_inject _ Hk).
    unfold Qlt, Qmult, inject_Z. cbn [Qnum Qden].
    rewrite Pos.mul_1_r. lia. }
  assert (Hp : forall u v, (0 <= u)%Z -> (0 <= v)%Z ->
            (2 ^ (u + v) = 2 ^ u * 2 ^ v)%Z).
  { intros u v Hu Hv. now apply Z.pow_add_r. }
  destruct (Qle_bool (pow2 (a - b)) (Qabs (n # d))) eqn:E.
  - split; [now apply Qle_bool_iff|].
    apply (Hhigh _ b); [lia | lia |].
    replace (a - b + 1 + b)%Z with (a + 1)%Z by lia.
    rewrite (Hp b 1%Z) in Hb by lia. nia.
  - assert (Hlt : Qabs (n # d) < pow2 (a - b)).
    { apply Qnot_le_lt. intros H. apply Qle_bool_iff in H. congruence. }
    split.
    + apply (Hlow _ (b + 1)%Z); [lia | lia |].
      replace (a - b - 1 + (b + 1))%Z with a by lia. nia.
    + now replace (a - b - 1 + 1)%Z with (a - b)%Z by lia.
Qed.

Lemma tiny_small : tiny <= 1 # 1267650600228229401496703205376.
Proof. apply Qle_bool_iff. vm_compute. reflexivity. Qed.

Lemma tiny_pos : 0 < tiny.
Proof. apply pow2_pos. Qed.

(** Rounding moves a number by half the spacing at most. *)
Lemma nearest_error x :
  Qabs (nearest x - x) <= Qabs x * half_ulp + tiny.
Proof.
  unfold nearest. destruct (Qeq_bool x 0) eqn:E.
  - apply Qeq_bool_iff in E.
    assert (H : Qabs (0 - x) == 0) by (rewrite E; reflexivity).
    rewrite H. pose proof tiny_pos. pose proof (Qabs_nonneg x).
    unfold half_ulp. lra.
  - assert (Hx : ~ x == 0).
    { intros H. apply Qeq_bool_iff in H. congruence. }
    set (s := ulp x).
    assert (Hs : 0 < s) by apply pow2_pos.
    destruct (py_round_near (x / s)) as [H1 H2].
    set (r := inject_Z (py_round (x / s))) in *.
    assert (Herr : Qabs (r * s - x) <= s * (1 # 2)).
    { assert (E1 : r * s - x == (r - x / s) * s) by (field; lra).
      rewrite E1, Qabs_Qmult, (Qabs_pos s) by lra.
      rewrite (Qmult_comm s). apply Qmult_le_compat_r; [|lra].
      apply Qabs_Qle_condition. split; lra. }
    assert (Hsp : s * (1 # 2) <= Qabs x * half_ulp + tiny).
    { unfold s, ulp.
      replace (Z.max (ilog2 x) (-1022) - 52)%Z
        with (Z.max (ilog2 x) (-1022) + (-52))%Z by lia.
      rewrite pow2_add.
      assert (Hc : pow2 (-52) * (1 # 2) == half_ulp) by reflexivity.
      assert (Ht : pow2 (-1022) * half_ulp == tiny) by reflexivity.
      destruct (ilog2_spec x Hx) as [Hlo _].
      pose proof (Qabs_nonneg x) as Hax.
      destruct (Z.max_spec (ilog2 x) (-1022)) as [[_ ->] | [_ ->]].
      - rewrite <- Qmult_assoc, Hc, Ht. unfold half_ulp. lra.
      - rewrite <- Qmult_assoc, Hc.
        assert (Hm : pow2 (ilog2 x) * half_ulp <= Qabs x * half_ulp).
        { apply Qmult_le_compat_r; [exact Hlo | discriminate]. }
        pose proof tiny_pos. unfold half_ulp in *. lra. }
    lra.
Qed.

Lemma ilog2_inject n : n <> 0%Z -> ilog2 (inject_Z n) = Z.log2 (Z.abs n).
Proof.
  intros Hn. unfold ilog2, inject_Z. cbn [Qnum Qden].
  change (Z.log2 1) with 0%Z. rewrite Z.sub_0_r.
  assert (H : Qle_bool (pow2 (Z.log2 (Z.abs n))) (Qabs (n # 1)) = true).
  { apply Qle_bool_iff. rewrite pow2_inject by apply Z.log2_nonneg.
    change (Qabs (n # 1)) with (inject_Z (Z.abs n)). rewrite <- Zle_Qle.
    apply Z.log2_spec. lia. }
  now rewrite H.
Qed.

(** An integer of 53 bits is a binary64 value. *)
Lemma nearest_int n :
  (Z.abs n <= 2 ^ 53)%Z -> nearest (inject_Z n) == inject_Z n.
Proof.
  intros Hb.
  assert (Hcases : n = 0%Z \/ n = (2 ^ 53)%Z \/ n = (- 2 ^ 53)%Z \/
                   (n <> 0 /\ Z.abs n < 2 ^ 53)%Z) by lia.
  destruct Hcases as [-> | [-> | [-> | [Hn Hlt]]]];
    [reflexivity | vm_compute; reflexivity | vm_compute; reflexivity |].
  unfold nearest.
  destruct (Qeq_bool (inject_Z n) 0) eqn:E.
  { apply Qeq_bool_iff in E. unfold Qeq in E. simpl in E. lia. }
  unfold ulp. rewrite (ilog2_inject n Hn).
  set (a := Z.log2 (Z.abs n)).
  assert (Ha0 : (0 <= a)%Z) by apply Z.log2_nonneg.
  assert (Ha : (a < 53)%Z) by (apply Z.log2_lt_pow2; lia).
  rewrite Z.max_l by lia.
  set (s := pow2 (a - 52)). set (t := pow2 (52 - a)).
  assert (Hs : 0 < s) by apply pow2_pos.
  assert (Hst : s * t == 1).
  { unfold s, t. rewrite <- pow2_add.
    replace (a - 52 + (52 - a))%Z with 0%Z by lia. reflexivity. }
  assert (Ht : t == inject_Z (2 ^ (52 - a))).
  { unfold t. apply pow2_inject. lia. }
  assert (Hq : inject_Z n / s == inject_Z (n * 2 ^ (52 - a))).
  { rewrite inject_Z_mult, <- Ht.
    transitivity (inject_Z n * (s * t) / s).
    - rewrite Hst. field. lra.
    - field. lra. }
  rewrite (py_round_comp _ _ Hq), py_round_inject.
  rewrite inject_Z_mult, <- Ht, <- Qmult_assoc, (Qmult_comm t), Hst. ring.
Qed.

(** No overflow below [2^60]. *)
Lemma of_Q_finite x :
  Qabs x <= inject_Z (2 ^ 60) -> of_Q x = Finite (nearest x).
Proof.
  intros Hx. unfold of_Q. cbv zeta.
  destruct (Qle_bool (pow2 1024) (Qabs (nearest x))) eqn:E; [|reflexivity].
  exfalso. apply Qle_bool_iff in E.
  pose proof (nearest_error x) as He.
  assert (Htri : Qabs (nearest x) <= Qabs (nearest x - x) + Qabs x).
  { assert (E1 : nearest x == (nearest x - x) + x) by ring.
    rewrite E1 at 1. apply Qabs_triangle. }
  assert (Hbig : inject_Z (2 ^ 60) * 3 < pow2 1024)
    by (vm_compute; reflexivity).
  pose proof tiny_small. pose proof (Qabs_nonneg x).
  set (b := inject_Z (2 ^ 60)) in *.
  assert (Hb1 : 1 <= b) by (vm_compute; discriminate).
  unfold half_ulp in *. lra.
Qed.

Lemma py_round_unique z k :
  Qabs (z - inject_Z k) < 1 # 2 -> py_round z = k.
Proof.
  intros H. apply Qabs_Qlt_condition in H. destruct H as [H1 H2].
  destruct (py_round_near z) as [H3 H4].
  assert (Hlo : inject_Z k - 1 < inject_Z (py_round z)) by lra.
  assert (Hhi : inject_Z (py_round z) < inject_Z k + 1) by lra.
  unfold Qlt, Qminus, Qplus, Qopp, inject_Z in Hlo, Hhi.
  cbn [Qnum Qden] in Hlo, Hhi. lia.
Qed.

Lemma Qabs_inject n : Qabs (inject_Z n) = inject_Z (Z.abs n).
Proof. reflexivity. Qed.

Lemma inject_abs_le n b :
  (Z.abs n <= b)%Z -> Qabs (inject_Z n) <= inject_Z b.
Proof. intros H. rewrite Qabs_inject, <- Zle_Qle. exact H. Qed.

(** The factors of the theorems convert without rounding. *)
Lemma float_of_int_exact line f :
  (Z.abs f <= 2 ^ 53)%Z ->
  exists F, float_of_int line f = Ok F /\ F == inject_Z f.
Proof.
  intros Hf. exists (nearest (inject_Z f)). split.
  - unfold float_of_int. rewrite of_Q_finite; [reflexivity|].
    apply inject_abs_le. lia.
  - now apply nearest_int.
Qed.

(** A product within range: a finite [float], off by the rounding of
    one operation. *)
Lemma mul_near x f :
  (Z.abs f <= 2 ^ 53)%Z ->
  Qabs (x * inject_Z f) <= inject_Z (2 ^ 60) ->
  exists z,
    mul 283 (Float (Finite x)) f = Ok (Float (Finite z)) /\
    Qabs (z - x * inject_Z f) <= Qabs (x * inject_Z f) * half_ulp + tiny.
Proof.
  intros Hf Hx. destruct (float_of_int_exact 283 f Hf) as (F & HF & EF).
  assert (Exf : x * F == x * inject_Z f) by now rewrite EF.
  exists (nearest (x * F)). split.
  - unfold mul. rewrite HF. cbn [rbind].
    rewrite of_Q_finite; [reflexivity|]. now rewrite Exf.
  - pose proof (nearest_error (x * F)) as He.
    set (z := nearest (x * F)) in *. now rewrite Exf in He.
Qed.

(** The text of a count within range, divided by its factor: a finite
    [float], off by the rounding of the division. *)
Lemma truediv_near k f :
  (Z.abs k <= 2 ^ 53)%Z -> f <> 0%Z -> (Z.abs f <= 2 ^ 53)%Z ->
  exists a q,
    float_of_str (format_d k) = Some a /\
    truediv 277 a f = Ok (Finite q) /\
    Qabs (q * inject_Z f - inject_Z k)
      <= Qabs (inject_Z k) * half_ulp + tiny * Qabs (inject_Z f).
Proof.
  intros Hk Hf0 Hf.
  destruct (float_of_int_exact 277 f Hf) as (F & HF & EF).
  pose proof (nearest_int k Hk) as Ea.
  set (a := nearest (inject_Z k)) in *.
  assert (Hfq : ~ inject_Z f == 0).
  { intros H. unfold Qeq in H. simpl in H. lia. }
  assert (HF0 : Qeq_bool F 0 = false).
  { destruct (Qeq_bool F 0) eqn:E; [|reflexivity].
    apply Qeq_bool_iff in E. rewrite EF in E. now elim Hfq. }
  assert (Hfa : 1 <= Qabs (inject_Z f)).
  { rewrite Qabs_inject. change 1 with (inject_Z 1). rewrite <- Zle_Qle. lia. }
  assert (Exf : a / F * inject_Z f == inject_Z k).
  { rewrite Ea, EF. field. exact Hfq. }
  assert (Hx : Qabs (a / F) <= inject_Z (2 ^ 60)).
  { assert (Hm : Qabs (a / F) * Qabs (inject_Z f) == Qabs (inject_Z k))
      by now rewrite <- Qabs_Qmult, Exf.
    assert (Hk' : Qabs (inject_Z k) <= inject_Z (2 ^ 53))
      by now apply inject_abs_le.
    pose proof (Qabs_nonneg (a / F)) as H0.
    assert (Hle : Qabs (a / F) * 1 <= Qabs (a / F) * Qabs (inject_Z f)).
    { rewrite !(Qmult_comm (Qabs (a / F))).
      apply Qmult_le_compat_r; assumption. }
    assert (Hc : inject_Z (2 ^ 53) <= inject_Z (2 ^ 60))
      by (rewrite <- Zle_Qle; lia).
    rewrite Qmult_1_r in Hle. rewrite Hm in Hle.
    eapply Qle_trans; [exact Hle|]. eapply Qle_trans; eassumption. }
  exists (Finite a), (nearest (a / F)). split; [|split].
  - unfold float_of_str. rewrite float_of_format_d. cbn [option_map].
    rewrite of_Q_finite; [reflexivity|]. apply inject_abs_le. lia.
  - unfold truediv. rewrite HF. cbn [rbind]. rewrite HF0.
    now rewrite of_Q_finite.
  - pose proof (nearest_error (a / F)) as He.
    set (q := nearest (a / F)) in *. set (x := a / F) in *.
    assert (E1 : q * inject_Z f - inject_Z k == (q - x) * inject_Z f)
      by (rewrite <- Exf; ring).
    rewrite E1, Qabs_Qmult.
    assert (Hm : Qabs x * Qabs (inject_Z f) == Qabs (inject_Z k))
      by now rewrite <- Qabs_Qmult, Exf.
    assert (Hstep : Qabs (q - x) * Qabs (inject_Z f)
                    <= (Qabs x * half_ulp + tiny) * Qabs (inject_Z f)).
    { apply Qmult_le_compat_r; [exact He | apply Qabs_nonneg]. }
    eapply Qle_trans; [exact Hstep|].
    rewrite <- Hm. apply Qle_lteq. right. ring.
Qed.

Lemma count_bound k :
  count_in_range k -> Qabs (inject_Z k) <= 1125899906842624.
Proof. intros H. now apply (inject_abs_le k (2 ^ 50)). Qed.

Lemma factor_bound f :
  factor_in_range f ->
  0 <= Qabs (inject_Z f) <= 9007199254740992 /\
  tiny * Qabs (inject_Z f) <= 1 # 1000.
Proof.
  intros [_ Hf].
  assert (Hb : Qabs (inject_Z f) <= 9007199254740992)
    by now apply (inject_abs_le f (2 ^ 53)).
  pose proof (Qabs_nonneg (inject_Z f)) as H0.
  split; [split; assumption|].
  assert (Hm : tiny * Qabs (inject_Z f)
               <= (1 # 1267650600228229401496703205376) * 9007199254740992).
  { apply Qmult_le_compat_nonneg; split;
      [apply Qlt_le_weak, tiny_pos | apply tiny_small | exact H0 | exact Hb]. }
  lra.
Qed.

Lemma Qabs_near x y d : Qabs (x - y) <= d -> Qabs x <= Qabs y + d.
Proof.
  intros H. assert (E : x == (x - y) + y) by ring.
  rewrite E at 1. pose proof (Qabs_triangle (x - y) y). lra.
Qed.

(** One count, to its position and back. *)
Lemma round_trip_count k f :
  count_in_range k -> factor_in_range f ->
  exists a q z,
    float_of_str (format_d k) = Some a /\
    truediv 277 a f = Ok (Finite q) /\
    mul 283 (Float (Finite q)) f = Ok (Float (Finite z)) /\
    py_round z = k.
Proof.
  intros Hk Hf. pose proof (count_bound k Hk) as Hkb.
  destruct (factor_bound f Hf) as [[Hf0 Hfb] Htf]. destruct Hf as [Hfn Hf].
  unfold count_in_range in Hk.
  destruct (truediv_near k f) as (a & q & Ha & Hq & Hd); [lia | lia | lia |].
  assert (Hd' : Qabs (q * inject_Z f - inject_Z k) <= (1 # 8) + (1 # 1000)).
  { unfold half_ulp in Hd. lra. }
  pose proof (Qabs_near _ _ _ Hd') as Hqf.
  destruct (mul_near q f Hf) as (z & Hz & Hzd).
  { change (inject_Z (2 ^ 60)) with 1152921504606846976. lra. }
  exists a, q, z. repeat (split; [assumption|]).
  apply py_round_unique.
  assert (E : z - inject_Z k
              == (z - q * inject_Z f) + (q * inject_Z f - inject_Z k)) by ring.
  rewrite E.
  pose proof (Qabs_triangle (z - q * inject_Z f) (q * inject_Z f - inject_Z k)).
  pose proof tiny_small. unfold half_ulp in Hzd. lra.
Qed.

Lemma round_trip_loop ks : forall fs,
  length ks = length fs ->
  Forall count_in_range ks -> Forall factor_in_range fs ->
  exists pos,
    counts2position_loop (combine (map format_d ks) fs) = Ok pos /\
    length pos = length ks /\
    position2counts_loop (combine (map Float pos) fs) = Ok ks.
Proof.
  induction ks as [|k ks IH]; intros [|f fs] Hlen Hks Hfs;
    try discriminate Hlen.
  - exists []. auto.
  - inversion Hks as [|? ? Hk Hks']; subst.
    inversion Hfs as [|? ? Hf Hfs']; subst.
    destruct (round_trip_count k f Hk Hf) as (a & q & z & Ha & Hq & Hz & Hr).
    destruct (IH fs) as (pos & Hp & Hl & Hb); [now injection Hlen | auto..].
    exists (Finite q :: pos).
    cbn [map combine counts2position_loop position2counts_loop].
    rewrite Ha, Hq. cbn [rbind]. rewrite Hp. cbn [rbind].
    rewrite Hz. cbn [rbind round]. rewrite Hb. cbn [rbind].
    rewrite Hr. split; [reflexivity|].
    split; [simpl; now rewrite Hl | reflexivity].
Qed.

(** One position, to its count and back. *)
Lemma position_count p f x :
  position_in_range p f -> real_of p = Some x ->
  exists v k a q,
    mul 283 p f = Ok v /\ round 283 v = Ok k /\
    float_of_str (format_d k) = Some a /\
    truediv 277 a f = Ok (Finite q) /\
    Qabs (q * inject_Z f - x * inject_Z f) < 1.
Proof.
  intros [Hf (x' & Hx' & Hb)] Hx. rewrite Hx in Hx'. injection Hx' as <-.
  change (inject_Z (2 ^ 50)) with 1125899906842624 in Hb.
  destruct (factor_bound f Hf) as [[Hf0 Hfb] Htf].
  assert (Hback : forall k d,
            Qabs (inject_Z k - x * inject_Z f) <= d -> d <= 3 # 4 ->
            exists a q,
              float_of_str (format_d k) = Some a /\
              truediv 277 a f = Ok (Finite q) /\
              Qabs (q * inject_Z f - x * inject_Z f)
                <= d + (1 # 8) + (1 # 500)).
  { intros k d Hd Hd8. pose proof (Qabs_near _ _ _ Hd) as Hk.
    assert (Hkz : (Z.abs k <= 2 ^ 50)%Z).
    { assert (Hlt : inject_Z (Z.abs k) < inject_Z (2 ^ 50 + 1)).
      { rewrite <- Qabs_inject.
        change (inject_Z (2 ^ 50 + 1)) with 1125899906842625. lra. }
      rewrite <- Zlt_Qlt in Hlt. lia. }
    pose proof (count_bound k Hkz) as Hkb. destruct Hf as [Hfn Hf].
    destruct (truediv_near k f) as (a & q & Ha & Hq & He); [lia | lia | lia |].
    exists a, q. split; [exact Ha|]. split; [exact Hq|].
    assert (E : q * inject_Z f - x * inject_Z f
                == (q * inject_Z f - inject_Z k)
                   + (inject_Z k - x * inject_Z f)) by ring.
    rewrite E.
    pose proof (Qabs_triangle (q * inject_Z f - inject_Z k)
                  (inject_Z k - x * inject_Z f)).
    unfold half_ulp in He. lra. }
  destruct p as [m | [y | s |]]; try discriminate Hx;
    cbn [real_of] in Hx; injection Hx as <-.
  - destruct (Hback (m * f)%Z 0) as (a & q & Ha & Hq & He).
    { rewrite inject_Z_mult.
      assert (E : inject_Z m * inject_Z f - inject_Z m * inject_Z f == 0)
        by ring.
      rewrite E. discriminate. }
    { discriminate. }
    exists (Int (m * f)), (m * f)%Z, a, q. cbn [mul round].
    repeat (split; [first [reflexivity | assumption]|]). lra.
  - destruct (mul_near y f) as (z & Hz & Hzd); [apply Hf | |].
    { change (inject_Z (2 ^ 60)) with 1152921504606846976. lra. }
    destruct (py_round_near z) as [H1 H2].
    destruct (Hback (py_round z) ((1 # 2) + (1 # 8) + (1 # 1000)))
      as (a & q & Ha & Hq & He).
    { assert (E : inject_Z (py_round z) - y * inject_Z f
                  == (inject_Z (py_round z) - z) + (z - y * inject_Z f))
        by ring.
      rewrite E.
      pose proof (Qabs_triangle (inject_Z (py_round z) - z)
                    (z - y * inject_Z f)).
      assert (Hr : Qabs (inject_Z (py_round z) - z) <= 1 # 2)
        by (apply Qabs_Qle_condition; split; lra).
      pose proof tiny_small. unfold half_ulp in Hzd. lra. }
    { lra. }
    exists (Float (Finite z)), (py_round z), a, q. cbn [round].
    repeat (split; [first [reflexivity | assumption]|]). lra.
Qed.

Lemma position_count_loop ps fs :
  Forall2 position_in_range ps fs ->
  exists ks qs,
    position2counts_loop (combine ps fs) = Ok ks /\
    counts2position_loop (combine (map format_d ks) fs) = Ok qs /\
    forall i p f x,
      nth_error ps i = Some p -> nth_error fs i = Some f ->
      real_of p = Some x ->
      exists q, nth_error qs i = Some (Finite q) /\
        Qabs (q * inject_Z f - x * inject_Z f) < 1.
Proof.
  induction 1 as [|p f ps fs Hpf Hrest IH].
  - exists [], []. split; [reflexivity|]. split; [reflexivity|].
    intros [|i] ? ? ? H; discriminate H.
  - destruct IH as (ks & qs & Hk & Hq & Hn).
    destruct (proj2 Hpf) as (x & Hx & _).
    destruct (position_count p f x Hpf Hx)
      as (v & k & a & q & Hv & Hr & Ha & Hd & He).
    exists (k :: ks), (Finite q :: qs).
    cbn [map combine counts2position_loop position2counts_loop].
    rewrite Hv. cbn [rbind]. rewrite Hr. cbn [rbind]. rewrite Hk.
    cbn [rbind]. rewrite Ha, Hd. cbn [rbind]. rewrite Hq. cbn [rbind].
    split; [reflexivity|]. split; [reflexivity|].
    intros [|i] p' f' x' Hp' Hf' Hx'; cbn [nth_error] in *.
    + injection Hp' as <-. injection Hf' as <-.
      rewrite Hx in Hx'. injection Hx' as <-. exists q. auto.
    + eapply Hn; eauto.
Qed.

End Binary64Arithmetic.

(** Three conversions as CPython computes them: [float('0.1')] is the
    binary64 value next to a tenth; the count of the [float] [0.05] at
    ten counts a micrometre is [0], since the product rounds to the tie
    [0.5], where the exact product rounds to [1]; and the count
    [2^53 + 1] comes back as [2^53]. *)
Lemma binary64_examples :
  Binary64.float_of_str "0.1"
    = Some (Binary64.Finite (7205759403792794 # 72057594037927936)) /\
  (let p := (7205759403792794 # 144115188075855872)%Q in
   Binary64._position2counts (xy_stage [])
     [Binary64.Float (Binary64.Finite p)] = Ok [0%Z] /\
   _position2counts (xy_stage []) [p] = Ok [1%Z]) /\
  (exists pos,
     Binary64._counts2position (xy_stage []) ["9007199254740993"] = Ok pos /\
     Binary64._position2counts (xy_stage []) (map Binary64.Float pos)
       = Ok [9007199254740992%Z]).
Proof.
  split; [vm_compute; reflexivity|]. split.
  - cbv zeta. split; vm_compute; reflexivity.
  - eexists. split; [vm_compute; reflexivity|]. vm_compute. reflexivity.
Qed.

(** X5.  Encoder counts survive the conversion to a position and back,
    in the arithmetic of [float]: for counts of at most 50 bits, one
    per axis, and encoder factors other than zero of at most 53 bits,
    [_counts2position] succeeds on the text of the counts, and
    [_position2counts] of the positions it returns gives the counts
    again.  Beyond [2^53] a count does not survive, as the last of the
    examples above shows. *)
Theorem counts_position_round_trip (c : Controller) (factors ks : list Z) :
  encoder_counts_per_um c = Some factors ->
  length ks = length factors ->
  Forall Binary64.count_in_range ks ->
  Forall Binary64.factor_in_range factors ->
  exists pos,
    Binary64._counts2position c (map format_d ks) = Ok pos /\
    length pos = length ks /\
    Binary64._position2counts c (map Binary64.Float pos) = Ok ks.
Proof.
  intros He Hlen Hks Hfs.
  unfold Binary64._counts2position, Binary64._position2counts.
  rewrite He. cbn [attr rbind]. now apply round_trip_loop.
Qed.

Lemma counts_position_round_trip_witness :
  exists pos,
    Binary64._counts2position (xy_stage []) (map format_d [12345; -70]%Z)
      = Ok pos /\
    length pos = 2%nat /\
    Binary64._position2counts (xy_stage []) (map Binary64.Float pos)
      = Ok [12345; -70]%Z.
Proof.
  assert (He : encoder_counts_per_um (xy_stage []) = Some [10; 10]%Z)
    by (vm_compute; reflexivity).
  assert (Hks : Forall Binary64.count_in_range [12345; -70]%Z)
    by (repeat constructor; vm_compute; discriminate).
  assert (Hfs : Forall Binary64.factor_in_range [10; 10]%Z)
    by (repeat constructor; (discriminate || (vm_compute; discriminate))).
  exact (counts_position_round_trip (xy_stage []) [10; 10]%Z [12345; -70]%Z
           He eq_refl Hks Hfs).
Defined.

(** X6.  A position sent as counts comes back within one count, in the
    arithmetic of [float]: for encoder factors other than zero of at
    most 53 bits and positions, [int] or finite [float], whose counts
    are of at most 50 bits, [_position2counts] succeeds, and so does
    [_counts2position] on the text of its counts, and on every axis the
    position it returns differs from the one given by less than one
    encoder count.  Half a count is not a bound: the [float] [0.05] at
    ten counts a micrometre comes back as [0], as the examples above
    show. *)
Theorem position_within_one_count (c : Controller) (factors : list Z)
    (ps : list Binary64.number) :
  encoder_counts_per_um c = Some factors ->
  Forall2 Binary64.position_in_range ps factors ->
  exists ks qs,
    Binary64._position2counts c ps = Ok ks /\
    Binary64._counts2position c (map format_d ks) = Ok qs /\
    forall i p f x,
      nth_error ps i = Some p -> nth_error factors i = Some f ->
      Binary64.real_of p = Some x ->
      exists q, nth_error qs i = Some (Binary64.Finite q) /\
        (Qabs (q * inject_Z f - x * inject_Z f) < 1)%Q.
Proof.
  intros He Hps.
  unfold Binary64._counts2position, Binary64._position2counts.
  rewrite He. cbn [attr rbind]. now apply position_count_loop.
Qed.

Lemma position_within_one_count_witness :
  exists ks qs,
    Binary64._position2counts (xy_stage [])
      [Binary64.Float (Binary64.Finite ((7205759403792794 # 144115188075855872)));
       Binary64.Int (-3)] = Ok ks /\
    Binary64._counts2position (xy_stage []) (map format_d ks) = Ok qs /\
    exists q, nth_error qs 0 = Some (Binary64.Finite q) /\
      (Qabs (q * inject_Z 10 - (7205759403792794 # 144115188075855872) * inject_Z 10)
       < 1)%Q.
Proof.
  assert (He : encoder_counts_per_um (xy_stage []) = Some [10; 10]%Z)
    by (vm_compute; reflexivity).
  assert (Hf : Binary64.factor_in_range 10)
    by (split; [discriminate | vm_compute; discriminate]).
  assert (Hps : Forall2 Binary64.position_in_range
                  [Binary64.Float (Binary64.Finite ((7205759403792794 # 144115188075855872)));
                   Binary64.Int (-3)] [10; 10]%Z).
  { apply Forall2_cons; [|apply Forall2_cons; [|apply Forall2_nil]];
      (split; [exact Hf|]); eexists;
      (split; [reflexivity | apply Qle_bool_iff; vm_compute; reflexivity]). }
  destruct (position_within_one_count (xy_stage []) [10; 10]%Z _ He Hps)
    as (ks & qs & H1 & H2 & H3).
  exists ks, qs. split; [exact H1|]. split; [exact H2|].
  exact (H3 0%nat _ 10%Z _ eq_refl eq_refl eq_refl).
Defined.

Lemma counts2position_loop_ok pairs : forall pos,
  counts2position_loop pairs = Ok pos ->
  length pos = length pairs /\
  forall i q, nth_error pos i = Some q ->
    exists s x f, nth_error pairs i = Some (s, f) /\
      float_of_string s = Some x /\ f <> 0%Z /\ q = (x / inject_Z f)%Q.
Proof.
  induction pairs as [|[s f] rest IH]; intros pos H.
  - injection H as <-. split; [reflexivity|]. intros [|i] q Hq; discriminate Hq.
  - cbn [counts2position_loop] in H.
    destruct (float_of_string s) as [x|] eqn:Ex; [|discriminate H].
    destruct (Z.eqb_spec f 0) as [E|Hf]; [discriminate H|].
    apply rbind_ok in H. destruct H as (r & Hr & H). injection H as <-.
    destruct (IH r Hr) as [Hlen Hnth]. split; [simpl; now rewrite Hlen|].
    intros [|i] q Hq.
    + injection Hq as <-. exists s, x, f. auto.
    + apply (Hnth i q Hq).
Qed.

(** X7.  [_counts2position] pairs the counts with the encoder factors
    as [zip] does: its result has as many entries as the shorter of the
    two, entry [i] being count [i] divided by factor [i]; counts or
    factors beyond that length are dropped without an error. *)
Theorem counts2position_zips (c : Controller) (counts : list string)
    (factors : list Z) (pos : list Q) :
  encoder_counts_per_um c = Some factors ->
  _counts2position c counts = Ok pos ->
  length pos = Nat.min (length counts) (length factors) /\
  forall i q, nth_error pos i = Some q ->
    exists s x f, nth_error counts i = Some s /\
      nth_error factors i = Some f /\
      float_of_string s = Some x /\ f <> 0%Z /\ q = (x / inject_Z f)%Q.
Proof.
  intros He H. unfold _counts2position in H. rewrite He in H.
  cbn [attr rbind] in H. apply counts2position_loop_ok in H.
  destruct H as [Hlen Hnth]. split; [now rewrite Hlen, length_combine|].
  intros i q Hq. destruct (Hnth i q Hq) as (s & x & f & Hp & Hx & Hf & ->).
  exists s, x, f. repeat split; auto.
  - revert Hp. clear. revert factors i.
    induction counts as [|a counts IH]; intros [|b factors] [|i] H;
      try discriminate H.
    + now injection H as -> _.
    + simpl in *. eapply IH; eauto.
  - revert Hp. clear. revert factors i.
    induction counts as [|a counts IH]; intros [|b factors] [|i] H;
      try discriminate H.
    + now injection H as _ ->.
    + simpl in *. eapply IH; eauto.
Qed.

Lemma counts2position_zips_witness :
  _counts2position (xy_stage []) ["5"] = Ok [5 / inject_Z 10]%Q /\
  length [5 / inject_Z 10]%Q = Nat.min 1 2.
Proof.
  assert (He : encoder_counts_per_um (xy_stage []) = Some [10; 10]%Z)
    by (vm_compute; reflexivity).
  assert (H : _counts2position (xy_stage []) ["5"] = Ok [5 / inject_Z 10]%Q)
    by (vm_compute; reflexivity).
  split; [exact H|].
  exact (proj1 (counts2position_zips (xy_stage []) ["5"] [10; 10]%Z
                  [5 / inject_Z 10]%Q He H)).
Defined.

(** ** Waiting for the end of a move *)

Lemma tolerance_loop_ok c ps : forall i,
  tolerance_loop c i ps = Ok tt ->
  forall j p, nth_error ps j = Some p ->
    exists t e,
      at_index (_target_move_um c) (i + j) = Some t /\
      at_index (precision_um c) (i + j) = Some e /\
      (t - e <= p)%Q /\ (p <= t + e)%Q.
Proof.
  induction ps as [|p0 rest IH]; intros i H j p Hj.
  - destruct j; discriminate Hj.
  - cbn [tolerance_loop] in H.
    apply rbind_ok in H. destruct H as (tg & Htg & H). apply attr_ok in Htg.
    apply rbind_ok in H. destruct H as (t & Ht & H). apply index_ok in Ht.
    apply rbind_ok in H. destruct H as (pr & Hpr & H). apply attr_ok in Hpr.
    apply rbind_ok in H. destruct H as (e & He & H). apply index_ok in He.
    apply rbind_ok in H. destruct H as (u1 & H1 & H). apply rassert_ok in H1.
    apply rbind_ok in H. destruct H as (tg' & Htg' & H). apply attr_ok in Htg'.
    apply rbind_ok in H. destruct H as (t' & Ht' & H). apply index_ok in Ht'.
    apply rbind_ok in H. destruct H as (pr' & Hpr' & H). apply attr_ok in Hpr'.
    apply rbind_ok in H. destruct H as (e' & He' & H). apply index_ok in He'.
    apply rbind_ok in H. destruct H as (u2 & H2 & H). apply rassert_ok in H2.
    rewrite Htg in Htg'. injection Htg' as <-.
    rewrite Hpr in Hpr'. injection Hpr' as <-.
    rewrite Ht in Ht'. injection Ht' as <-.
    rewrite He in He'. injection He' as <-.
    destruct j as [|j].
    + injection Hj as <-. rewrite Nat.add_0_r. exists t, e.
      unfold at_index. rewrite Htg, Hpr.
      apply Qle_bool_iff in H1. apply Qle_bool_iff in H2. auto.
    + rewrite Nat.add_succ_r. destruct u2. apply (IH (S i) H j p Hj).
Qed.

(** A wait that had a move to wait for: the port, the position and the
    moving flag changed, and the new position passed the tolerance
    check. *)
Lemma finish_moving_waited c u c' :
  _moving c = Some true -> _finish_moving c = (Ok u, c') ->
  exists p pos,
    c' = set_moving (Some false) (set_position_um (Some pos) (set_port p c)) /\
    tolerance_loop (set_position_um (Some pos) (set_port p c)) 0 pos = Ok tt.
Proof.
  unfold _finish_moving. intros Hm H.
  apply bind_ok in H. destruct H as (mv & c1 & H1 & H). inv_run H1.
  rewrite Hm in E. injection E as <-. cbn [negb] in H.
  apply bind_ok in H. destruct H as (fuel & c2 & H2 & H). inv_run H2.
  apply bind_ok in H. destruct H as (u3 & c3 & H3 & H).
  apply poll_status_ok in H3. destruct H3 as (p & ->).
  apply bind_ok in H. destruct H as (pos & c4 & H4 & H).
  apply get_position_ok in H4. destruct H4 as (p' & ->).
  apply bind_ok in H. destruct H as (u5 & c5 & H5 & H). inv_run H5.
  inv_run H. exists p', pos. split; [reflexivity|].
  cbn [position_um set_position_um attr rbind] in E0. destruct u5. exact E0.
Qed.

(** X8.  A blocking [move_um] that returns has read the position back
    and found every axis within its precision of the recorded target:
    the controller is Idle, and each entry of the position lies between
    the target minus the precision and the target plus the precision of
    its axis. *)
Theorem blocking_move_ends_on_target (c c' : Controller) (move : list value)
    (relative : bool) :
  move_um move relative true c = (Ok tt, c') ->
  _moving c' = Some false /\
  exists pos,
    position_um c' = Some pos /\
    forall i p, nth_error pos i = Some p ->
      exists t e,
        at_index (_target_move_um c') i = Some t /\
        at_index (precision_um c') i = Some e /\
        (t - e <= p)%Q /\ (p <= t + e)%Q.
Proof.
  intros H. unfold move_um in H.
  apply bind_ok in H. destruct H as (u0 & c0 & H0 & H).
  apply bind_ok in H. destruct H as (axs & c1 & H1 & H). inv_run H1.
  apply bind_ok in H. destruct H as (u2 & c2 & H2 & H). inv_run H2.
  apply bind_ok in H. destruct H as (targets & c3 & H3 & H). inv_run H3.
  apply bind_ok in H. destruct H as (axs' & c4 & H4 & H). inv_run H4.
  apply bind_ok in H. destruct H as (pieces & c5 & H5 & H). inv_run H5.
  apply bind_ok in H. destruct H as (r & c6 & H6 & H).
  apply send_ok in H6. destruct H6 as (_ & -> & _ & _).
  apply bind_ok in H. destruct H as (u7 & c7 & H7 & H). inv_run H7.
  apply bind_ok in H. destruct H as (u8 & c8 & H8 & H). inv_run H8.
  apply finish_moving_waited in H; [|reflexivity].
  destruct H as (p & pos & -> & Htol).
  split; [reflexivity|]. exists pos. split; [reflexivity|].
  intros i q Hq. exact (tolerance_loop_ok _ _ 0 Htol i q Hq).
Qed.

Lemma blocking_move_ends_on_target_witness :
  let c := xy_stage [ack; line_of "B"; line_of "N"; line_of "20004 -3"] in
  let c' := snd (move_um [VInt 2000; VNone] true true c) in
  _moving c' = Some false /\
  exists pos,
    position_um c' = Some pos /\
    forall i p, nth_error pos i = Some p ->
      exists t e,
        at_index (_target_move_um c') i = Some t /\
        at_index (precision_um c') i = Some e /\
        (t - e <= p)%Q /\ (p <= t + e)%Q.
Proof.
  intros c c'.
  assert (H : move_um [VInt 2000; VNone] true true c = (Ok tt, c'))
    by (vm_compute; reflexivity).
  exact (blocking_move_ends_on_target c c' [VInt 2000; VNone] true H).
Defined.

(** X9.  A [move_um] that does not block returns with the controller
    Moving: it has waited for any earlier move, computed the targets from
    the position known then, written the move command as its last line,
    and recorded the targets rounded to three decimals; it has not read
    the position again. *)
Theorem nonblocking_move_leaves_moving (c c' : Controller)
    (move : list value) (relative : bool) :
  move_um move relative false c = (Ok tt, c') ->
  exists c0 targets pieces,
    _finish_moving c = (Ok tt, c0) /\
    target_loop c0 relative 0 move = Ok targets /\
    length targets = length move /\
    written (port c') =
      written (port c0)
        ++ [(concat_all ("M " :: pieces) ++ String CR EmptyString)%string] /\
    _moving c' = Some true /\
    _target_move_um c' = Some (map (py_round_n 3) targets) /\
    position_um c' = position_um c0.
Proof.
  intros H. unfold move_um in H.
  apply bind_ok in H. destruct H as ([] & c0 & H0 & H).
  apply bind_ok in H. destruct H as (axs & c1 & H1 & H). inv_run H1.
  apply bind_ok in H. destruct H as (u2 & c2 & H2 & H). inv_run H2.
  apply bind_ok in H. destruct H as (targets & c3 & H3 & H). inv_run H3.
  rename E1 into Hloop.
  apply bind_ok in H. destruct H as (axs' & c4 & H4 & H). inv_run H4.
  apply bind_ok in H. destruct H as (pieces & c5 & H5 & H). inv_run H5.
  apply bind_ok in H. destruct H as (r & c6 & H6 & H).
  apply send_ok in H6. destruct H6 as (_ & -> & _ & _).
  apply bind_ok in H. destruct H as (u7 & c7 & H7 & H). inv_run H7.
  apply bind_ok in H. destruct H as (u8 & c8 & H8 & H). inv_run H8.
  inv_run H.
  exists c0, targets, pieces. split; [exact H0|]. split; [exact Hloop|].
  split.
  { rewrite target_loop_each in Hloop.
    now destruct (each_ok _ _ _ _ Hloop) as [Hl _]. }
  split; [|repeat split].
  cbn [port set_moving set_target_move_um set_port].
  apply exchange_written.
Qed.

Lemma nonblocking_move_leaves_moving_witness :
  let c := xy_stage [ack] in
  let c' := snd (move_um [VInt 2000; VNone] true false c) in
  exists c0 targets pieces,
    _finish_moving c = (Ok tt, c0) /\
    target_loop c0 true 0 [VInt 2000; VNone] = Ok targets /\
    length targets = 2 /\
    written (port c') =
      written (port c0)
        ++ [(concat_all ("M " :: pieces) ++ String CR EmptyString)%string] /\
    _moving c' = Some true /\
    _target_move_um c' = Some (map (py_round_n 3) targets) /\
    position_um c' = position_um c0.
Proof.
  intros c c'.
  assert (H : move_um [VInt 2000; VNone] true false c = (Ok tt, c'))
    by (vm_compute; reflexivity).
  exact (nonblocking_move_leaves_moving c c' [VInt 2000; VNone] true H).
Defined.

(** *** The polling loop ends *)

Lemma bind_raises {A B : Type} (m : M A) (f : A -> M B) c e c' :
  bind m f c = (Raise e, c') ->
  m c = (Raise e, c') \/
  exists a c1, m c = (Ok a, c1) /\ f a c1 = (Raise e, c').
Proof.
  unfold bind. destruct (m c) as [[a|e0] c1]; intros H.
  - right. eauto.
  - left. injection H as <- <-. reflexivity.
Qed.

Lemma in_python_bind {A B : Type} (m : M A) (f : A -> M B) :
  in_python m -> (forall a, in_python (f a)) -> in_python (bind m f).
Proof.
  intros Hm Hf c e c' H. unfold bind in H.
  destruct (m c) as [[a|e0] c1] eqn:E.
  - exact (Hf a _ _ _ H).
  - injection H as <- <-. exact (Hm _ _ _ E).
Qed.

Lemma in_python_ret {A : Type} (a : A) : in_python (ret a).
Proof. intros c e c' H. discriminate H. Qed.

Lemma in_python_update f : in_python (update f).
Proof. intros c e c' H. discriminate H. Qed.

Lemma in_python_reading {A : Type} (f : Controller -> result A) :
  (forall c, rin_python (f c)) -> in_python (reading f).
Proof. intros Hf c e c' H. injection H as H _. exact (Hf c e H). Qed.

Lemma in_python_lift {A : Type} (r : result A) : rin_python r -> in_python (lift r).
Proof. intros Hr c e c' H. injection H as H _. exact (Hr e H). Qed.

Lemma rin_python_ok {A : Type} (a : A) : rin_python (Ok a).
Proof. intros e H. discriminate H. Qed.

Lemma rin_python_rbind {A B : Type} (r : result A) (f : A -> result B) :
  rin_python r -> (forall a, rin_python (f a)) -> rin_python (rbind r f).
Proof.
  intros Hr Hf e H. destruct r as [a|e0]; simpl in H.
  - exact (Hf a e H).
  - injection H as <-. now apply Hr.
Qed.

Create HintDb python.

(** Discharges [in_python] and [rin_python] goals of code whose raising
    statements are all in sight. *)
Ltac python_tac :=
  repeat first
    [ solve [auto with python nocore]
    | match goal with
      | |- in_python (ret _) => apply in_python_ret
      | |- in_python (update _) => apply in_python_update
      | |- rin_python (Ok _) => apply rin_python_ok
      | |- in_python (bind _ _) => apply in_python_bind; [|intros ?]
      | |- rin_python (rbind _ _) => apply rin_python_rbind; [|intros ?]
      | |- in_python (reading _) => apply in_python_reading; intros ?
      | |- in_python (lift _) => apply in_python_lift
      | |- in_python (raise _) =>
          let c := fresh in let e := fresh in let c' := fresh in
          let H := fresh in
          intros c e c' H; injection H as <- _; discriminate
      | |- in_python (assert_ _ ?b) =>
          let c := fresh in let e := fresh in let c' := fresh in
          let H := fresh in
          intros c e c' H; unfold assert_ in H; destruct b;
          [discriminate H | injection H as <- _; discriminate]
      | |- rin_python (Raise _) =>
          let e := fresh in let H := fresh in
          intros e H; injection H as <-; discriminate
      | |- rin_python (rassert _ ?b) =>
          let e := fresh in let H := fresh in
          intros e H; destruct b;
          [discriminate H | injection H as <-; discriminate]
      | |- rin_python (attr _ ?o) =>
          let e := fresh in let H := fresh in
          intros e H; destruct o;
          [discriminate H | injection H as <-; discriminate]
      | |- rin_python (index _ ?l ?i) =>
          let e := fresh in let H := fresh in
          intros e H; unfold index in H; destruct (nth_error l i);
          [discriminate H | injection H as <-; discriminate]
      | |- rin_python (as_str _ ?r) => destruct r; cbn [as_str]
      | |- in_python (if ?b then _ else _) => destruct b
      | |- rin_python (if ?b then _ else _) => destruct b
      | |- in_python (match ?x with _ => _ end) => destruct x
      | |- rin_python (match ?x with _ => _ end) => destruct x
      end ].

Lemma in_python_port_write line data : in_python (port_write line data).
Proof.
  intros c e c' H. unfold port_write in H.
  destruct (is_open (port c)); [discriminate H|].
  injection H as <- _. discriminate.
Qed.

Lemma in_python_port_readline line : in_python (port_readline line).
Proof.
  intros c e c' H. unfold port_readline in H.
  destruct (is_open (port c)).
  - destruct (Serial_readline (port c)). discriminate H.
  - injection H as <- _. discriminate.
Qed.

Lemma in_python_port_in_waiting line : in_python (port_in_waiting line).
Proof.
  intros c e c' H. unfold port_in_waiting in H.
  destruct (is_open (port c)); [discriminate H|].
  injection H as <- _. discriminate.
Qed.

#[local] Hint Resolve in_python_port_write in_python_port_readline
  in_python_port_in_waiting : python.

Lemma rin_python_parse_axes_loop tokens : rin_python (parse_axes_loop tokens).
Proof.
  induction tokens as [|a rest IH]; cbn [parse_axes_loop]; python_tac.
Qed.

#[local] Hint Resolve rin_python_parse_axes_loop : python.

Lemma in_python_send cmd respond parse : in_python (_send cmd respond parse).
Proof.
  unfold _send. python_tac.
  unfold decode_response. python_tac.
Qed.

Lemma rin_python_counts2position_loop pairs :
  rin_python (counts2position_loop pairs).
Proof.
  induction pairs as [|[count factor] rest IH]; cbn [counts2position_loop];
    python_tac.
Qed.

#[local] Hint Resolve in_python_send rin_python_counts2position_loop : python.

Lemma in_python_get_position : in_python _get_position.
Proof.
  unfold _get_position. python_tac.
  unfold _counts2position. python_tac.
Qed.

Lemma rin_python_tolerance_loop c ps : forall i, rin_python (tolerance_loop c i ps).
Proof.
  induction ps as [|p rest IH]; intros i; cbn [tolerance_loop]; python_tac.
Qed.

Lemma rin_python_move_cmd_loop c move idx : rin_python (move_cmd_loop c move idx).
Proof.
  induction idx as [|i rest IH]; cbn [move_cmd_loop]; python_tac.
  unfold _position2counts. python_tac.
Qed.

Lemma rin_python_target_loop c relative ms : forall i,
  rin_python (target_loop c relative i ms).
Proof.
  induction ms as [|m rest IH]; intros i; cbn [target_loop]; python_tac;
    unfold resolve; python_tac.
Qed.

#[local] Hint Resolve in_python_get_position rin_python_tolerance_loop
  rin_python_move_cmd_loop rin_python_target_loop : python.

(** A query of a silent device with nothing pending cannot succeed. *)
Lemma send_needs_reply cmd parse c r c' :
  in_buffer (port c) = EmptyString -> device (port c) = [] ->
  _send cmd true parse c = (Ok r, c') -> False.
Proof.
  intros Hb Hd H. pose proof (send_ascii _ _ _ _ _ _ H) as Ha.
  pose proof (send_ok _ _ _ _ _ _ H) as (Ho & _).
  rewrite send_run_next in H; auto.
  - rewrite Hd in H. discriminate H.
  - now rewrite Hd.
Qed.

(** Polling with an empty receive buffer: more rounds than the device
    has replies left are never used up. *)
Lemma poll_status_enough fuel : forall c e c',
  in_buffer (port c) = EmptyString ->
  length (device (port c)) < fuel ->
  poll_status fuel c = (Raise e, c') -> genuine e.
Proof.
  induction fuel as [|n IH]; intros c e c' Hb Hlen H; [lia|].
  cbn [poll_status] in H. unfold bind in H.
  destruct (_send "/" true false c) as [[st|e0] c1] eqn:Es.
  - destruct (device (port c)) as [|reply rest] eqn:Hd.
    { elim (send_needs_reply _ _ _ _ _ Hb Hd Es). }
    apply send_ok in Es. destruct Es as (_ & -> & Hb1 & _).
    assert (Hrec : poll_status n (set_port (snd (exchange (port c) "/")) c)
                   = (Raise e, c') -> genuine e).
    { apply IH; cbn [port set_port]; [exact Hb1|].
      rewrite exchange_device, Hd. simpl in *. lia. }
    destruct st as [|s|vs]; auto.
    destruct (String.eqb s "N"); [discriminate H | auto].
  - injection H as <- <-. exact (in_python_send _ _ _ _ _ _ Es).
Qed.

Lemma poll_status_bounded c e c' :
  poll_status (poll_bound c) c = (Raise e, c') -> genuine e.
Proof.
  unfold poll_bound. rewrite Nat.add_comm. cbn [Nat.add poll_status].
  unfold bind at 1.
  destruct (_send "/" true false c) as [[st|e0] c1] eqn:Es.
  - apply send_ok in Es. destruct Es as (_ & -> & Hb1 & _).
    assert (Hrec : poll_status (S (length (device (port c))))
                     (set_port (snd (exchange (port c) "/")) c)
                   = (Raise e, c') -> genuine e).
    { apply poll_status_enough; cbn [port set_port]; [exact Hb1|].
      rewrite exchange_device. destruct (device (port c)); simpl; lia. }
    destruct st as [|s|vs]; auto.
    destruct (String.eqb s "N"); [discriminate | auto].
  - intros H. injection H as <- <-. exact (in_python_send _ _ _ _ _ _ Es).
Qed.

Lemma in_python_finish_moving : in_python _finish_moving.
Proof.
  intros c e c' H. unfold _finish_moving in H.
  apply bind_raises in H. destruct H as [H|(mv & c1 & H1 & H)].
  { unfold reading in H. injection H as H _.
    destruct (_moving c); [discriminate H | injection H as <-; discriminate]. }
  inv_run H1. destruct mv; cbn [negb] in H; [|discriminate H].
  apply bind_raises in H. destruct H as [H|(fuel & c2 & H2 & H)];
    [discriminate H|].
  inv_run H2. subst fuel.
  apply bind_raises in H. destruct H as [H|(u & c3 & H3 & H)].
  - exact (poll_status_bounded _ _ _ H).
  - assert (Htail : in_python
      (_get_position ;;
       reading (fun c => pos <~ attr 303 (position_um c) ;; tolerance_loop c 0 pos) ;;
       update (set_moving (Some false)))) by python_tac.
    exact (Htail _ _ _ H).
Qed.

#[local] Hint Resolve in_python_finish_moving : python.

(** X10.  The wait for the end of a move ends by itself: with a device
    that has finitely many replies left, [_finish_moving], and [move_um]
    around it, return or raise an exception of Python (at the latest
    the failed assertion of line 93, once the device stays silent); the
    iteration bound of the model is never what stops the polling. *)
Theorem waiting_ends (c : Controller) :
  fst (_finish_moving c) <> Raise OutOfFuel /\
  (forall move relative block,
     fst (move_um move relative block c) <> Raise OutOfFuel).
Proof.
  split.
  - destruct (_finish_moving c) as [[u|e] c'] eqn:E; cbn [fst];
      [discriminate|].
    intros H. injection H as ->.
    now apply (in_python_finish_moving c _ c' E).
  - intros move relative block.
    assert (Hm : in_python (move_um move relative block)).
    { unfold move_um. python_tac. }
    destruct (move_um move relative block c) as [[u|e] c'] eqn:E; cbn [fst];
      [discriminate|].
    intros H. injection H as ->. now apply (Hm c _ c' E).
Qed.

(** ** What a method leaves alone

    The controller after a call, whether the call returned or raised, is
    [snd] of the run. *)

Lemma keeps_bind {A B X : Type} (v : Controller -> X) (m : M A) (f : A -> M B) :
  keeps v m -> (forall a, keeps v (f a)) -> keeps v (bind m f).
Proof.
  intros Hm Hf c. unfold bind. specialize (Hm c).
  destruct (m c) as [[a|e] c1]; cbn [snd] in *.
  - now rewrite (Hf a c1).
  - exact Hm.
Qed.

Create HintDb keeps.

(** Discharges [keeps] goals: the method is taken apart down to its
    assignments, each of which must leave the view as it is. *)
Ltac keeps_tac :=
  repeat first
    [ solve [auto with keeps nocore]
    | match goal with
      | |- keeps _ (bind _ _) => apply keeps_bind; [|intros ?]
      | |- keeps _ (ret _) => intros ?; reflexivity
      | |- keeps _ (raise _) => intros ?; reflexivity
      | |- keeps _ (reading _) => intros ?; reflexivity
      | |- keeps _ (lift _) => intros ?; reflexivity
      | |- keeps _ (update _) => intros ?; reflexivity
      | |- keeps _ (assert_ _ ?b) => destruct b; intros ?; reflexivity
      | |- keeps _ (when ?b _) => destruct b; cbn [when]
      | |- keeps _ (port_write _ _) =>
          let c := fresh in
          intros c; unfold port_write; destruct (is_open (port c)); reflexivity
      | |- keeps _ (port_readline _) =>
          let c := fresh in
          intros c; unfold port_readline; destruct (is_open (port c));
          [destruct (Serial_readline (port c))|]; reflexivity
      | |- keeps _ (port_in_waiting _) =>
          let c := fresh in
          intros c; unfold port_in_waiting; destruct (is_open (port c));
          reflexivity
      | |- keeps _ (_send _ _ _) => unfold _send
      | |- keeps _ _get_ttl_in_mode => unfold _get_ttl_in_mode
      | |- keeps _ _get_ttl_out_mode => unfold _get_ttl_out_mode
      | |- keeps _ (_set_ttl_in_mode _) => unfold _set_ttl_in_mode
      | |- keeps _ (_set_ttl_out_mode _) => unfold _set_ttl_out_mode
      | |- keeps _ _get_velocity => unfold _get_velocity
      | |- keeps _ _get_acceleration => unfold _get_acceleration
      | |- keeps _ _get_settle_time => unfold _get_settle_time
      | |- keeps _ _get_precision => unfold _get_precision
      | |- keeps _ (_set_velocity _) => unfold _set_velocity
      | |- keeps _ (_set_acceleration _) => unfold _set_acceleration
      | |- keeps _ (_set_settle_time _) => unfold _set_settle_time
      | |- keeps _ (_set_precision _) => unfold _set_precision
      | |- keeps _ _get_position => unfold _get_position
      | |- keeps _ get_pwm_intensity => unfold get_pwm_intensity
      | |- keeps _ (set_pwm_intensity _) => unfold set_pwm_intensity
      | |- keeps _ (set_pwm_state _) => unfold set_pwm_state
      | |- keeps _ close => unfold close
      | |- keeps _ (configure_axes _ _ _ _ _) => unfold configure_axes
      | |- keeps _ (if ?b then _ else _) => destruct b
      | |- keeps _ (match ?x with _ => _ end) => destruct x
      end ].

Lemma poll_status_keeps_lamp fuel : keeps lamp (poll_status fuel).
Proof. induction fuel as [|n IH]; cbn [poll_status]; keeps_tac. Qed.

Lemma poll_status_keeps_configuration fuel : keeps configuration (poll_status fuel).
Proof. induction fuel as [|n IH]; cbn [poll_status]; keeps_tac. Qed.

#[local] Hint Resolve poll_status_keeps_lamp poll_status_keeps_configuration
  : keeps.

Lemma finish_moving_keeps_lamp : keeps lamp _finish_moving.
Proof. unfold _finish_moving. keeps_tac. Qed.

Lemma finish_moving_keeps_configuration : keeps configuration _finish_moving.
Proof. unfold _finish_moving. keeps_tac. Qed.

#[local] Hint Resolve finish_moving_keeps_lamp finish_moving_keeps_configuration
  : keeps.

Lemma move_um_keeps_lamp move relative block :
  keeps lamp (move_um move relative block).
Proof. unfold move_um. keeps_tac. Qed.

Lemma move_um_keeps_configuration move relative block :
  keeps configuration (move_um move relative block).
Proof. unfold move_um. keeps_tac. Qed.

Lemma setter_keeps_lamp p vs : keeps lamp (setter p vs).
Proof. destruct p; cbn [setter]; keeps_tac. Qed.

Lemma getter_keeps_lamp p : keeps lamp (getter p).
Proof. destruct p; cbn [getter]; keeps_tac. Qed.

Lemma setter_keeps_configuration p vs : keeps configuration (setter p vs).
Proof. destruct p; cbn [setter]; keeps_tac. Qed.

Lemma getter_keeps_configuration p : keeps configuration (getter p).
Proof. destruct p; cbn [getter]; keeps_tac. Qed.

(** X11.  The methods of the stage never touch the illumination record:
    after [move_um], [_finish_moving], [_get_position] and every
    parameter setter and getter, whether the call returned or raised,
    the recorded TTL modes, the named state and the intensity are what
    they were. *)
Theorem stage_methods_keep_illumination (c : Controller) :
  (forall move relative block,
     lamp (snd (move_um move relative block c)) = lamp c) /\
  lamp (snd (_finish_moving c)) = lamp c /\
  lamp (snd (_get_position c)) = lamp c /\
  (forall p vs, lamp (snd (setter p vs c)) = lamp c) /\
  (forall p, lamp (snd (getter p c)) = lamp c).
Proof.
  split; [|split; [|split; [|split]]].
  - intros move relative block. apply move_um_keeps_lamp.
  - apply finish_moving_keeps_lamp.
  - assert (H : keeps lamp _get_position) by keeps_tac. apply H.
  - intros p vs. apply setter_keeps_lamp.
  - intros p. apply getter_keeps_lamp.
Qed.

(** X12.  The methods of the illumination never touch the record of the
    stage: after [set_pwm_state], [set_pwm_intensity],
    [get_pwm_intensity] and [close], whether the call returned or
    raised, the recorded parameters, the position, the moving flag and
    the pending target are what they were. *)
Theorem illumination_methods_keep_stage (c : Controller) :
  (forall st, motion (snd (set_pwm_state st c)) = motion c) /\
  (forall v, motion (snd (set_pwm_intensity v c)) = motion c) /\
  motion (snd (get_pwm_intensity c)) = motion c /\
  motion (snd (close c)) = motion c.
Proof.
  split; [|split; [|split]].
  - intros st. assert (H : keeps motion (set_pwm_state st)) by keeps_tac.
    apply H.
  - intros v. assert (H : keeps motion (set_pwm_intensity v)) by keeps_tac.
    apply H.
  - assert (H : keeps motion get_pwm_intensity) by keeps_tac. apply H.
  - assert (H : keeps motion close) by keeps_tac. apply H.
Qed.

(** X13.  No method changes the configuration once the controller is
    constructed: the version, the axes, the lead screw data, the travel
    range, the encoder factors and the limits of the parameters are the
    same after every call of a method other than [__init__], whether it
    returned or raised. *)
Theorem configuration_is_fixed (c : Controller) :
  (forall move relative block,
     configuration (snd (move_um move relative block c)) = configuration c) /\
  configuration (snd (_finish_moving c)) = configuration c /\
  configuration (snd (_get_position c)) = configuration c /\
  (forall p vs, configuration (snd (setter p vs c)) = configuration c) /\
  (forall p, configuration (snd (getter p c)) = configuration c) /\
  (forall st, configuration (snd (set_pwm_state st c)) = configuration c) /\
  (forall v, configuration (snd (set_pwm_intensity v c)) = configuration c) /\
  configuration (snd (get_pwm_intensity c)) = configuration c /\
  configuration (snd (close c)) = configuration c.
Proof.
  repeat split.
  - intros move relative block. apply move_um_keeps_configuration.
  - apply finish_moving_keeps_configuration.
  - assert (H : keeps configuration _get_position) by keeps_tac. apply H.
  - intros p vs. apply setter_keeps_configuration.
  - intros p. apply getter_keeps_configuration.
  - intros st.
    assert (H : keeps configuration (set_pwm_state st)) by keeps_tac. apply H.
  - intros v.
    assert (H : keeps configuration (set_pwm_intensity v)) by keeps_tac.
    apply H.
  - assert (H : keeps configuration get_pwm_intensity) by keeps_tac. apply H.
  - assert (H : keeps configuration close) by keeps_tac. apply H.
Qed.

(** *** The consistency of the illumination record as an invariant *)

Lemma consistent_registers c c' :
  registers c' = registers c ->
  illumination_consistent c -> illumination_consistent c'.
Proof.
  unfold registers, illumination_consistent. intros E H st Hst.
  injection E as E1 E2 E3. rewrite E3 in Hst. rewrite E1, E2. now apply H.
Qed.

Lemma lamp_registers c c' : lamp c' = lamp c -> registers c' = registers c.
Proof. unfold lamp, registers. intros E. now injection E as -> -> -> _. Qed.

Lemma set_pwm_intensity_keeps_registers v : keeps registers (set_pwm_intensity v).
Proof. keeps_tac. Qed.

(** What [close] did before it closed the port. *)
Lemma close_ok c u c' :
  close c = (Ok u, c') ->
  exists c2, c' = set_port (Serial_close (port c2)) c2 /\
    state c2 = Some "off" /\
    ((state c = Some "off" /\ c2 = c) \/
     (state c <> Some "off" /\ set_pwm_state "off" c = (Ok tt, c2))).
Proof.
  unfold close. intros H.
  apply bind_ok in H. destruct H as (st & c1 & H1 & H). inv_run H1.
  subst st.
  apply bind_ok in H. destruct H as ([] & c2 & H2 & H). inv_run H.
  exists c2. split; [reflexivity|].
  destruct (state c) as [s|] eqn:Es.
  - destruct (String.eqb_spec s "off") as [->|Hs]; cbn [negb when] in H2.
    + inv_run H2. split; [exact Es|]. left. auto.
    + split.
      * destruct (set_pwm_state_ok "off" ("disabled", "low") _ _ _ eq_refl H2)
          as (cin & cout & _ & _ & _ & _ & _ & ->). reflexivity.
      * right. split; [|exact H2]. intros Hx. injection Hx as ->. now elim Hs.
  - cbn [negb when] in H2. split.
    + destruct (set_pwm_state_ok "off" ("disabled", "low") _ _ _ eq_refl H2)
        as (cin & cout & _ & _ & _ & _ & _ & ->). reflexivity.
    + right. split; [discriminate | exact H2].
Qed.

(** X14.  A controller that [__init__] has built is consistent: its
    named illumination state, when it has one, determines the two
    recorded TTL modes as the table of states says. *)
Theorem constructor_establishes_consistency (p : Serial)
    (axs lead_screws : option (list string))
    (axes_min_mm axes_max_mm encoder : option (list value)) (use_pwm : bool)
    (c : Controller) :
  Controller_new p axs lead_screws axes_min_mm axes_max_mm encoder use_pwm
    = Ok c ->
  illumination_consistent c.
Proof.
  unfold Controller_new.
  destruct (__init__ axs lead_screws axes_min_mm axes_max_mm encoder use_pwm
              (blank p)) as [[u|e] c0] eqn:H; [|discriminate].
  intros Hc. injection Hc as <-. unfold __init__ in H.
  apply bind_ok in H. destruct H as (r & c1 & _ & H).
  apply bind_ok in H. destruct H as (s & c2 & _ & H).
  apply bind_ok in H. destruct H as (u3 & c3 & _ & H).
  apply bind_ok in H. destruct H as (u4 & c4 & _ & H).
  apply bind_ok in H. destruct H as (u5 & c5 & _ & H).
  apply bind_ok in H. destruct H as (u6 & c6 & _ & H).
  apply bind_ok in H. destruct H as (u7 & c7 & H7 & H). inv_run H7.
  apply bind_ok in H. destruct H as (u8 & c8 & H8 & H).
  assert (Hstage : keeps lamp
    (match axs with
     | None => ret tt
     | Some a =>
         configure_axes a lead_screws axes_min_mm axes_max_mm encoder ;;
         vmax <- reading (fun c => attr 74 (max_velocity_mmps c)) ;;
         _set_velocity (map (fun v => VFloat ((67 # 100) * v)) vmax) ;;
         amin <- reading (fun c => attr 75 (min_acceleration_ms c)) ;;
         _set_acceleration (map VFloat amin) ;;
         _set_settle_time (repeat (VInt 0) (length a)) ;;
         pmin <- reading (fun c => attr 77 (min_precision_um c)) ;;
         _set_precision (map VFloat pmin) ;;
         _get_position ;;
         update (set_moving (Some false))
     end)) by keeps_tac.
  specialize (Hstage (set_state None c6)). rewrite H8 in Hstage.
  cbn [snd] in Hstage.
  destruct use_pwm; cbn [when] in H.
  - apply bind_ok in H. destruct H as (u9 & c9 & H9 & H).
    apply set_pwm_state_consistent in H9.
    pose proof (set_pwm_intensity_keeps_registers (VInt 1) c9) as Hk.
    rewrite H in Hk. cbn [snd] in Hk.
    exact (consistent_registers _ _ Hk H9).
  - inv_run H. intros st Hst.
    unfold lamp in Hstage. injection Hstage as _ _ Hs _.
    rewrite Hs in Hst. discriminate Hst.
Qed.

Lemma constructor_establishes_consistency_witness :
  exists c,
    Controller_new
      (port_with (init_script ++
                  [ack; ttl_reply "X" "0"; ack; ttl_reply "Y" "0";
                   ack; led_reply 1]))
      None None None None None true = Ok c /\
    state c = Some "off" /\ illumination_consistent c.
Proof.
  eexists. split; [vm_compute; reflexivity|]. split; [reflexivity|].
  apply (constructor_establishes_consistency
           (port_with (init_script ++
                       [ack; ttl_reply "X" "0"; ack; ttl_reply "Y" "0";
                        ack; led_reply 1]))
           None None None None None true).
  vm_compute. reflexivity.
Defined.

(** X15.  Every method keeps the illumination record consistent: from a
    consistent controller, [set_pwm_state] and [close] that return leave
    a consistent one, and so does every call, returning or raising, of
    [set_pwm_intensity], [get_pwm_intensity], [move_um] and the
    parameter setters and getters. *)
Theorem methods_preserve_consistency (c : Controller) :
  illumination_consistent c ->
  (forall st c', set_pwm_state st c = (Ok tt, c') ->
     illumination_consistent c') /\
  (forall c', close c = (Ok tt, c') -> illumination_consistent c') /\
  (forall v, illumination_consistent (snd (set_pwm_intensity v c))) /\
  illumination_consistent (snd (get_pwm_intensity c)) /\
  (forall move relative block,
     illumination_consistent (snd (move_um move relative block c))) /\
  (forall p vs, illumination_consistent (snd (setter p vs c))) /\
  (forall p, illumination_consistent (snd (getter p c))).
Proof.
  intros Hc. repeat split.
  - intros st c' H. now apply set_pwm_state_consistent in H.
  - intros c' H. apply close_ok in H.
    destruct H as (c2 & -> & _ & [[_ ->]|[_ H]]).
    + exact (consistent_registers c _ eq_refl Hc).
    + apply set_pwm_state_consistent in H.
      exact (consistent_registers c2 _ eq_refl H).
  - intros v. apply (consistent_registers c); [|exact Hc].
    apply set_pwm_intensity_keeps_registers.
  - apply (consistent_registers c); [|exact Hc].
    assert (H : keeps registers get_pwm_intensity) by keeps_tac. apply H.
  - intros move relative block. apply (consistent_registers c); [|exact Hc].
    apply lamp_registers, move_um_keeps_lamp.
  - intros p vs. apply (consistent_registers c); [|exact Hc].
    apply lamp_registers, setter_keeps_lamp.
  - intros p. apply (consistent_registers c); [|exact Hc].
    apply lamp_registers, getter_keeps_lamp.
Qed.

Lemma methods_preserve_consistency_witness :
  let c := plain_controller [ack; led_reply 150] in
  snd (set_pwm_intensity (VInt 50) c) <> c /\
  illumination_consistent (snd (set_pwm_intensity (VInt 50) c)).
Proof.
  intros c.
  assert (Hc : illumination_consistent c).
  { intros st Hst. vm_compute in Hst. discriminate Hst. }
  split.
  - intros E. apply (f_equal pwm_intensity) in E. vm_compute in E.
    discriminate E.
  - exact (proj1 (proj2 (proj2 (methods_preserve_consistency c Hc)))
             (VInt 50)).
Defined.

(** X16.  Closing twice is harmless: after a [close] that returned, the
    recorded state is ['off'] and the port is closed, and a second
    [close] returns without writing anything or changing the
    controller. *)
Theorem close_twice (c c' : Controller) :
  close c = (Ok tt, c') ->
  state c' = Some "off" /\ is_open (port c') = false /\
  close c' = (Ok tt, c').
Proof.
  intros H. apply close_ok in H. destruct H as (c2 & -> & Hs & _).
  split; [exact Hs|]. split; [reflexivity|].
  unfold close. unfold bind at 1. unfold reading at 1.
  cbn [state set_port]. rewrite Hs.
  cbn [String.eqb Ascii.eqb Bool.eqb negb when].
  reflexivity.
Qed.

Lemma close_twice_witness :
  let c := plain_controller [ack; ttl_reply "X" "0"; ack; ttl_reply "Y" "0"] in
  let c' := snd (close c) in
  state c' = Some "off" /\ is_open (port c') = false /\
  close c' = (Ok tt, c').
Proof.
  intros c c'.
  assert (H : close c = (Ok tt, c')) by (vm_compute; reflexivity).
  exact (close_twice c c' H).
Defined.

(** ** The read-back of a setter *)

(** A setter given numbers within the bounds, on a port whose device
    acknowledges the command and then reports [ws]: everything up to the
    comparison of the report with the intended values. *)
Lemma setter_until_check p c axs X ws reply rest :
  well_formed c -> sound_limits c ->
  axes c = Some axs -> supported_axes axs -> length X = length axs ->
  forallb is_number X = true ->
  (forall k v lo hi, nth_error X k = Some v ->
     lower_bound p c k = Some lo -> upper_bound p c k = Some hi ->
     in_range lo (number_of v) hi = true) ->
  ready c reply (axis_reply axs ws :: rest) ->
  length axs = length ws ->
  let got := map (received p) (map (py_round_n 6) ws) in
  let want := map (fun v => intended p (number_of v)) X in
  let c2 := set_current p (Some got)
              (sent (query_cmd (keyword p) axs) rest
                 (sent (set_cmd p axs X) (axis_reply axs ws :: rest) c)) in
  setter p X c =
    match p with
    | SettleTime => (settle_check_loop c2 0 (combine want got), c2)
    | _ => (if list_eqb Qeq_bool got want then Ok tt
            else Raise (AssertionError (verify_line p)), c2)
    end.
Proof.
  intros Hwf Hlim Hax Hsup Hlen Hnum Hin Hr Hwlen got want c2.
  destruct (supported_axis_names _ Hsup) as [Hnames Hne].
  assert (Hloop : setter_loop p c X = Ok (want, imap (piece p axs) 0 X)).
  { apply setter_loop_run; auto. intros k v lo hi Hk Hlo Hhi.
    apply checked_in_range; [|eauto].
    intros Hp. destruct Hlim as [Hint _]. split; eapply Hint; eauto. }
  assert (Hcmd : is_ascii (set_cmd p axs X) = true).
  { apply is_ascii_concat_all. cbn [forallb].
    rewrite pieces_ascii by exact Hnames. destruct p; reflexivity. }
  assert (Hopen : is_open (port c) = true) by apply Hr.
  pose proof (getter_run p (sent (set_cmd p axs X) (axis_reply axs ws :: rest) c)
                axs ws rest Hax Hsup Hwlen Hopen eq_refl eq_refl)
    as Hget. cbv zeta in Hget. fold got in Hget. fold c2 in Hget.
  unfold setter_loop in Hloop.
  destruct p; cbn [setter param_step keyword verify_line] in *;
    [ unfold _set_velocity | unfold _set_acceleration
    | unfold _set_settle_time | unfold _set_precision ];
    unfold bind at 1; unfold reading at 1; rewrite Hax; cbn [attr];
    unfold bind at 1; rewrite Hlen, Nat.eqb_refl; cbn [assert_ ret];
    unfold bind at 1; rewrite Hnum; cbn [assert_ ret];
    unfold bind at 1; unfold reading at 1;
    [ rewrite velocity_loop_each | rewrite acceleration_loop_each
    | rewrite settle_time_loop_each | rewrite precision_loop_each ];
    rewrite Hloop; cbn [fst snd];
    match goal with
    | |- context [_send ?cmd false false] =>
        rewrite (bind_run _ _ _ _ _ (send_silent_run cmd c _ _ Hcmd Hr))
    end;
    rewrite (bind_run _ _ _ _ _ Hget).
  - destruct (list_eqb Qeq_bool got want); reflexivity.
  - destruct (list_eqb Qeq_bool got want); reflexivity.
  - unfold reading. unfold c2 at 1.
    cbn [set_current set_settle_time_ms settle_time_ms attr rbind].
    reflexivity.
  - destruct (list_eqb Qeq_bool got want); reflexivity.
Qed.

(** X17.  When the device reports other values than a setter of the
    velocity, the acceleration or the precision sent, the setter fails
    at its comparison (lines 175, 205, 269), after both commands have
    been written, and the attribute then holds what the device
    reported: neither the values asked for nor the earlier ones. *)
Theorem setter_read_back_mismatch (p : parameter) (c : Controller)
    (axs : list string) (X : list value) (ws : list Q) (reply : string)
    (rest : list string) :
  p <> SettleTime ->
  well_formed c -> sound_limits c ->
  axes c = Some axs -> supported_axes axs -> length X = length axs ->
  forallb is_number X = true ->
  (forall k v lo hi, nth_error X k = Some v ->
     lower_bound p c k = Some lo -> upper_bound p c k = Some hi ->
     in_range lo (number_of v) hi = true) ->
  ready c reply (axis_reply axs ws :: rest) ->
  length axs = length ws ->
  let got := map (received p) (map (py_round_n 6) ws) in
  list_eqb Qeq_bool got (map (fun v => intended p (number_of v)) X) = false ->
  setter p X c =
    (Raise (AssertionError (verify_line p)),
     set_current p (Some got)
       (sent (query_cmd (keyword p) axs) rest
          (sent (set_cmd p axs X) (axis_reply axs ws :: rest) c))).
Proof.
  intros Hp Hwf Hlim Hax Hsup Hlen Hnum Hin Hr Hwlen got Hne.
  rewrite (setter_until_check p c axs X ws reply rest
             Hwf Hlim Hax Hsup Hlen Hnum Hin Hr Hwlen).
  cbv zeta. fold got. rewrite Hne.
  destruct p; [reflexivity | reflexivity | now elim Hp | reflexivity].
Qed.

Lemma settle_check_loop_iff c tol pairs : forall i,
  tol_settle_time_ms c = Some tol -> i + length pairs <= length tol ->
  (settle_check_loop c i pairs = Ok tt <->
   forall k ti tf d, nth_error pairs k = Some (ti, tf) ->
     nth_error tol (i + k) = Some d ->
     (ti - d <= tf)%Q /\ (tf <= ti + d)%Q).
Proof.
  induction pairs as [|[ti tf] rest IH]; intros i Htol Hlen.
  - split; [|reflexivity]. intros _ [|k] ? ? ? H; discriminate H.
  - cbn [settle_check_loop]. rewrite Htol. cbn [attr rbind].
    destruct (nth_error tol i) as [d|] eqn:Hd.
    2:{ apply nth_error_None in Hd. simpl in Hlen. lia. }
    rewrite (index_some 236 _ _ _ Hd), (index_some 237 _ _ _ Hd).
    cbn [rbind].
    assert (Hrest : S i + length rest <= length tol) by (simpl in Hlen; lia).
    specialize (IH (S i) Htol Hrest).
    split.
    + intros H.
      destruct (Qle_bool (ti - d) tf) eqn:E1; [|discriminate H].
      cbn [rassert rbind] in H.
      destruct (Qle_bool tf (ti + d)) eqn:E2; [|discriminate H].
      cbn [rassert rbind] in H.
      intros [|k] ti' tf' d' Hk Hd'.
      * injection Hk as <- <-. rewrite Nat.add_0_r, Hd in Hd'.
        injection Hd' as <-.
        apply Qle_bool_iff in E1. apply Qle_bool_iff in E2. auto.
      * rewrite Nat.add_succ_r in Hd'.
        exact (proj1 IH H k ti' tf' d' Hk Hd').
    + intros H.
      assert (Hd0 : nth_error tol (i + 0) = Some d) by now rewrite Nat.add_0_r.
      destruct (H 0 ti tf d eq_refl Hd0) as [H1 H2].
      apply Qle_bool_iff in H1. apply Qle_bool_iff in H2.
      rewrite H1, H2. cbn [rassert rbind].
      apply IH. intros k ti' tf' d' Hk Hd'.
      apply (H (S k) ti' tf' d' Hk). now rewrite Nat.add_succ_r.
Qed.

(** X18.  The settle time is compared within a tolerance: for numbers
    within the bounds and a device that reports [ws], [_set_settle_time]
    returns exactly when every reported time, as read from its
    six-decimal text, is within the tolerance of its axis of the rounded
    time that was sent; the reported times are recorded either way. *)
Theorem settle_time_within_tolerance (c : Controller) (axs : list string)
    (X : list value) (ws : list Q) (reply : string) (rest : list string)
    (tol : list Q) :
  well_formed c -> sound_limits c ->
  axes c = Some axs -> supported_axes axs -> length X = length axs ->
  forallb is_number X = true ->
  (forall k v lo hi, nth_error X k = Some v ->
     lower_bound SettleTime c k = Some lo ->
     upper_bound SettleTime c k = Some hi ->
     in_range lo (number_of v) hi = true) ->
  ready c reply (axis_reply axs ws :: rest) ->
  length axs = length ws ->
  tol_settle_time_ms c = Some tol -> length tol = length axs ->
  settle_time_ms (snd (_set_settle_time X c)) = Some (map (py_round_n 6) ws) /\
  (fst (_set_settle_time X c) = Ok tt <->
   forall k v w d, nth_error X k = Some v -> nth_error ws k = Some w ->
     nth_error tol k = Some d ->
     (inject_Z (py_round (number_of v)) - d <= py_round_n 6 w)%Q /\
     (py_round_n 6 w <= inject_Z (py_round (number_of v)) + d)%Q).
Proof.
  intros Hwf Hlim Hax Hsup Hlen Hnum Hin Hr Hwlen Htol Htlen.
  pose proof (setter_until_check SettleTime c axs X ws reply rest
                Hwf Hlim Hax Hsup Hlen Hnum Hin Hr Hwlen) as Hrun.
  cbv zeta in Hrun. cbn [setter received intended] in Hrun.
  rewrite map_id in Hrun. rewrite Hrun. cbn [fst snd]. split; [reflexivity|].
  set (c2 := set_current SettleTime _ _).
  assert (Htol2 : tol_settle_time_ms c2 = Some tol) by exact Htol.
  rewrite (settle_check_loop_iff c2 tol _ 0 Htol2).
  2:{ rewrite length_combine, !length_map. cbn [Nat.add]. lia. }
  cbn [Nat.add]. split.
  - intros H k v w d Hv Hw Hd.
    apply (H k _ _ d); [|exact Hd].
    apply nth_error_combine; rewrite nth_error_map.
    + now rewrite Hv.
    + now rewrite Hw.
  - intros H k ti tf d Hk Hd.
    destruct (nth_error X k) as [v|] eqn:Hv.
    2:{ apply nth_error_None in Hv.
        assert (Hlt : k < length (combine (map (fun v => inject_Z (py_round (number_of v))) X)
                                         (map (py_round_n 6) ws))).
        { apply nth_error_Some. congruence. }
        rewrite length_combine, !length_map in Hlt. lia. }
    destruct (nth_error ws k) as [w|] eqn:Hw.
    2:{ apply nth_error_None in Hw.
        assert (Hlt : k < length (combine (map (fun v => inject_Z (py_round (number_of v))) X)
                                         (map (py_round_n 6) ws))).
        { apply nth_error_Some. congruence. }
        rewrite length_combine, !length_map in Hlt. lia. }
    assert (Hk' : nth_error (combine (map (fun v => inject_Z (py_round (number_of v))) X)
                                     (map (py_round_n 6) ws)) k
                  = Some (inject_Z (py_round (number_of v)), py_round_n 6 w)).
    { apply nth_error_combine; rewrite nth_error_map.
      - now rewrite Hv.
      - now rewrite Hw. }
    rewrite Hk' in Hk. injection Hk as <- <-.
    exact (H k v w d Hv Hw Hd).
Qed.

(** ** The polling loop, run *)

(** X19.  The polling loop of [_finish_moving] asks for the status
    again after every answer other than ['N'] and stops at the first
    ['N']: with a device that answers with the statuses [busy], none of
    them ['N'] or empty, and then with ['N'], it returns after one more
    query than there are answers in [busy], having written only status
    queries and read every one of these answers. *)
Theorem polling_stops_at_first_N (busy : list string) (done : string)
    (rest : list string) :
  Forall (fun r => clean_reply r = true /\
                   is_empty (strip delimiters r) = false /\
                   strip delimiters r <> "N") busy ->
  clean_reply done = true -> strip delimiters done = "N" ->
  forall c, is_open (port c) = true -> in_buffer (port c) = EmptyString ->
    device (port c) = busy ++ done :: rest ->
    exists c',
      poll_status (poll_bound c) c = (Ok tt, c') /\
      written (port c') =
        written (port c)
          ++ repeat (String "/" (String CR EmptyString)) (S (length busy)) /\
      device (port c') = rest /\ in_buffer (port c') = EmptyString /\
      c' = set_port (port c') c.
Proof.
  intros Hbusy Hdc Hds.
  assert (Hgen : forall fuel c, length busy < fuel ->
    is_open (port c) = true -> in_buffer (port c) = EmptyString ->
    device (port c) = busy ++ done :: rest ->
    exists c',
      poll_status fuel c = (Ok tt, c') /\
      written (port c') =
        written (port c)
          ++ repeat (String "/" (String CR EmptyString)) (S (length busy)) /\
      device (port c') = rest /\ in_buffer (port c') = EmptyString /\
      c' = set_port (port c') c).
  { induction Hbusy as [|b bs (Hbc & Hbn & Hbs) Hall IH];
      intros fuel c Hfuel Ho Hb Hd.
    - destruct fuel as [|n]; [simpl in Hfuel; lia|].
      cbn [poll_status app] in *.
      assert (Hr : ready c done rest) by (repeat split; assumption).
      assert (Hn : is_empty (strip delimiters done) = false)
        by now rewrite Hds.
      rewrite (bind_run _ _ _ _ _ (send_str_run "/" c done rest eq_refl Hr Hn)).
      rewrite Hds. cbn [String.eqb Ascii.eqb Bool.eqb].
      eexists. split; [reflexivity|]. repeat split.
    - destruct fuel as [|n]; [simpl in Hfuel; lia|].
      cbn [poll_status app length] in *.
      assert (Hr : ready c b (bs ++ done :: rest))
        by (repeat split; assumption).
      rewrite (bind_run _ _ _ _ _
                 (send_str_run "/" c b (bs ++ done :: rest) eq_refl Hr Hbn)).
      destruct (String.eqb_spec (strip delimiters b) "N") as [E|_];
        [now elim Hbs|].
      destruct (IH n (sent "/" (bs ++ done :: rest) c)) as (c' & Hp & Hw & Hdv & Hbf & Hc');
        [lia | exact Ho | reflexivity | reflexivity |].
      exists c'. split; [exact Hp|]. split; [|split; [exact Hdv|split; [exact Hbf|]]].
      + rewrite Hw. cbn [sent port set_port advance written repeat].
        rewrite <- app_assoc. reflexivity.
      + rewrite Hc' at 1. reflexivity. }
  intros c Ho Hb Hd. apply Hgen; auto.
  unfold poll_bound. rewrite Hd, length_app. simpl. lia.
Qed.

Lemma polling_stops_at_first_N_witness :
  let c := xy_stage [line_of "B"; line_of "B"; line_of "N"; line_of "0 0"] in
  exists c',
    poll_status (poll_bound c) c = (Ok tt, c') /\
    written (port c') =
      written (port c) ++ repeat (String "/" (String CR EmptyString)) 3 /\
    device (port c') = [line_of "0 0"] /\ in_buffer (port c') = EmptyString /\
    c' = set_port (port c') c.
Proof.
  intros c.
  assert (Hbusy : Forall (fun r => clean_reply r = true /\
                            is_empty (strip delimiters r) = false /\
                            strip delimiters r <> "N")
                         [line_of "B"; line_of "B"]).
  { repeat constructor; try (vm_compute; reflexivity);
      vm_compute; discriminate. }
  assert (Ho : is_open (port c) = true) by (vm_compute; reflexivity).
  assert (Hb : in_buffer (port c) = EmptyString) by (vm_compute; reflexivity).
  assert (Hd : device (port c)
               = [line_of "B"; line_of "B"] ++ line_of "N" :: [line_of "0 0"])
    by (vm_compute; reflexivity).
  exact (polling_stops_at_first_N [line_of "B"; line_of "B"] (line_of "N")
           [line_of "0 0"] Hbusy eq_refl eq_refl c Ho Hb Hd).
Defined.

(** ** The text of the numbers *)

(** X20.  The six-decimal text of a number, ['%0.6f'], is read back by
    [float] as the number rounded to six decimals, which is within half
    a millionth of the number and whose own text reads back as itself. *)
Theorem six_decimal_text_round_trip (x : Q) :
  float_of_string (format_f6 x) = Some (py_round_n 6 x) /\
  (x - (1 # 2000000) <= py_round_n 6 x)%Q /\
  (py_round_n 6 x <= x + (1 # 2000000))%Q /\
  float_of_string (format_f6 (py_round_n 6 x)) = Some (py_round_n 6 x).
Proof.
  split; [apply float_of_format_f6|].
  assert (E : (py_round_n 6 x
               == inject_Z (py_round (x * inject_Z 1000000)) * (1 # 1000000))%Q).
  { unfold py_round_n. change (pow10 6) with 1000000%positive.
    unfold Qeq, Qmult, inject_Z. cbn [Qnum Qden]. lia. }
  destruct (py_round_near (x * inject_Z 1000000)) as [H1 H2].
  set (k := py_round (x * inject_Z 1000000)) in *.
  change (inject_Z 1000000) with (1000000 # 1)%Q in H1, H2.
  split; [|split].
  - rewrite E. lra.
  - rewrite E. lra.
  - rewrite float_of_format_f6. f_equal. unfold py_round_n at 2.
    change (pow10 6) with 1000000%positive. apply py_round_n_fixed.
Qed.

(** X21.  An axis reply is decoded to the values it was written from:
    for axis names that are words without [=], one value per axis, a
    query with [parse_axes] answered by the line of the axes with their
    values in six-decimal text returns the values rounded to six
    decimals, in the order of the axes. *)
Theorem send_decodes_axis_reply (cmd : string) (c : Controller)
    (axs : list string) (ws : list Q) (rest : list string) :
  is_ascii cmd = true ->
  axes c = Some axs -> Forall axis_name axs -> axs <> [] ->
  length axs = length ws ->
  is_open (port c) = true -> in_buffer (port c) = EmptyString ->
  device (port c) = axis_reply axs ws :: rest ->
  _send cmd true true c = (Ok (RTuple (map (py_round_n 6) ws)), sent cmd rest c).
Proof.
  intros Hcmd Hax Hnames Hne Hlen Ho Hb Hd.
  exact (proj1 (send_axes_run cmd c axs ws rest Hcmd Hax Hnames Hne Hlen Ho Hb Hd)).
Qed.

Lemma send_decodes_axis_reply_witness :
  let c := with_axes ["P"; "Q2"; "R"]
             (xy_stage [axis_reply ["P"; "Q2"; "R"] [1 # 3; -5; 0]%Q]) in
  _send "W?" true true c =
    (Ok (RTuple (map (py_round_n 6) [1 # 3; -5; 0]%Q)), sent "W?" [] c).
Proof.
  intros c.
  assert (Hnames : Forall axis_name ["P"; "Q2"; "R"])
    by (repeat (apply Forall_cons; [split; reflexivity|]); apply Forall_nil).
  assert (Hne : ["P"; "Q2"; "R"] <> []) by discriminate.
  assert (Hd : device (port c) = axis_reply ["P"; "Q2"; "R"] [1 # 3; -5; 0]%Q :: [])
    by (vm_compute; reflexivity).
  assert (Ho : is_open (port c) = true) by (vm_compute; reflexivity).
  assert (Hb : in_buffer (port c) = EmptyString) by (vm_compute; reflexivity).
  exact (send_decodes_axis_reply "W?" c ["P"; "Q2"; "R"] [1 # 3; -5; 0]%Q []
           eq_refl eq_refl Hnames Hne eq_refl Ho Hb Hd).
Defined.

Lemma setter_read_back_mismatch_witness :
  let X := [VInt 1; VInt 1] in
  let ws := [2; 2]%Q in
  let c := xy_stage [ack; axis_reply ["X"; "Y"] ws] in
  let got := map (received Velocity) (map (py_round_n 6) ws) in
  setter Velocity X c =
    (Raise (AssertionError (verify_line Velocity)),
     set_current Velocity (Some got)
       (sent (query_cmd (keyword Velocity) ["X"; "Y"]) []
          (sent (set_cmd Velocity ["X"; "Y"] X)
             (axis_reply ["X"; "Y"] ws :: []) c))).
Proof.
  intros X ws c got.
  assert (Hp : Velocity <> SettleTime) by discriminate.
  assert (Hax : axes c = Some ["X"; "Y"]) by (vm_compute; reflexivity).
  assert (Hin : forall k v lo hi, nth_error X k = Some v ->
            lower_bound Velocity c k = Some lo ->
            upper_bound Velocity c k = Some hi ->
            in_range lo (number_of v) hi = true).
  { intros k v lo hi Hk Hlo Hhi.
    destruct k as [|[|k]]; cbn in Hk.
    - injection Hk as <-. vm_compute in Hlo, Hhi.
      injection Hlo as <-. injection Hhi as <-. reflexivity.
    - injection Hk as <-. vm_compute in Hlo, Hhi.
      injection Hlo as <-. injection Hhi as <-. reflexivity.
    - destruct k; discriminate Hk. }
  assert (Hr : ready c ack [axis_reply ["X"; "Y"] ws]).
  { repeat split; vm_compute; reflexivity. }
  assert (Hne : list_eqb Qeq_bool got
                  (map (fun v => intended Velocity (number_of v)) X) = false)
    by (vm_compute; reflexivity).
  exact (setter_read_back_mismatch Velocity c ["X"; "Y"] X ws ack [] Hp
           (xy_stage_well_formed_any _) (xy_stage_sound_limits _) Hax
           (or_introl eq_refl) eq_refl eq_refl Hin Hr eq_refl Hne).
Defined.

Lemma settle_time_within_tolerance_witness :
  let X := [VInt 10; VInt 10] in
  let ws := [104 # 10; 9]%Q in
  let c := xy_stage [ack; axis_reply ["X"; "Y"] ws] in
  settle_time_ms (snd (_set_settle_time X c)) = Some (map (py_round_n 6) ws) /\
  fst (_set_settle_time X c) = Ok tt /\
  (10 - 1 <= py_round_n 6 (104 # 10))%Q.
Proof.
  intros X ws c.
  assert (Hax : axes c = Some ["X"; "Y"]) by (vm_compute; reflexivity).
  assert (Htol : tol_settle_time_ms c = Some [1; 1]%Q)
    by (vm_compute; reflexivity).
  assert (Hin : forall k v lo hi, nth_error X k = Some v ->
            lower_bound SettleTime c k = Some lo ->
            upper_bound SettleTime c k = Some hi ->
            in_range lo (number_of v) hi = true).
  { intros k v lo hi Hk Hlo Hhi.
    destruct k as [|[|k]]; cbn in Hk.
    - injection Hk as <-. vm_compute in Hlo, Hhi.
      injection Hlo as <-. injection Hhi as <-. reflexivity.
    - injection Hk as <-. vm_compute in Hlo, Hhi.
      injection Hlo as <-. injection Hhi as <-. reflexivity.
    - destruct k; discriminate Hk. }
  assert (Hr : ready c ack [axis_reply ["X"; "Y"] ws]).
  { repeat split; vm_compute; reflexivity. }
  assert (Hok : fst (_set_settle_time X c) = Ok tt)
    by (vm_compute; reflexivity).
  destruct (settle_time_within_tolerance c ["X"; "Y"] X ws ack [] [1; 1]%Q
              (xy_stage_well_formed_any _) (xy_stage_sound_limits _) Hax
              (or_introl eq_refl) eq_refl eq_refl Hin Hr eq_refl Htol eq_refl)
    as [Hrec Hiff].
  split; [exact Hrec|]. split; [exact Hok|].
  exact (proj1 (proj1 Hiff Hok 0 (VInt 10) (104 # 10)%Q 1%Q
                  eq_refl eq_refl eq_refl)).
Defined.

(** ** What the constructor leaves behind *)

Lemma screw_loop_length screws n : forall a triples,
  screw_loop screws n a = Ok triples -> length triples = n.
Proof.
  induction n as [|n IH]; intros a triples H.
  - injection H as <-. reflexivity.
  - cbn [screw_loop] in H.
    apply rbind_ok in H. destruct H as (s & _ & H).
    destruct (screw_get screw2value s) as [v|]; [|discriminate H].
    apply rbind_ok in H. destruct H as (r & Hr & H). injection H as <-.
    simpl. now rewrite (IH _ _ Hr).
Qed.

(** What a successful [configure_axes] checked and set. *)
Lemma configure_axes_ok axs lead_screws axes_min_mm axes_max_mm encoder c u c' :
  configure_axes axs lead_screws axes_min_mm axes_max_mm encoder c = (Ok u, c') ->
  supported_axes axs /\
  exists screws triples mins maxs counts,
    lead_screws = Some screws /\
    screw_loop screws (length axs) 0 = Ok triples /\
    axes_min_mm = Some mins /\ axes_max_mm = Some maxs /\
    length mins = length axs /\ length maxs = length axs /\
    length counts = length axs /\
    (encoder = None -> counts = repeat 10%Z (length axs)) /\
    (forall e, encoder = Some e -> counts = map int_of e) /\
    c' = mkController (port c) (version c) (_ttl_in_mode c) (_ttl_out_mode c)
      (state c) (pwm_intensity c)
      (Some axs)
      (Some (map (fun t => fst (fst t)) triples))
      (Some (map (fun t => snd (fst t)) triples))
      (Some (map (fun t => snd t) triples))
      (Some (map (fun v => (1000 * number_of v)%Q) mins))
      (Some (map (fun v => (1000 * number_of v)%Q) maxs))
      (Some counts)
      (Some (repeat 25%Q (length axs)))
      (Some (repeat 1000%Q (length axs)))
      (Some (repeat 1000%Q (length axs)))
      (Some (repeat 1%Q (length axs)))
      (Some (repeat 1%Q (length axs)))
      (Some (repeat 1000000%Q (length axs)))
      (velocity_mmps c) (acceleration_ms c) (settle_time_ms c)
      (precision_um c) (position_um c) (_moving c) (_target_move_um c).
Proof.
  unfold configure_axes. intros H.
  apply bind_ok in H. destruct H as (u0 & c0 & H0 & H).
  apply assert_ok in H0. destruct H0 as [Hsup ->].
  apply bind_ok in H. destruct H as (screws & c1 & K1 & H).
  unfold lift in K1. injection K1 as Hls <-.
  apply bind_ok in H. destruct H as (u2 & c2 & K2 & H).
  apply assert_ok in K2. destruct K2 as [Hsl ->].
  apply bind_ok in H. destruct H as (triples & c3 & K3 & H).
  unfold lift in K3. injection K3 as Htr <-.
  apply bind_ok in H. destruct H as (mins & c4 & K4 & H).
  unfold lift in K4. injection K4 as Hmn <-.
  apply bind_ok in H. destruct H as (maxs & c5 & K5 & H).
  unfold lift in K5. injection K5 as Hmx <-.
  apply bind_ok in H. destruct H as (u6 & c6 & K6 & H).
  apply assert_ok in K6. destruct K6 as [Hmins ->].
  apply bind_ok in H. destruct H as (u7 & c7 & K7 & H).
  apply assert_ok in K7. destruct K7 as [Hmaxs ->].
  apply bind_ok in H. destruct H as (u8 & c8 & K8 & H).
  apply assert_ok in K8. destruct K8 as [_ ->].
  apply bind_ok in H. destruct H as (u9 & c9 & K9 & H).
  apply assert_ok in K9. destruct K9 as [_ ->].
  apply bind_ok in H. destruct H as (counts & c10 & H10 & H).
  split.
  { rewrite !orb_true_iff, !list_eqb_string_eq in Hsup.
    unfold supported_axes. tauto. }
  assert (Hls' : lead_screws = Some screws).
  { destruct lead_screws; [|discriminate Hls]. simpl in Hls. congruence. }
  assert (Hmn' : axes_min_mm = Some mins).
  { destruct axes_min_mm; [|discriminate Hmn]. simpl in Hmn. congruence. }
  assert (Hmx' : axes_max_mm = Some maxs).
  { destruct axes_max_mm; [|discriminate Hmx]. simpl in Hmx. congruence. }
  apply Nat.eqb_eq in Hmins. apply Nat.eqb_eq in Hmaxs.
  assert (Hcounts : c10 = c /\ length counts = length axs /\
            (encoder = None -> counts = repeat 10%Z (length axs)) /\
            (forall e, encoder = Some e -> counts = map int_of e)).
  { destruct encoder as [e|].
    - apply bind_ok in H10. destruct H10 as (v1 & d1 & G1 & H10).
      apply assert_ok in G1. destruct G1 as [Hel ->].
      apply bind_ok in H10. destruct H10 as (v2 & d2 & G2 & H10).
      apply assert_ok in G2. destruct G2 as [_ ->].
      unfold ret in H10. injection H10 as <- <-.
      split; [reflexivity|]. split.
      + rewrite length_map. now apply Nat.eqb_eq.
      + split; [discriminate|]. intros e' He'. now injection He' as <-.
    - unfold ret in H10. injection H10 as <- <-.
      split; [reflexivity|]. split; [apply repeat_length|].
      split; [reflexivity | discriminate]. }
  destruct Hcounts as (-> & Hcl & Hc1 & Hc2).
  unfold update in H. injection H as _ <-.
  exists screws, triples, mins, maxs, counts.
  repeat (split; [assumption|]).
  reflexivity.
Qed.

Lemma get_position_length c pos c' factors :
  _get_position c = (Ok pos, c') ->
  encoder_counts_per_um c = Some factors ->
  length pos <= length factors.
Proof.
  unfold _get_position. intros H He.
  apply bind_ok in H. destruct H as (axs & c1 & H1 & H). inv_run H1.
  apply bind_ok in H. destruct H as (r & c2 & H2 & H).
  apply send_ok in H2. destruct H2 as (_ & -> & _ & _).
  apply bind_ok in H. destruct H as (s & c3 & H3 & H). inv_run H3.
  apply bind_ok in H. destruct H as (ps & c4 & H4 & H). inv_run H4.
  apply bind_ok in H. destruct H as (u & c5 & H5 & H). inv_run H5.
  inv_run H.
  match goal with
  | Hc : _counts2position _ _ = Ok _ |- _ =>
      unfold _counts2position in Hc; cbn [encoder_counts_per_um set_port] in Hc;
      rewrite He in Hc; cbn [attr rbind] in Hc;
      apply counts2position_loop_ok in Hc; destruct Hc as [Hl _];
      rewrite Hl, length_combine; lia
  end.
Qed.

Lemma repeat_integral (z : Z) n b :
  In b (repeat (inject_Z z) n) -> integral b.
Proof. intros H. apply repeat_spec in H. subst b. now exists z. Qed.

Lemma at_index_in l k (b : Q) : at_index l k = Some b ->
  exists xs, l = Some xs /\ In b xs.
Proof.
  unfold at_index. destruct l as [xs|]; [|discriminate].
  intros H. exists xs. split; [reflexivity|]. eapply nth_error_In; eauto.
Qed.

(** X22.  Every stage controller that [__init__] has built satisfies
    what the properties of the setters assume: its axes are one of the
    three supported sequences, every limit holds one entry per axis, the
    limits of the acceleration, the settle time and the precision are
    integers and the tolerance is not negative, the controller is Idle,
    and a position is known; the position has one entry per axis unless
    the device answered the position query with fewer counts. *)
Theorem constructed_stage_is_sound (p : Serial) (axs : list string)
    (lead_screws : option (list string))
    (axes_min_mm axes_max_mm encoder : option (list value)) (use_pwm : bool)
    (c : Controller) :
  Controller_new p (Some axs) lead_screws axes_min_mm axes_max_mm encoder
    use_pwm = Ok c ->
  supported_axes axs /\ axes c = Some axs /\ sound_limits c /\
  Forall (per_axis (length axs))
    [max_velocity_mmps c; min_position_um c; max_position_um c;
     min_acceleration_ms c; max_acceleration_ms c; max_settle_time_ms c;
     tol_settle_time_ms c; min_precision_um c; max_precision_um c] /\
  _moving c = Some false /\
  exists pos, position_um c = Some pos /\ length pos <= length axs /\
    (length pos = length axs -> well_formed c).
Proof.
  unfold Controller_new.
  destruct (__init__ (Some axs) lead_screws axes_min_mm axes_max_mm encoder
              use_pwm (blank p)) as [[u|e] c0] eqn:H; [|discriminate].
  intros Hc. injection Hc as <-. unfold __init__ in H.
  apply bind_ok in H. destruct H as (r & c1 & _ & H).
  apply bind_ok in H. destruct H as (s & c2 & _ & H).
  apply bind_ok in H. destruct H as (u3 & c3 & _ & H).
  apply bind_ok in H. destruct H as (u4 & c4 & _ & H).
  apply bind_ok in H. destruct H as (u5 & c5 & _ & H).
  apply bind_ok in H. destruct H as (u6 & c6 & _ & H).
  apply bind_ok in H. destruct H as (u7 & c7 & _ & H).
  apply bind_ok in H. destruct H as (u8 & c8 & H8 & H).
  apply bind_ok in H8. destruct H8 as (u9 & c9 & Hconf & H8).
  apply configure_axes_ok in Hconf.
  destruct Hconf as (Hsup & screws & triples & mins & maxs & counts & _ & Hscrew
                     & _ & _ & Hmins & Hmaxs & Hcl & _ & _ & Hc9).
  apply screw_loop_length in Hscrew.
  (* the setters *)
  apply bind_ok in H8. destruct H8 as (vmax & d1 & G1 & H8).
  unfold reading in G1. injection G1 as _ Ed1. subst d1.
  apply bind_ok in H8. destruct H8 as (v2 & d2 & G2 & H8).
  apply bind_ok in H8. destruct H8 as (amin & d3 & G3 & H8).
  unfold reading in G3. injection G3 as _ Ed3. subst d3.
  apply bind_ok in H8. destruct H8 as (v4 & d4 & G4 & H8).
  apply bind_ok in H8. destruct H8 as (v5 & d5 & G5 & H8).
  apply bind_ok in H8. destruct H8 as (pmin & d6 & G6 & H8).
  unfold reading in G6. injection G6 as _ Ed6. subst d6.
  apply bind_ok in H8. destruct H8 as (v7 & d7 & G7 & H8).
  apply bind_ok in H8. destruct H8 as (pos & d8 & G8 & H8).
  unfold update in H8. injection H8 as _ Ec8. subst c8.
  (* the configuration is that of [configure_axes] *)
  assert (K2 : configuration d2 = configuration c9).
  { pose proof (setter_keeps_configuration Velocity
                  (map (fun v => VFloat ((67 # 100) * v)) vmax) c9) as K.
    cbn [setter] in K. now rewrite G2 in K. }
  assert (K4 : configuration d4 = configuration d2).
  { pose proof (setter_keeps_configuration Acceleration (map VFloat amin) d2)
      as K.
    cbn [setter] in K. now rewrite G4 in K. }
  assert (K5 : configuration d5 = configuration d4).
  { pose proof (setter_keeps_configuration SettleTime
                  (repeat (VInt 0) (length axs)) d4) as K.
    cbn [setter] in K. now rewrite G5 in K. }
  assert (K7 : configuration d7 = configuration d5).
  { pose proof (setter_keeps_configuration Precision (map VFloat pmin) d5)
      as K.
    cbn [setter] in K. now rewrite G7 in K. }
  assert (Hlen : length pos <= length axs).
  { rewrite <- Hcl. apply (get_position_length d7 pos d8 counts G8).
    assert (E : encoder_counts_per_um d7 = encoder_counts_per_um c9).
    { rewrite K5, K4, K2 in K7. unfold configuration in K7.
      now injection K7. }
    rewrite E, Hc9. reflexivity. }
  apply get_position_ok in G8. destruct G8 as (p8 & ->).
  assert (K8 : configuration
                 (set_moving (Some false)
                    (set_position_um (Some pos) (set_port p8 d7)))
               = configuration c9).
  { rewrite <- K2, <- K4, <- K5, <- K7. reflexivity. }
  set (c8 := set_moving (Some false)
               (set_position_um (Some pos) (set_port p8 d7))) in *.
  assert (Hpos8 : position_um c8 = Some pos) by reflexivity.
  assert (Hmov8 : _moving c8 = Some false) by reflexivity.
  clearbody c8.
  assert (Kc : configuration c0 = configuration c9 /\ motion c0 = motion c8).
  { destruct use_pwm; cbn [when] in H.
    - assert (Hk : keeps configuration
                (set_pwm_state "off" ;; set_pwm_intensity (VInt 1)))
        by keeps_tac.
      assert (Hm : keeps motion
                (set_pwm_state "off" ;; set_pwm_intensity (VInt 1)))
        by keeps_tac.
      specialize (Hk c8). specialize (Hm c8). rewrite H in Hk, Hm.
      cbn [snd] in Hk, Hm. split; [now rewrite Hk | exact Hm].
    - unfold ret in H. injection H as _ <-. split; [exact K8 | reflexivity]. }
  destruct Kc as [Kc Km]. clear K2 K4 K5 K7 K8.
  rewrite Hc9 in Kc. unfold configuration in Kc.
  cbn [version axes pitch_mm resolution_nm max_velocity_mmps min_position_um
       max_position_um encoder_counts_per_um min_acceleration_ms
       max_acceleration_ms max_settle_time_ms tol_settle_time_ms
       min_precision_um max_precision_um] in Kc.
  injection Kc as _ Hax _ _ Hvmax Hpmn Hpmx Hamn Hamx Hsmx Htol Hprmn Hprmx _.
  unfold motion in Km.
  injection Km as _ _ _ _ Hpos Hmov _.
  rewrite Hpos8 in Hpos. rewrite Hmov8 in Hmov.
  assert (Hall : Forall (per_axis (length axs))
    [max_velocity_mmps c0; min_position_um c0; max_position_um c0;
     min_acceleration_ms c0; max_acceleration_ms c0; max_settle_time_ms c0;
     tol_settle_time_ms c0; min_precision_um c0; max_precision_um c0]).
  { rewrite Hvmax, Hpmn, Hpmx, Hamn, Hamx, Hsmx, Htol, Hprmn, Hprmx.
    repeat constructor; eexists; (split; [reflexivity|]);
      rewrite ?length_map, ?repeat_length; assumption || reflexivity. }
  split; [exact Hsup|]. split; [exact Hax|]. split; [|split; [exact Hall|]].
  - split.
    + intros q k b Hq Hb.
      destruct q; [now elim Hq| | |]; cbn [lower_bound upper_bound] in Hb;
        rewrite ?Hamn, ?Hamx, ?Hsmx, ?Hprmn, ?Hprmx in Hb;
        destruct Hb as [Hb|Hb];
        try (injection Hb as <-; exists 0%Z; reflexivity);
        apply at_index_in in Hb; destruct Hb as (xs & Hxs & Hin);
        injection Hxs as <-;
        first [ exact (repeat_integral 25 _ _ Hin)
              | exact (repeat_integral 1000 _ _ Hin)
              | exact (repeat_integral 1 _ _ Hin)
              | exact (repeat_integral 1000000 _ _ Hin) ].
    + intros tol d Ht Hd. rewrite Htol in Ht. injection Ht as <-.
      apply repeat_spec in Hd. subst d. discriminate.
  - split; [exact Hmov|]. exists pos. split; [exact Hpos|].
    split; [exact Hlen|]. intros Hl. exists axs. split; [exact Hax|].
    apply Forall_app with (l1 := _ :: _ :: _ :: _ :: _ :: _ :: _ :: _ :: [_])
                          (l2 := [_]).
    split; [exact Hall|]. constructor; [|constructor].
    exists pos. split; [exact Hpos | exact Hl].
Qed.

Lemma constructed_stage_is_sound_witness :
  supported_axes ["X"; "Y"] /\ sound_limits (xy_stage []) /\
  _moving (xy_stage []) = Some false.
Proof.
  assert (H : Controller_new (port_with (xy_init_script ++ []))
                (Some ["X"; "Y"]) (Some ["S"; "S"])
                (Some [VInt (-50); VInt (-25)]) (Some [VInt 50; VInt 25])
                None false = Ok (xy_stage []))
    by (vm_compute; reflexivity).
  destruct (constructed_stage_is_sound _ _ _ _ _ _ _ _ H)
    as (H1 & _ & H3 & _ & H5 & _).
  split; [exact H1|]. split; [exact H3 | exact H5].
Defined.
